(** * lc: a line, word and byte counter

    A shallow embedding of [lc.c] and the properties of its four scan
    routines ([count_all], [count_bytes], [count_lines_and_bytes],
    [count_words]), of the dispatcher [use_opts] and of the file loop of
    [main].

    Conventions.
    - A byte of the input is a [Byte.byte]; [uchar] is its value as
      [unsigned char], [schar] its value as plain (signed) [char].
    - [uintmax_t] counters are integers reduced modulo [2^64].
    - A descriptor is described by what [fstat] answers for it, by the
      successive non-zero returns of [read] on it (end of file is the end
      of that script) and by the number of [close] calls it has received.
      With it comes what [malloc(MAXSIZE)] answers during its scan.
    - The block [malloc(MAXSIZE)] hands out is the list of its [MAXSIZE]
      cells.  A store at an offset where the block has no cell, and a
      search that finds nothing in its cells and so reads on behind them,
      leave the allocation: the routine then ends as [Wild], and nothing is
      said of what the process does from there.
    - [mbrtowc] and [iswspace] belong to the C library, not to [lc.c]:
      they are a parameter ([locale]) of the scan routines.
    - [main] is taken up after [getopt], from [argv += optind] on. *)

From Stdlib Require Import ZArith List Bool Lia String Ascii DecimalString.
From Stdlib Require Import Strings.Byte.
Import ListNotations.
Local Open Scope Z_scope.

(** ** Machine integers and bytes *)

Definition MAXSIZE : nat := Z.to_nat 65205.

Definition uintmax (z : Z) : Z := z mod 2 ^ 64.

Definition uchar (b : byte) : Z := Z.of_N (Byte.to_N b).

Definition schar (b : byte) : Z :=
  if uchar b <? 128 then uchar b else uchar b - 256.

Definition NL : byte := "010"%byte.

(** The three classification macros, on the promoted [int] value of [*p]. *)

Definition is_ascii (x : Z) : bool := Z.land x (Z.lnot 127) =? 0.

Definition is_print (x : Z) : bool := (x - 32) mod 2 ^ 32 <? 95.

Definition is_space (x : Z) : bool := (x =? 32) || (x - 9 <? 5).

(** ** The two structures *)

Record lc_info : Type := mk_info {
  num_bytes : Z;
  num_lines : Z;
  num_words : Z;
  lines_total : Z;
  words_total : Z;
  bytes_total : Z
}.

Record lc_conf : Type := mk_conf {
  opt_bytes : bool;
  opt_lines : bool;
  opt_words : bool
}.

Definition set_num_bytes (li : lc_info) (v : Z) : lc_info :=
  mk_info v (num_lines li) (num_words li)
          (lines_total li) (words_total li) (bytes_total li).

Definition set_num_lines (li : lc_info) (v : Z) : lc_info :=
  mk_info (num_bytes li) v (num_words li)
          (lines_total li) (words_total li) (bytes_total li).

Definition set_num_words (li : lc_info) (v : Z) : lc_info :=
  mk_info (num_bytes li) (num_lines li) v
          (lines_total li) (words_total li) (bytes_total li).

Definition incr_lines (li : lc_info) : lc_info :=
  set_num_lines li (uintmax (num_lines li + 1)).

Definition incr_words (li : lc_info) : lc_info :=
  set_num_words li (uintmax (num_words li + 1)).

Definition add_totals (l w b : bool) (li : lc_info) : lc_info :=
  mk_info (num_bytes li) (num_lines li) (num_words li)
    (if l then uintmax (lines_total li + num_lines li) else lines_total li)
    (if w then uintmax (words_total li + num_words li) else words_total li)
    (if b then uintmax (bytes_total li + num_bytes li) else bytes_total li).

(** ** The environment of a scan *)

Record stat_t : Type := mk_stat {
  st_isreg : bool;        (* S_ISREG(st.st_mode) *)
  st_size : Z             (* st.st_size, an off_t *)
}.

(** One return of [read(fd, buf, MAXSIZE)]: the bytes it placed in [buf]
    (none: it returned 0), or -1. *)
Inductive read_ret : Type :=
| Bytes (l : list byte)
| Fail.

Record fdesc : Type := mk_fd {
  fd_stat : option stat_t;           (* None: fstat() returns -1 *)
  fd_malloc : option (list byte);    (* None: malloc(MAXSIZE) returns NULL;
                                        otherwise the cells it hands out *)
  fd_reads : list read_ret;          (* what the coming reads return *)
  fd_closes : nat                    (* close(fd) calls so far *)
}.

Definition with_reads (f : fdesc) (rs : list read_ret) : fdesc :=
  mk_fd (fd_stat f) (fd_malloc f) rs (fd_closes f).

Definition close (f : fdesc) : fdesc :=
  mk_fd (fd_stat f) (fd_malloc f) (fd_reads f) (S (fd_closes f)).

(** [bytes_read] as the signed value the loop tests. *)
Definition ret_value (r : read_ret) : Z :=
  match r with
  | Bytes l => Z.of_nat (List.length l)
  | Fail => -1
  end.

(** How a routine ends: it returns, it leaves through [err(EXIT_FAILURE, ..)],
    or it walks out of every object it owns. *)
Inductive outcome (A : Type) : Type :=
| Done (a : A)
| Exit (label : string)
| Wild.
Arguments Done {A} a.
Arguments Exit {A} label.
Arguments Wild {A}.

(** ** The multibyte decoder of the C library *)

(** Return values of [mbrtowc(&pwc, p, n, &mst)]: a length of at least one
    with the wide character stored in [pwc]; 0 with [L'\0'] stored;
    [(size_t)-1]; [(size_t)-2].  The last two store nothing. *)
Inductive mb_ret : Type :=
| MbLen (n : positive) (wc : Z)
| MbNul
| MbIlseq
| MbShort.

Record locale : Type := mk_locale {
  mbstate_t : Type;
  mbstate_zero : mbstate_t;                                    (* = {0} *)
  mbrtowc : mbstate_t -> list byte -> mb_ret * mbstate_t;
  iswspace : Z -> bool
}.

(** [wlen] after the test on 0, -1 and -2. *)
Definition wlen_of (r : mb_ret) : nat :=
  match r with
  | MbLen n _ => Pos.to_nat n
  | MbNul | MbIlseq | MbShort => 1%nat
  end.

(** [pwc] after the call, given the value it was preset to. *)
Definition pwc_of (r : mb_ret) (preset : Z) : Z :=
  match r with
  | MbLen _ wc => wc
  | MbNul => 0
  | MbIlseq | MbShort => preset
  end.

Section Scan.

Variable L : locale.

(** The variables the word loops carry from one byte to the next. *)
Record cursor : Type := mk_cursor {
  c_li : lc_info;
  c_mst : mbstate_t L;
  c_have_space : bool
}.

(** *** count_all *)

(** Body of [while (bytes_read > 0)] in [count_all]; [rest] is what is left
    of the block at [p], and the result is what is left after the step. *)
Definition all_step (c : cursor) (b : byte) (tl : list byte)
  : cursor * list byte :=
  let x := schar b in
  if is_ascii x && is_print x then
    let c' :=
      if is_space x then mk_cursor (c_li c) (c_mst c) true
      else if c_have_space c then
        mk_cursor (incr_words (c_li c)) (c_mst c) false
      else if x =? 10 then
        mk_cursor (incr_lines (c_li c)) (c_mst c) (c_have_space c)
      else c in
    (c', tl)
  else
    let '(r, mst') := mbrtowc L (c_mst c) (b :: tl) in
    let pwc := pwc_of r (uchar b) in
    let li1 := if pwc =? 10 then incr_lines (c_li c) else c_li c in
    let c' :=
      if iswspace L pwc then mk_cursor li1 mst' true
      else if c_have_space c then mk_cursor (incr_words li1) mst' false
      else mk_cursor li1 mst' (c_have_space c) in
    (c', skipn (wlen_of r) (b :: tl)).

Fixpoint all_block (fuel : nat) (c : cursor) (rest : list byte) : cursor :=
  match fuel, rest with
  | S k, b :: tl => let '(c', rest') := all_step c b tl in all_block k c' rest'
  | _, _ => c
  end.

(** [while ((bytes_read = read(fd, buf, MAXSIZE)) != 0)] of [count_all]:
    the cursor, [sum_bytes] and the reads still to come. *)
Fixpoint all_reads (c : cursor) (sum : Z) (rs : list read_ret)
  : cursor * Z * list read_ret :=
  match rs with
  | [] => (c, sum, [])
  | Bytes [] :: rs' => (c, sum, rs')
  | r :: rs' =>
      let sum' := uintmax (sum + uintmax (ret_value r)) in
      match r with
      | Bytes l => all_reads (all_block (List.length l) c l) sum' rs'
      | Fail => all_reads c sum' rs'
      end
  end.

Definition count_all (li : lc_info) (f : fdesc) : outcome (lc_info * fdesc) :=
  let li := set_num_words (set_num_lines (set_num_bytes li 0) 0) 0 in
  match fd_stat f with
  | None => Exit "fstat()"
  | Some st =>
      let li :=
        if st_isreg st && (0 <? st_size st)
        then set_num_bytes li (uintmax (st_size st)) else li in
      match fd_malloc f with
      | None => Exit "malloc()"
      | Some _ =>
          let '(c, sum, rs) :=
            all_reads (mk_cursor li (mbstate_zero L) true) 0 (fd_reads f) in
          let li := c_li c in
          let li := if num_bytes li =? 0 then set_num_bytes li sum else li in
          Done (li, with_reads f rs)
      end
  end.

(** *** count_words *)

Definition words_step (c : cursor) (b : byte) (tl : list byte)
  : cursor * list byte :=
  let x := schar b in
  if is_ascii x && is_print x then
    let c' :=
      if is_space x then mk_cursor (c_li c) (c_mst c) true
      else if c_have_space c then
        mk_cursor (incr_words (c_li c)) (c_mst c) false
      else c in
    (c', tl)
  else
    let '(r, mst') := mbrtowc L (c_mst c) (b :: tl) in
    let pwc := pwc_of r (uchar b) in
    let c' :=
      if iswspace L pwc then mk_cursor (c_li c) mst' true
      else if c_have_space c then mk_cursor (incr_words (c_li c)) mst' false
      else mk_cursor (c_li c) mst' (c_have_space c) in
    (c', skipn (wlen_of r) (b :: tl)).

Fixpoint words_block (fuel : nat) (c : cursor) (rest : list byte) : cursor :=
  match fuel, rest with
  | S k, b :: tl =>
      let '(c', rest') := words_step c b tl in words_block k c' rest'
  | _, _ => c
  end.

Fixpoint words_reads (c : cursor) (rs : list read_ret)
  : cursor * list read_ret :=
  match rs with
  | [] => (c, [])
  | Bytes [] :: rs' => (c, rs')
  | Bytes l :: rs' => words_reads (words_block (List.length l) c l) rs'
  | Fail :: rs' => words_reads c rs'
  end.

Definition count_words (li : lc_info) (f : fdesc) : outcome (lc_info * fdesc) :=
  match fd_malloc f with
  | None => Exit "malloc()"
  | Some _ =>
      let li := set_num_words li 0 in
      let '(c, rs) :=
        words_reads (mk_cursor li (mbstate_zero L) true) (fd_reads f) in
      Done (c_li c, close (with_reads f rs))
  end.

End Scan.

Arguments c_li {L} c.
Arguments c_mst {L} c.
Arguments c_have_space {L} c.
Arguments mk_cursor {L} _ _ _.

(** *** count_bytes *)

Fixpoint bytes_reads (n : Z) (rs : list read_ret) : Z * list read_ret :=
  match rs with
  | [] => (n, [])
  | Bytes [] :: rs' => (n, rs')
  | r :: rs' => bytes_reads (uintmax (n + uintmax (ret_value r))) rs'
  end.

Definition count_bytes (li : lc_info) (f : fdesc) : outcome (lc_info * fdesc) :=
  let li := set_num_bytes li 0 in
  match fd_stat f with
  | None => Exit "fstat()"
  | Some st =>
      if st_isreg st && (0 <? st_size st) then
        Done (set_num_bytes li (uintmax (st_size st)), close f)
      else
        match fd_malloc f with
        | None => Exit "malloc()"
        | Some _ =>
            let '(n, rs) := bytes_reads (num_bytes li) (fd_reads f) in
            Done (set_num_bytes li n, close (with_reads f rs))
        end
  end.

(** *** count_lines_and_bytes *)

(** The block at [buf] after a read that delivered [chunk]: the cells past
    the delivered bytes keep what they held. *)
Definition fill (buf chunk : list byte) : list byte :=
  chunk ++ skipn (List.length chunk) buf.

Fixpoint poke (buf : list byte) (i : nat) (v : byte) : list byte :=
  match buf, i with
  | [], _ => []
  | _ :: t, O => v :: t
  | x :: t, S j => x :: poke t j v
  end.

(** [*last = '\n'] with [last = buf + i]: the block with its cell at offset
    [i] set.  [None] when the block has no cell at that offset: the store
    lands outside the allocation. *)
Definition store_nl (buf : list byte) (i : Z) : option (list byte) :=
  if (0 <=? i) && (i <? Z.of_nat (List.length buf))
  then Some (poke buf (Z.to_nat i) NL) else None.

(** [memchr(cells, c, (size_t)-1)] as an offset into [cells]; [None] when no
    cell of [cells] holds [c]: with its length of [(size_t)-1] the search
    then reads on behind the last cell. *)
Fixpoint memchr (cells : list byte) (c : Z) : option nat :=
  match cells with
  | [] => None
  | x :: t => if uchar x =? c then Some O else option_map S (memchr t c)
  end.

(** [for (; (p = memchr(p, '\n', (size_t)-1)) < last; p++) li->num_lines++;]
    with [p] and [last] as offsets from [buf].  [None] when a search finds
    no newline in the cells from [p] on and leaves the block.  Every turn
    but the last moves [p] past a hit below [last]: [fuel] bounds the turns,
    and more than [last - p] of it is never used up ([long_scan_fuel]). *)
Fixpoint long_scan (fuel : nat) (buf : list byte) (p last : Z) (li : lc_info)
  : option lc_info :=
  match fuel with
  | O => None
  | S k =>
      match memchr (skipn (Z.to_nat p) buf) 10 with
      | Some d =>
          let q := p + Z.of_nat d in
          if q <? last then long_scan k buf (q + 1) last (incr_lines li)
          else Some li
      | None => None
      end
  end.

(** The promoted branch of the read loop, entered with [bytes_read = n]:
    [last = p + bytes_read; *last = '\n';] and the search from [buf].  It
    gives the counts and the block as the store left it, or [None] when the
    store or the search leaves the block. *)
Definition sentinel_scan (buf : list byte) (n : Z) (li : lc_info)
  : option (lc_info * list byte) :=
  match store_nl buf n with
  | Some buf' =>
      match long_scan (S (Z.to_nat n)) buf' 0 n li with
      | Some li' => Some (li', buf')
      | None => None
      end
  | None => None
  end.

(** [while (bytes_read--) if ( *p++ == '\n') li->num_lines++;] *)
Fixpoint bytewise (l : list byte) (li : lc_info) : lc_info :=
  match l with
  | [] => li
  | b :: t => bytewise t (if schar b =? 10 then incr_lines li else li)
  end.

Record lb_state : Type := mk_lb {
  lb_li : lc_info;
  lb_sum : Z;                 (* sum_bytes *)
  lb_expect_long : bool;
  lb_buf : list byte;
  lb_marks : list Z           (* offsets [last - buf] of the stores made in
                                 the block by [*last = '\n'], latest first *)
}.

(** The read loop.  It ends as [Wild] where a branch leaves the block: the
    promoted branch when the sentinel has no cell to go to (after a read
    that filled the block the store is at offset [MAXSIZE], after a read that
    returned -1 at offset -1), and the bytewise loop with [bytes_read = -1],
    which counts down from -1 and runs [p] through the whole address
    space. *)
Fixpoint lb_reads (s : lb_state) (rs : list read_ret)
  : outcome (lb_state * list read_ret) :=
  match rs with
  | [] => Done (s, [])
  | Bytes [] :: rs' => Done (s, rs')
  | r :: rs' =>
      let n := ret_value r in
      let buf :=
        match r with Bytes l => fill (lb_buf s) l | Fail => lb_buf s end in
      let sum := uintmax (lb_sum s + uintmax n) in
      if lb_expect_long s then
        match sentinel_scan buf n (lb_li s) with
        | Some (li', buf') =>
            lb_reads (mk_lb li' sum true buf' (n :: lb_marks s)) rs'
        | None => Wild
        end
      else
        match r with
        | Fail => Wild
        | Bytes l =>
            let el := uintmax (n * 6) <=? num_lines (lb_li s) in
            lb_reads (mk_lb (bytewise l (lb_li s)) sum el buf (lb_marks s)) rs'
        end
  end.

(** The state in which [count_lines_and_bytes] enters its read loop. *)
Definition lb_init (li : lc_info) (st : stat_t) (cells : list byte) : lb_state :=
  let li := set_num_bytes li 0 in
  let li :=
    if st_isreg st && (0 <? st_size st)
    then set_num_bytes li (uintmax (st_size st)) else li in
  mk_lb (set_num_lines li 0) 0 false cells [].

Definition count_lines_and_bytes (li : lc_info) (f : fdesc)
  : outcome (lc_info * fdesc) :=
  match fd_malloc f with
  | None => Exit "malloc()"
  | Some cells =>
      match fd_stat f with
      | None => Exit "fstat()"
      | Some st =>
          match lb_reads (lb_init li st cells) (fd_reads f) with
          | Done (s, rs) =>
              let li := lb_li s in
              let li :=
                if num_bytes li =? 0 then set_num_bytes li (lb_sum s) else li in
              Done (li, close (with_reads f rs))
          | Exit label => Exit label
          | Wild => Wild
          end
      end
  end.

(** ** Output *)

Definition nl : string := String "010"%char EmptyString.

Fixpoint spaces (n : nat) : string :=
  match n with
  | O => EmptyString
  | S k => String " "%char (spaces k)
  end.

(** [%12ju] *)
Definition ju12 (v : Z) : string :=
  let digits := NilZero.string_of_uint (N.to_uint (Z.to_N v)) in
  (spaces (12 - String.length digits) ++ digits)%string.

(** ** use_opts *)

Definition report (o : outcome (lc_info * fdesc)) (lc : lc_conf)
    (l w b : bool) (text : lc_info -> string)
  : outcome (lc_info * lc_conf * string * fdesc) :=
  match o with
  | Done (li, f) => Done (add_totals l w b li, lc, text li, f)
  | Exit label => Exit label
  | Wild => Wild
  end.

Definition use_opts (L : locale) (li : lc_info) (lc : lc_conf) (f : fdesc)
  : outcome (lc_info * lc_conf * string * fdesc) :=
  let lc :=
    if negb (opt_lines lc) && negb (opt_words lc) && negb (opt_bytes lc)
    then mk_conf true true true else lc in
  if opt_lines lc && opt_words lc && opt_bytes lc then
    report (count_all L li f) lc true true true
      (fun li => ju12 (num_lines li) ++ ju12 (num_words li)
                 ++ ju12 (num_bytes li))%string
  else if opt_bytes lc && negb (opt_lines lc) && negb (opt_words lc) then
    report (count_bytes li f) lc false false true
      (fun li => ju12 (num_bytes li))
  else if opt_lines lc && negb (opt_bytes lc) && negb (opt_words lc) then
    report (count_lines_and_bytes li f) lc true false false
      (fun li => ju12 (num_lines li))
  else if opt_lines lc && opt_bytes lc && negb (opt_words lc) then
    report (count_lines_and_bytes li f) lc true false true
      (fun li => ju12 (num_lines li) ++ ju12 (num_bytes li))%string
  else if opt_words lc && negb (opt_lines lc) && negb (opt_bytes lc) then
    report (count_words L li f) lc false true false
      (fun li => ju12 (num_words li))
  else if opt_lines lc && opt_words lc && negb (opt_bytes lc) then
    report (count_all L li f) lc true true false
      (fun li => ju12 (num_lines li) ++ ju12 (num_words li))%string
  else if opt_bytes lc && opt_words lc && negb (opt_lines lc) then
    report (count_all L li f) lc false true true
      (fun li => ju12 (num_words li) ++ ju12 (num_bytes li))%string
  else Done (li, lc, EmptyString, f).

(** ** main, from [argv += optind] on *)

Definition EXIT_FAILURE : Z := 1.

(** How the process ends: through [exit] or the return of [main], which
    flush [stdout]; or after a scan left its objects. *)
Inductive ending : Type :=
| Status (code : Z)
| Crash.

Record process : Type := mk_process {
  p_stdout : string;
  p_stderr : list string;      (* the diagnostics, without program name
                                  and error text *)
  p_end : ending;
  p_fds : list fdesc           (* the descriptors opened, as they were left *)
}.

Record run : Type := mk_run {
  r_li : lc_info;
  r_lc : lc_conf;
  r_out : string;
  r_fds : list fdesc
}.

Definition die (r : run) (fds : list fdesc) (msg : string) : process :=
  mk_process (r_out r) [msg] (Status EXIT_FAILURE) (r_fds r ++ fds).

(** A scan that left its objects ([Wild]).  The source does not say what
    the process does from there, nor what becomes of the text still held
    by the buffer of [stdout]: nothing is recorded of the process but that
    end. *)
Definition crash : process := mk_process EmptyString [] Crash [].

(** [*arg == '-' && *(arg + 1) == '\0'] *)
Definition bare_dash (arg : string) : bool :=
  match arg with
  | String c EmptyString => Ascii.eqb c "-"%char
  | _ => false
  end.

(** [while (argc--)]: the run carried on, or the process that ended. *)
Fixpoint file_loop (L : locale) (open : string -> option fdesc)
    (r : run) (argv : list string) : run + process :=
  match argv with
  | [] => inl r
  | arg :: argv' =>
      if bare_dash arg then inr (die r [] "lc: invalid option prefix.")
      else
        match open arg with
        | None => inr (die r [] arg)
        | Some f =>
            match use_opts L (r_li r) (r_lc r) f with
            | Done (li, lc, text, f') =>
                file_loop L open
                  (mk_run li lc (r_out r ++ text ++ " " ++ arg ++ nl)%string
                          (r_fds r ++ [close f']))
                  argv'
            | Exit label => inr (die r [f] label)
            | Wild => inr crash
            end
        end
  end.

Definition total_line (lc : lc_conf) (li : lc_info) : string :=
  (if opt_lines lc && opt_words lc && negb (opt_bytes lc) then
     ju12 (lines_total li) ++ ju12 (words_total li) ++ " total" ++ nl
   else if opt_lines lc && negb (opt_words lc) && negb (opt_bytes lc) then
     ju12 (lines_total li) ++ " total" ++ nl
   else if negb (opt_lines lc) && opt_words lc && opt_bytes lc then
     ju12 (words_total li) ++ ju12 (bytes_total li) ++ " total" ++ nl
   else if negb (opt_lines lc) && negb (opt_words lc) && opt_bytes lc then
     ju12 (bytes_total li) ++ " total" ++ nl
   else if opt_lines lc && negb (opt_words lc) && opt_bytes lc then
     ju12 (lines_total li) ++ ju12 (bytes_total li) ++ " total" ++ nl
   else if negb (opt_lines lc) && opt_words lc && negb (opt_bytes lc) then
     ju12 (words_total li) ++ " total" ++ nl
   else
     ju12 (lines_total li) ++ ju12 (words_total li) ++ ju12 (bytes_total li)
     ++ " total" ++ nl)%string.

Definition finish (r : run) (is_total : bool) : process :=
  mk_process
    (if is_total then r_out r ++ total_line (r_lc r) (r_li r) else r_out r)%string
    [] (Status 0) (r_fds r).

Definition main (L : locale) (open : string -> option fdesc)
    (lc : lc_conf) (argv : list string) : process :=
  let r0 := mk_run (mk_info 0 0 0 0 0 0) lc EmptyString [] in
  match argv with
  | [] =>
      match open "/dev/stdin"%string with
      | None => die r0 [] "open()"
      | Some f =>
          match use_opts L (r_li r0) lc f with
          | Done (li, lc', text, f') =>
              finish (mk_run li lc' (text ++ nl)%string [close f']) false
          | Exit label => die r0 [f] label
          | Wild => crash
          end
      end
  | _ =>
      match file_loop L open r0 argv with
      | inl r => finish r (1 <? Z.of_nat (List.length argv))
      | inr p => p
      end
  end.

(** ** The C locale

    [lc.c] never calls [setlocale], so [mbrtowc] and [iswspace] are those of
    the "C" locale the process starts in: a single-byte encoding without
    shift state, where only the six ASCII white-space characters are
    [iswspace].  What [mbrtowc] answers on a byte above 0x7f varies between
    C libraries and is left open by the contract below. *)

Definition isspace_C (x : Z) : bool := (x =? 32) || ((9 <=? x) && (x <=? 13)).

Record c_locale (L : locale) : Prop := mk_c_locale {
  cl_low : forall st b tl,
    0 < uchar b < 128 ->
    fst (mbrtowc L st (b :: tl)) = MbLen 1 (uchar b);
  cl_nul : forall st b tl,
    uchar b = 0 ->
    fst (mbrtowc L st (b :: tl)) = MbNul;
  cl_high : forall st b tl,
    128 <= uchar b ->
    fst (mbrtowc L st (b :: tl)) = MbIlseq \/
    exists wc, fst (mbrtowc L st (b :: tl)) = MbLen 1 wc /\
               iswspace L wc = false /\ wc <> 10;
  cl_space : forall x, 0 <= x < 256 -> iswspace L x = isspace_C x
}.

(** Every byte is a character of its own value (the BSD "none" encoding). *)
Definition byte_locale : locale :=
  mk_locale unit tt
    (fun st s =>
       match s with
       | [] => (MbShort, st)
       | b :: _ => if uchar b =? 0 then (MbNul, st) else (MbLen 1 (uchar b), st)
       end)
    isspace_C.

(** Bytes above 0x7f are invalid (a seven-bit "C" locale). *)
Definition ascii_locale : locale :=
  mk_locale unit tt
    (fun st s =>
       match s with
       | [] => (MbShort, st)
       | b :: _ =>
           if uchar b =? 0 then (MbNul, st)
           else if uchar b <? 128 then (MbLen 1 (uchar b), st)
           else (MbIlseq, st)
       end)
    isspace_C.

(** ** A multibyte locale, for contrast

    A UTF-8 decoder with a shift state, as [mbrtowc] is in a UTF-8 locale:
    the state holds the bytes of a sequence begun in an earlier call.  Only
    lead and continuation bytes are checked.  [lc.c] does not run in such a
    locale; the decoder serves to show what the C locale buys. *)

Definition utf8_len (b : Z) : nat :=
  if b <? 128 then 1
  else if (194 <=? b) && (b <=? 223) then 2
  else if (224 <=? b) && (b <=? 239) then 3
  else if (240 <=? b) && (b <=? 244) then 4
  else 0.

Definition utf8_cont (b : byte) : bool := (128 <=? uchar b) && (uchar b <=? 191).

Definition utf8_low (b : byte) : Z := Z.land (uchar b) 63.

Definition utf8_value (l : list byte) : Z :=
  match l with
  | [a] => uchar a
  | [a; b] => Z.land (uchar a) 31 * 64 + utf8_low b
  | [a; b; c] => (Z.land (uchar a) 15 * 64 + utf8_low b) * 64 + utf8_low c
  | [a; b; c; d] =>
      ((Z.land (uchar a) 7 * 64 + utf8_low b) * 64 + utf8_low c) * 64
      + utf8_low d
  | _ => 0
  end.

Definition utf8_mbrtowc (st s : list byte) : mb_ret * list byte :=
  match st ++ s with
  | [] => (MbShort, st)
  | lead :: more =>
      let k := utf8_len (uchar lead) in
      let body := firstn (k - 1) more in
      if (k =? 0)%nat || negb (forallb utf8_cont body) then (MbIlseq, st)
      else if (List.length body <? k - 1)%nat then (MbShort, st ++ s)
      else
        let wc := utf8_value (lead :: body) in
        if wc =? 0 then (MbNul, [])
        else (MbLen (Pos.of_nat (k - List.length st)) wc, [])
  end.

Definition iswspace_unicode (x : Z) : bool :=
  isspace_C x || (x =? 5760) || ((8192 <=? x) && (x <=? 8198))
  || ((8200 <=? x) && (x <=? 8202)) || (x =? 8232) || (x =? 8233)
  || (x =? 8287) || (x =? 12288).

Definition utf8_locale : locale :=
  mk_locale (list byte) [] utf8_mbrtowc iswspace_unicode.

(** ** What the counts are compared with *)

Definition is_nl (b : byte) : bool := uchar b =? 10.

(** Number of 0x0A bytes. *)
Definition newlines (l : list byte) : nat := List.length (filter is_nl l).

(** The bytes a script of reads delivers. *)
Definition stream (rs : list read_ret) : list byte :=
  flat_map (fun r => match r with Bytes l => l | Fail => [] end) rs.

(** A read that delivered at least one byte. *)
Definition delivers (r : read_ret) : bool :=
  match r with
  | Bytes (_ :: _) => true
  | _ => false
  end.

(** ... and at most the [MAXSIZE] it was asked for. *)
Definition fits (r : read_ret) : bool :=
  match r with
  | Bytes l => (List.length l <=? MAXSIZE)%nat
  | Fail => true
  end.

(** White space among the code points of the C locale, which are bytes. *)
Definition white (b : byte) : bool := isspace_C (uchar b).

(** The maximal runs of elements that are not [sp], in order; [cur] is the
    run under way, latest element first. *)
Fixpoint maximal_runs {A : Type} (sp : A -> bool) (cur l : list A)
  : list (list A) :=
  match l with
  | [] => match cur with [] => [] | _ => [rev cur] end
  | x :: t =>
      if sp x then
        match cur with
        | [] => maximal_runs sp [] t
        | _ => rev cur :: maximal_runs sp [] t
        end
      else maximal_runs sp (x :: cur) t
  end.

Definition words_of (l : list byte) : list (list byte) :=
  maximal_runs white [] l.

(** The code points of a UTF-8 stream: a well-formed sequence is one code
    point, the NUL byte is the code point 0, and a byte that starts no
    sequence is taken alone, as a code point that is not white space. *)
Fixpoint utf8_points (fuel : nat) (l : list byte) : list Z :=
  match fuel, l with
  | S k, b :: tl =>
      match fst (utf8_mbrtowc [] l) with
      | MbLen n wc => wc :: utf8_points k (skipn (Pos.to_nat n) l)
      | MbNul => 0 :: utf8_points k tl
      | MbIlseq | MbShort => uchar b :: utf8_points k tl
      end
  | _, _ => []
  end.

Definition code_points (l : list byte) : list Z :=
  utf8_points (List.length l) l.

(** The words of the specification in a UTF-8 stream: the maximal runs of
    code points that are not white space. *)
Definition point_runs (l : list byte) : list (list Z) :=
  maximal_runs iswspace_unicode [] (code_points l).

(** The word-segmentation state machine of the specification. *)
Inductive seg : Type := IN_SPACE | IN_WORD.

Definition seg_step (s : seg * nat) (b : byte) : seg * nat :=
  if white b then (IN_SPACE, snd s)
  else match fst s with
       | IN_SPACE => (IN_WORD, S (snd s))
       | IN_WORD => (IN_WORD, snd s)
       end.

(** Number of IN_SPACE -> IN_WORD transitions, started in IN_SPACE. *)
Definition transitions (l : list byte) : nat :=
  snd (fold_left seg_step l (IN_SPACE, O)).

(** The declared size of the specification: known for a regular file of
    positive size only. *)
Definition declared_size (st : stat_t) : option Z :=
  if st_isreg st && (0 <? st_size st) then Some (st_size st) else None.

(** The lines-and-bytes scan as the specification words it, without the
    promotion: for each read the sum grows by the count delivered and the
    block is scanned bytewise, [lines] growing on each 0x0A; the byte count
    is the declared size when it is known and the sum otherwise. *)
Definition spec_block (acc : Z * Z) (r : read_ret) : Z * Z :=
  let block := match r with Bytes l => l | Fail => [] end in
  (fold_left (fun lines b => if is_nl b then uintmax (lines + 1) else lines)
             block (fst acc),
   uintmax (snd acc + Z.of_nat (List.length block))).

Definition lines_and_bytes_spec (st : stat_t) (rs : list read_ret) : Z * Z :=
  let '(lines, sum) := fold_left spec_block rs (0, 0) in
  (lines, match declared_size st with Some size => size | None => sum end).

(** Bytes of a string literal. *)
Definition bytes_of (s : string) : list byte := list_byte_of_string s.

Definition li0 : lc_info := mk_info 0 0 0 0 0 0.

(** A pipe: no declared size. *)
Definition pipe (rs : list read_ret) : fdesc :=
  mk_fd (Some (mk_stat false 0)) (Some (repeat "000"%byte MAXSIZE)) rs 0.

(** A regular file of [size] bytes. *)
Definition regular (size : Z) (rs : list read_ret) : fdesc :=
  mk_fd (Some (mk_stat true size)) (Some (repeat "000"%byte MAXSIZE)) rs 0.

(** What one byte does to the counts and to [have_space] in the C locale;
    [lines] tells whether the loop counts lines ([count_all]) or not
    ([count_words]). *)
Definition byte_step (lines : bool) (s : lc_info * bool) (b : byte)
  : lc_info * bool :=
  let li := if lines && is_nl b then incr_lines (fst s) else fst s in
  if white b then (li, true)
  else if snd s then (incr_words li, false)
  else (li, false).

(** Word starts in [l] when the scan enters it with [have_space = hs]. *)
Fixpoint word_starts (hs : bool) (l : list byte) : nat :=
  match l with
  | [] => O
  | b :: t =>
      if white b then word_starts true t
      else if hs then S (word_starts false t)
      else word_starts false t
  end.

(** [k] increments of a [uintmax_t]. *)
Definition bump (k : nat) (v : Z) : Z := Nat.iter k (fun x => uintmax (x + 1)) v.

Definition wrapped (v : Z) : Prop := 0 <= v < 2 ^ 64.

(** Sum of the byte counts the reads deliver. *)
Definition sum_reads (rs : list read_ret) : Z :=
  fold_right (fun r acc => Z.of_nat (List.length
                 (match r with Bytes l => l | Fail => [] end)) + acc) 0 rs.

(** What the four routines leave in [li] after a scan that delivered the
    stream [s] in reads that all succeeded, in the C locale. *)

Definition all_result (li : lc_info) (st : stat_t) (s : list byte) : lc_info :=
  let li := set_num_words (set_num_lines (set_num_bytes li 0) 0) 0 in
  let li :=
    if st_isreg st && (0 <? st_size st)
    then set_num_bytes li (uintmax (st_size st)) else li in
  let li := fst (fold_left (byte_step true) s (li, true)) in
  if num_bytes li =? 0
  then set_num_bytes li (uintmax (0 + Z.of_nat (List.length s))) else li.

Definition words_result (li : lc_info) (s : list byte) : lc_info :=
  fst (fold_left (byte_step false) s (set_num_words li 0, true)).

Definition lb_result (li : lc_info) (st : stat_t) (s : list byte) : lc_info :=
  let li := bytewise s (lb_li (lb_init li st [])) in
  if num_bytes li =? 0
  then set_num_bytes li (uintmax (0 + Z.of_nat (List.length s))) else li.

Definition bytes_result (li : lc_info) (st : stat_t) (s : list byte) : lc_info :=
  let li := set_num_bytes li 0 in
  if st_isreg st && (0 <? st_size st)
  then set_num_bytes li (uintmax (st_size st))
  else set_num_bytes li (uintmax (0 + Z.of_nat (List.length s))).

(** The line [main] prints for one file: the text of [use_opts], a space,
    the name, a newline; and the listing made of such lines. *)
Definition file_line (text arg : string) : string :=
  (text ++ " " ++ arg ++ nl)%string.

Fixpoint listing (lines : list (string * string)) : string :=
  match lines with
  | [] => EmptyString
  | (text, arg) :: t => (file_line text arg ++ listing t)%string
  end.

(** [text] is what [use_opts] printed for the file named [arg]. *)
Definition printed_for (L : locale) (open : string -> option fdesc)
    (arg text : string) : Prop :=
  bare_dash arg = false /\
  exists f li lc li' lc' f',
    open arg = Some f /\ use_opts L li lc f = Done (li', lc', text, f').

(** A directory with two files, "abc\n" and "d e\n". *)
Definition two_files (arg : string) : option fdesc :=
  if String.eqb arg "f1" then Some (regular 4 [Bytes (bytes_of ("abc" ++ nl))])
  else if String.eqb arg "f2" then Some (regular 4 [Bytes (bytes_of ("d e" ++ nl))])
  else None.

(** The cursor with which a word scan starts: zeroed shift state,
    [have_space = 1]. *)
Definition scan_start (L : locale) (li : lc_info) : cursor L :=
  mk_cursor li (mbstate_zero L) true.

(** What a routine hands back apart from the descriptor. *)
Definition counts_of {A B : Type} (o : outcome (A * B)) : outcome A :=
  match o with
  | Done (a, _) => Done a
  | Exit label => Exit label
  | Wild => Wild
  end.

(** The state in which the read loop of [count_lines_and_bytes] ended. *)
Definition lb_final (o : outcome (lb_state * list read_ret)) : option lb_state :=
  match o with
  | Done (s, _) => Some s
  | _ => None
  end.

(** The reads of a pipe that promote the scan and then fill the block:
    six newlines, one byte, [MAXSIZE] bytes. *)
Definition full_block_reads : list read_ret :=
  [Bytes (repeat NL 6); Bytes (bytes_of "a");
   Bytes (repeat "a"%byte MAXSIZE)].

(** A directory that holds one file. *)
Definition one_file (name : string) (f : fdesc) (arg : string) : option fdesc :=
  if String.eqb arg name then Some f else None.

(** ** The word loops without [li]

    What a step of the word loops decides does not depend on the counts:
    whether it counts a line, whether it counts a word, the new
    [have_space], the new shift state and the bytes left of the block. *)
Definition judge (L : locale) (mst : mbstate_t L) (hs : bool) (b : byte)
    (tl : list byte) : bool * bool * bool * mbstate_t L * list byte :=
  let x := schar b in
  if is_ascii x && is_print x then
    if is_space x then (false, false, true, mst, tl)
    else if hs then (false, true, false, mst, tl)
    else (x =? 10, false, false, mst, tl)
  else
    let '(r, mst') := mbrtowc L mst (b :: tl) in
    let pwc := pwc_of r (uchar b) in
    let rest := skipn (wlen_of r) (b :: tl) in
    if iswspace L pwc then (pwc =? 10, false, true, mst', rest)
    else if hs then (pwc =? 10, true, false, mst', rest)
    else (pwc =? 10, false, false, mst', rest).

Definition tick (ln wd : bool) (li : lc_info) : lc_info :=
  let li := if ln then incr_lines li else li in
  if wd then incr_words li else li.

(** Lines and words a block adds, with the shift state and [have_space] it
    ends in. *)
Fixpoint tally (L : locale) (fuel : nat) (mst : mbstate_t L) (hs : bool)
    (rest : list byte) : nat * nat * mbstate_t L * bool :=
  match fuel, rest with
  | S k, b :: tl =>
      let '(ln, wd, hs', mst', rest') := judge L mst hs b tl in
      let '(nl, nw, m, h) := tally L k mst' hs' rest' in
      (if ln then S nl else nl, if wd then S nw else nw, m, h)
  | _, _ => (O, O, mst, hs)
  end.

(** Lines and words a script of reads adds. *)
Fixpoint tally_reads (L : locale) (mst : mbstate_t L) (hs : bool)
    (rs : list read_ret) : nat * nat :=
  match rs with
  | [] => (O, O)
  | Bytes [] :: _ => (O, O)
  | Bytes l :: rs' =>
      let '(nl, nw, m, h) := tally L (List.length l) mst hs l in
      let '(nl', nw') := tally_reads L m h rs' in
      ((nl + nl')%nat, (nw + nw')%nat)
  | Fail :: rs' => tally_reads L mst hs rs'
  end.

Definition credit (nl nw : nat) (li : lc_info) : lc_info :=
  set_num_words (set_num_lines li (bump nl (num_lines li)))
                (bump nw (num_words li)).

(** The counts of [a] with the totals of [li]. *)
Definition graft (li a : lc_info) : lc_info :=
  mk_info (num_bytes a) (num_lines a) (num_words a)
          (lines_total li) (words_total li) (bytes_total li).

(** ** The mode after [use_opts], and the columns it prints *)

Definition effective (lc : lc_conf) : lc_conf :=
  if negb (opt_lines lc) && negb (opt_words lc) && negb (opt_bytes lc)
  then mk_conf true true true else lc.

(** The counters enabled in [lc], in the order lines, words, bytes, each
    as [%12ju]. *)
Definition columns (lc : lc_conf) (l w b : Z) : string :=
  ((if opt_lines lc then ju12 l else EmptyString)
   ++ (if opt_words lc then ju12 w else EmptyString)
   ++ (if opt_bytes lc then ju12 b else EmptyString))%string.

(** [c] holds the counts of the file named [arg] scanned on its own, from
    a zeroed [li]. *)
Definition alone (L : locale) (open : string -> option fdesc) (lc : lc_conf)
    (arg : string) (c : lc_info) : Prop :=
  bare_dash arg = false /\
  exists f lc' text f',
    open arg = Some f /\ use_opts L li0 lc f = Done (c, lc', text, f').

(** Sum of one field over the files. *)
Definition sum_of (g : lc_info -> Z) (cs : list lc_info) : Z :=
  fold_right (fun c acc => g c + acc) 0 cs.

(** The count line of a file. *)
Definition count_line (lc : lc_conf) (c : lc_info) : string :=
  columns lc (num_lines c) (num_words c) (num_bytes c).

(** What [use_opts] returned, when it returned. *)
Definition result_of (o : outcome (lc_info * lc_conf * string * fdesc))
  : lc_info * lc_conf * string * fdesc :=
  match o with
  | Done r => r
  | _ => (li0, mk_conf false false false, EmptyString, mk_fd None None [] 0)
  end.

(** ** The option loop of main

    [getopt] belongs to the C library: the loop is run on the successive
    values it returns before -1, the option characters, with ['?'] for an
    option that is not in "blwh".  What [getopt] itself prints is left
    out. *)

Definition usage_text : string := ("usage: [-blwh] [file ...]" ++ nl)%string.

(** [usage(status)]: the text goes to standard error for [EXIT_FAILURE] and
    to standard output otherwise; then [exit(status)]. *)
Definition usage (status : Z) : process :=
  if status =? EXIT_FAILURE
  then mk_process EmptyString [usage_text] (Status status) []
  else mk_process usage_text [] (Status status) [].

Fixpoint getopt_loop (lc : lc_conf) (opts : list ascii) : lc_conf + process :=
  match opts with
  | [] => inl lc
  | opt :: opts' =>
      if Ascii.eqb opt "b" then
        getopt_loop (mk_conf true (opt_lines lc) (opt_words lc)) opts'
      else if Ascii.eqb opt "l" then
        getopt_loop (mk_conf (opt_bytes lc) true (opt_words lc)) opts'
      else if Ascii.eqb opt "w" then
        getopt_loop (mk_conf (opt_bytes lc) (opt_lines lc) true) opts'
      else if Ascii.eqb opt "h" then inr (usage 0)
      else inr (usage EXIT_FAILURE)
  end.

(** [main] from its first line: the option loop, then the files. *)
Definition main_argv (L : locale) (open : string -> option fdesc)
    (opts : list ascii) (argv : list string) : process :=
  match getopt_loop (mk_conf false false false) opts with
  | inl lc => main L open lc argv
  | inr p => p
  end.

(** One of the three counter options. *)
Definition counter_opt (a : ascii) : bool :=
  Ascii.eqb a "b" || Ascii.eqb a "l" || Ascii.eqb a "w".

(** A read that did not fail. *)
Definition no_fail (r : read_ret) : bool :=
  match r with
  | Fail => false
  | Bytes _ => true
  end.

(** A read that did not return 0. *)
Definition nonzero (r : read_ret) : bool :=
  match r with
  | Bytes [] => false
  | _ => true
  end.

(** A read that delivered less than the block holds. *)
Definition short (r : read_ret) : bool :=
  match r with
  | Bytes ((_ :: _) as l) => (List.length l <? MAXSIZE)%nat
  | _ => false
  end.

(** A read that did not fail and left a cell of the block free. *)
Definition room (r : read_ret) : bool :=
  match r with
  | Bytes l => (List.length l <? MAXSIZE)%nat
  | Fail => false
  end.

(** The test that sends a byte to the ASCII branch of the word loops. *)
Definition ascii_branch (b : byte) : bool :=
  is_ascii (schar b) && is_print (schar b).

(** An offset inside the block. *)
Definition inside (m : Z) : Prop := 0 <= m < Z.of_nat MAXSIZE.

(** Which routine a mode runs. *)
Definition words_alone (m : lc_conf) : bool :=
  opt_words m && negb (opt_lines m) && negb (opt_bytes m).

Definition bytes_alone (m : lc_conf) : bool :=
  opt_bytes m && negb (opt_lines m) && negb (opt_words m).

Definition lines_without_words (m : lc_conf) : bool :=
  opt_lines m && negb (opt_words m).

(** The block [malloc] hands out, if it does, has [MAXSIZE] cells. *)
Definition block_sized (f : fdesc) : bool :=
  match fd_malloc f with
  | Some cells => (List.length cells =? MAXSIZE)%nat
  | None => true
  end.

(** [fstat] succeeded and declared a size. *)
Definition sized (f : fdesc) : bool :=
  match fd_stat f with
  | Some st => st_isreg st && (0 <? st_size st)
  | None => false
  end.

(** * Properties *)

(** ** Arithmetic of bytes and counters *)

Lemma uchar_range (b : byte) : 0 <= uchar b < 256.
Proof.
  unfold uchar. pose proof (Byte.to_N_bounded b) as H.
  split; [apply N2Z.is_nonneg|].
  apply N2Z.inj_le in H. change (Z.of_N 255) with 255 in H. lia.
Qed.

Lemma uintmax_wrapped (v : Z) : wrapped (uintmax v).
Proof. unfold wrapped, uintmax. apply Z.mod_pos_bound. reflexivity. Qed.

Lemma uintmax_id (v : Z) : wrapped v -> uintmax v = v.
Proof. unfold wrapped, uintmax. intros H. apply Z.mod_small. exact H. Qed.

Lemma uintmax_add_l (a b : Z) : uintmax (uintmax a + b) = uintmax (a + b).
Proof. unfold uintmax. apply Zplus_mod_idemp_l. Qed.

Lemma uintmax_add_r (a b : Z) : uintmax (a + uintmax b) = uintmax (a + b).
Proof. unfold uintmax. apply Zplus_mod_idemp_r. Qed.

Lemma bump_S (k : nat) (v : Z) : bump (S k) v = bump k (uintmax (v + 1)).
Proof. unfold bump. rewrite Nat.iter_succ_r. reflexivity. Qed.

Lemma bump_add (j k : nat) (v : Z) : bump (j + k) v = bump k (bump j v).
Proof.
  revert v. induction j as [|j IH]; intros v; [reflexivity|].
  change (S j + k)%nat with (S (j + k)). rewrite !bump_S. apply IH.
Qed.

Lemma bump_wrapped (k : nat) (v : Z) : wrapped v -> wrapped (bump k v).
Proof.
  intros H. destruct k; [exact H|]. unfold bump. simpl. apply uintmax_wrapped.
Qed.

Lemma bump_uintmax (k : nat) (v : Z) :
  wrapped v -> bump k v = uintmax (v + Z.of_nat k).
Proof.
  revert v. induction k as [|k IH]; intros v H.
  - simpl. rewrite Z.add_0_r. symmetry. apply uintmax_id. exact H.
  - rewrite bump_S, IH by apply uintmax_wrapped.
    rewrite uintmax_add_l. f_equal. lia.
Qed.

Lemma bump_small (k : nat) (v : Z) :
  0 <= v -> v + Z.of_nat k < 2 ^ 64 -> bump k v = v + Z.of_nat k.
Proof.
  intros H0 H1. rewrite bump_uintmax by (unfold wrapped; lia).
  apply uintmax_id. unfold wrapped. lia.
Qed.

(** ** The classification macros *)

Lemma fast_path (b : byte) :
  is_ascii (schar b) && is_print (schar b)
  = (32 <=? uchar b) && (uchar b <? 127).
Proof. destruct b; reflexivity. Qed.

Lemma fast_space (b : byte) :
  is_ascii (schar b) && is_print (schar b) = true ->
  is_space (schar b) = white b /\ (schar b =? 10) = false /\ is_nl b = false.
Proof. destruct b; vm_compute; intros H; try discriminate H; repeat split. Qed.

Lemma schar_nl (b : byte) : (schar b =? 10) = is_nl b.
Proof. destruct b; reflexivity. Qed.

Lemma white_high (b : byte) : 128 <= uchar b -> white b = false.
Proof.
  intros H. unfold white, isspace_C.
  destruct (Z.eqb_spec (uchar b) 32); [lia|].
  destruct (Z.leb_spec (uchar b) 13); [lia|].
  rewrite andb_false_r. reflexivity.
Qed.

Lemma is_nl_high (b : byte) : 128 <= uchar b -> is_nl b = false.
Proof. intros H. unfold is_nl. apply Z.eqb_neq. lia. Qed.

(** ** The fuel of the block loops

    In any locale a step consumes at least one byte, so the length of the
    block is fuel enough: more fuel changes nothing. *)

Lemma wlen_pos (r : mb_ret) : (1 <= wlen_of r)%nat.
Proof. destruct r; cbn; lia. Qed.

Lemma all_step_shrinks (L : locale) (c : cursor L) (b : byte) (tl : list byte) :
  (List.length (snd (all_step L c b tl)) <= List.length tl)%nat.
Proof.
  unfold all_step.
  destruct (is_ascii (schar b) && is_print (schar b)); [apply Nat.le_refl|].
  destruct (mbrtowc L (c_mst c) (b :: tl)) as [r mst']. cbn [snd].
  rewrite length_skipn. pose proof (wlen_pos r). cbn [List.length]. lia.
Qed.

Lemma words_step_shrinks (L : locale) (c : cursor L) (b : byte)
    (tl : list byte) :
  (List.length (snd (words_step L c b tl)) <= List.length tl)%nat.
Proof.
  unfold words_step.
  destruct (is_ascii (schar b) && is_print (schar b)); [apply Nat.le_refl|].
  destruct (mbrtowc L (c_mst c) (b :: tl)) as [r mst']. cbn [snd].
  rewrite length_skipn. pose proof (wlen_pos r). cbn [List.length]. lia.
Qed.

Lemma all_block_fuel (L : locale) (n : nat) :
  forall (l : list byte) (c : cursor L) (k1 k2 : nat),
    (List.length l <= n)%nat -> (n <= k1)%nat -> (n <= k2)%nat ->
    all_block L k1 c l = all_block L k2 c l.
Proof.
  induction n as [|n IH]; intros l c k1 k2 Hl H1 H2.
  - destruct l; [|simpl in Hl; lia]. destruct k1, k2; reflexivity.
  - destruct l as [|b tl]; [destruct k1, k2; reflexivity|].
    destruct k1 as [|k1]; [lia|]. destruct k2 as [|k2]; [lia|].
    cbn [all_block].
    pose proof (all_step_shrinks L c b tl) as S.
    destruct (all_step L c b tl) as [c' rest]. cbn [snd] in S.
    apply IH; simpl in Hl; lia.
Qed.

Lemma words_block_fuel (L : locale) (n : nat) :
  forall (l : list byte) (c : cursor L) (k1 k2 : nat),
    (List.length l <= n)%nat -> (n <= k1)%nat -> (n <= k2)%nat ->
    words_block L k1 c l = words_block L k2 c l.
Proof.
  induction n as [|n IH]; intros l c k1 k2 Hl H1 H2.
  - destruct l; [|simpl in Hl; lia]. destruct k1, k2; reflexivity.
  - destruct l as [|b tl]; [destruct k1, k2; reflexivity|].
    destruct k1 as [|k1]; [lia|]. destruct k2 as [|k2]; [lia|].
    cbn [words_block].
    pose proof (words_step_shrinks L c b tl) as S.
    destruct (words_step L c b tl) as [c' rest]. cbn [snd] in S.
    apply IH; simpl in Hl; lia.
Qed.

(** ** The decoder in the C locale *)

Section CLocale.

Variable L : locale.
Hypothesis HL : c_locale L.

(** Whatever the shift state and the bytes that follow, one byte is
    consumed and [pwc] ends up classified as the byte itself. *)
Lemma decode_C (st : mbstate_t L) (b : byte) (tl : list byte) :
  let r := fst (mbrtowc L st (b :: tl)) in
  wlen_of r = 1%nat /\
  iswspace L (pwc_of r (uchar b)) = white b /\
  (pwc_of r (uchar b) =? 10) = is_nl b.
Proof.
  pose proof (uchar_range b) as Hb. cbv zeta.
  destruct (Z.eq_dec (uchar b) 0) as [H0|H0].
  - rewrite (cl_nul L HL st b tl H0). simpl.
    rewrite (cl_space L HL 0) by lia.
    unfold white, is_nl. rewrite H0. repeat split; reflexivity.
  - destruct (Z_lt_le_dec (uchar b) 128) as [Hlo|Hhi].
    + rewrite (cl_low L HL st b tl) by lia. simpl.
      rewrite (cl_space L HL (uchar b)) by lia. repeat split; reflexivity.
    + rewrite (white_high b Hhi), (is_nl_high b Hhi).
      destruct (cl_high L HL st b tl Hhi) as [E|[wc [E [Hw Hn]]]];
        rewrite E; simpl.
      * rewrite (cl_space L HL (uchar b)) by lia.
        fold (white b). rewrite (white_high b Hhi).
        repeat split. apply Z.eqb_neq. lia.
      * repeat split; [exact Hw|]. apply Z.eqb_neq. exact Hn.
Qed.

Lemma all_step_C (c : cursor L) (b : byte) (tl : list byte) :
  let r := all_step L c b tl in
  snd r = tl /\
  (c_li (fst r), c_have_space (fst r))
  = byte_step true (c_li c, c_have_space c) b.
Proof.
  cbv zeta. unfold all_step, byte_step. cbn [fst snd andb].
  destruct (is_ascii (schar b) && is_print (schar b)) eqn:Hfast.
  - destruct (fast_space b Hfast) as [Hs [Hn Hl]].
    rewrite Hs, Hn, Hl. cbn [fst snd].
    split; [reflexivity|].
    destruct (white b); [reflexivity|].
    destruct (c_have_space c) eqn:Hhs; cbn [c_li c_have_space];
      rewrite ?Hhs; reflexivity.
  - pose proof (decode_C (c_mst c) b tl) as D. cbv zeta in D.
    destruct (mbrtowc L (c_mst c) (b :: tl)) as [r mst'].
    cbn [fst] in D. destruct D as [Hw [Hs Hn]].
    rewrite Hw, Hs, Hn. cbn [fst snd skipn].
    split; [reflexivity|].
    destruct (white b); [reflexivity|].
    destruct (c_have_space c) eqn:Hhs; cbn [c_li c_have_space];
      rewrite ?Hhs; reflexivity.
Qed.

Lemma words_step_C (c : cursor L) (b : byte) (tl : list byte) :
  let r := words_step L c b tl in
  snd r = tl /\
  (c_li (fst r), c_have_space (fst r))
  = byte_step false (c_li c, c_have_space c) b.
Proof.
  cbv zeta. unfold words_step, byte_step. cbn [fst snd andb].
  destruct (is_ascii (schar b) && is_print (schar b)) eqn:Hfast.
  - destruct (fast_space b Hfast) as [Hs _].
    rewrite Hs. cbn [fst snd].
    split; [reflexivity|].
    destruct (white b); [reflexivity|].
    destruct (c_have_space c) eqn:Hhs; cbn [c_li c_have_space];
      rewrite ?Hhs; reflexivity.
  - pose proof (decode_C (c_mst c) b tl) as D. cbv zeta in D.
    destruct (mbrtowc L (c_mst c) (b :: tl)) as [r mst'].
    cbn [fst] in D. destruct D as [Hw [Hs _]].
    rewrite Hw, Hs. cbn [fst snd skipn].
    split; [reflexivity|].
    destruct (white b); [reflexivity|].
    destruct (c_have_space c) eqn:Hhs; cbn [c_li c_have_space];
      rewrite ?Hhs; reflexivity.
Qed.

(** A block is walked byte by byte, whatever fuel beyond its length. *)
Lemma all_block_C (l : list byte) :
  forall (fuel : nat) (c : cursor L),
    (List.length l <= fuel)%nat ->
    let c' := all_block L fuel c l in
    (c_li c', c_have_space c')
    = fold_left (byte_step true) l (c_li c, c_have_space c).
Proof.
  induction l as [|b tl IH]; intros fuel c Hf; cbv zeta.
  - destruct fuel; reflexivity.
  - destruct fuel as [|k]; [simpl in Hf; lia|].
    cbn [all_block fold_left].
    pose proof (all_step_C c b tl) as S. cbv zeta in S.
    destruct (all_step L c b tl) as [c1 rest]. cbn [fst snd] in S.
    destruct S as [-> E]. rewrite <- E.
    apply IH. simpl in Hf. lia.
Qed.

Lemma words_block_C (l : list byte) :
  forall (fuel : nat) (c : cursor L),
    (List.length l <= fuel)%nat ->
    let c' := words_block L fuel c l in
    (c_li c', c_have_space c')
    = fold_left (byte_step false) l (c_li c, c_have_space c).
Proof.
  induction l as [|b tl IH]; intros fuel c Hf; cbv zeta.
  - destruct fuel; reflexivity.
  - destruct fuel as [|k]; [simpl in Hf; lia|].
    cbn [words_block fold_left].
    pose proof (words_step_C c b tl) as S. cbv zeta in S.
    destruct (words_step L c b tl) as [c1 rest]. cbn [fst snd] in S.
    destruct S as [-> E]. rewrite <- E.
    apply IH. simpl in Hf. lia.
Qed.

End CLocale.

(** ** Counting along a stream *)

Lemma byte_step_frame (f : bool) (s : lc_info * bool) (b : byte) :
  let s' := byte_step f s b in
  num_bytes (fst s') = num_bytes (fst s) /\
  lines_total (fst s') = lines_total (fst s) /\
  words_total (fst s') = words_total (fst s) /\
  bytes_total (fst s') = bytes_total (fst s).
Proof.
  cbv zeta. unfold byte_step.
  destruct (f && is_nl b), (white b), (snd s); simpl; repeat split.
Qed.

Lemma fold_frame (f : bool) (l : list byte) :
  forall s,
    let s' := fold_left (byte_step f) l s in
    num_bytes (fst s') = num_bytes (fst s) /\
    lines_total (fst s') = lines_total (fst s) /\
    words_total (fst s') = words_total (fst s) /\
    bytes_total (fst s') = bytes_total (fst s).
Proof.
  induction l as [|b t IH]; intros s; cbv zeta; [repeat split|].
  cbn [fold_left].
  destruct (IH (byte_step f s b)) as [A [B [C D]]].
  destruct (byte_step_frame f s b) as [A' [B' [C' D']]].
  repeat split; congruence.
Qed.

Lemma fold_lines (l : list byte) :
  forall s,
    num_lines (fst (fold_left (byte_step true) l s))
    = bump (newlines l) (num_lines (fst s)).
Proof.
  induction l as [|b t IH]; intros s; [reflexivity|].
  cbn [fold_left]. rewrite IH. unfold newlines. cbn [filter].
  unfold byte_step. cbn [andb].
  destruct (is_nl b); cbn [List.length].
  - rewrite bump_S. destruct (white b), (snd s); reflexivity.
  - destruct (white b), (snd s); reflexivity.
Qed.

Lemma fold_no_lines (l : list byte) :
  forall s,
    num_lines (fst (fold_left (byte_step false) l s)) = num_lines (fst s).
Proof.
  induction l as [|b t IH]; intros s; [reflexivity|].
  cbn [fold_left]. rewrite IH. unfold byte_step. cbn [andb].
  destruct (white b), (snd s); reflexivity.
Qed.

Lemma fold_words (f : bool) (l : list byte) :
  forall s,
    num_words (fst (fold_left (byte_step f) l s))
    = bump (word_starts (snd s) l) (num_words (fst s)).
Proof.
  induction l as [|b t IH]; intros s; [reflexivity|].
  cbn [fold_left word_starts]. rewrite IH. unfold byte_step.
  destruct (white b); cbn [fst snd].
  - destruct (f && is_nl b); reflexivity.
  - destruct (snd s); cbn [fst snd].
    + rewrite bump_S. destruct (f && is_nl b); reflexivity.
    + destruct (f && is_nl b); reflexivity.
Qed.

Lemma runs_starts (l : list byte) :
  forall cur,
    List.length (maximal_runs white cur l)
    = (match cur with [] => 0 | _ => 1 end
       + word_starts (match cur with [] => true | _ => false end) l)%nat.
Proof.
  induction l as [|b t IH]; intros cur.
  - destruct cur; reflexivity.
  - cbn [maximal_runs word_starts]. destruct (white b).
    + destruct cur; cbn [List.length]; rewrite (IH []); reflexivity.
    + rewrite (IH (b :: cur)). destruct cur; reflexivity.
Qed.

Lemma words_of_starts (l : list byte) :
  List.length (words_of l) = word_starts true l.
Proof. unfold words_of. rewrite runs_starts. reflexivity. Qed.

Lemma seg_starts (l : list byte) :
  forall s,
    snd (fold_left seg_step l s)
    = (snd s + word_starts (match fst s with IN_SPACE => true
                                         | IN_WORD => false end) l)%nat.
Proof.
  induction l as [|b t IH]; intros s.
  - simpl. lia.
  - cbn [fold_left word_starts]. rewrite IH. unfold seg_step.
    destruct (white b); cbn [fst snd]; [reflexivity|].
    destruct (fst s); cbn [fst snd]; lia.
Qed.

Lemma transitions_starts (l : list byte) : transitions l = word_starts true l.
Proof. unfold transitions. rewrite seg_starts. reflexivity. Qed.

Lemma word_starts_le (l : list byte) :
  forall hs, (word_starts hs l <= List.length l)%nat.
Proof.
  induction l as [|b t IH]; intros hs; [apply Nat.le_refl|].
  cbn [word_starts List.length].
  destruct (white b); [specialize (IH true); lia|].
  destruct hs; specialize (IH false); lia.
Qed.

Lemma word_starts_tail (l tail : list byte) :
  forallb white tail = true ->
  forall hs, word_starts hs (l ++ tail) = word_starts hs l.
Proof.
  intros Ht. induction l as [|b t IH]; intros hs.
  - cbn [app]. revert hs. induction tail as [|x tl IHt]; intros hs;
      [reflexivity|].
    cbn [forallb] in Ht. apply andb_prop in Ht. destruct Ht as [Hx Htl].
    cbn [word_starts]. rewrite Hx. apply IHt. exact Htl.
  - cbn [app word_starts]. destruct (white b); [apply IH|].
    destruct hs; rewrite IH; reflexivity.
Qed.

Lemma newlines_le (l : list byte) : (newlines l <= List.length l)%nat.
Proof. apply filter_length_le. Qed.

Lemma newlines_app (a b : list byte) :
  newlines (a ++ b) = (newlines a + newlines b)%nat.
Proof. unfold newlines. rewrite filter_app, length_app. reflexivity. Qed.

Lemma sum_reads_stream (rs : list read_ret) :
  sum_reads rs = Z.of_nat (List.length (stream rs)).
Proof.
  induction rs as [|r rs IH]; [reflexivity|].
  cbn [sum_reads stream fold_right flat_map].
  fold (sum_reads rs). fold (stream rs).
  rewrite length_app, IH. lia.
Qed.

(** ** The read loops on reads that all deliver *)

Lemma all_reads_clean (L : locale) (HL : c_locale L) (rs : list read_ret) :
  forall (c : cursor L) (sum : Z),
    forallb delivers rs = true ->
    wrapped sum ->
    exists c',
      all_reads L c sum rs
      = (c', uintmax (sum + Z.of_nat (List.length (stream rs))), []) /\
      (c_li c', c_have_space c')
      = fold_left (byte_step true) (stream rs) (c_li c, c_have_space c).
Proof.
  induction rs as [|r rs IH]; intros c sum Hd Hw.
  - exists c. cbn. rewrite Z.add_0_r, uintmax_id by exact Hw. split; reflexivity.
  - cbn [forallb] in Hd. apply andb_prop in Hd. destruct Hd as [Hr Hrs].
    destruct r as [[|b t]|]; try discriminate Hr.
    cbn [all_reads ret_value].
    destruct (IH (all_block L (List.length (b :: t)) c (b :: t))
                 (uintmax (sum + uintmax (Z.of_nat (List.length (b :: t)))))
                 Hrs (uintmax_wrapped _)) as [c' [E O]].
    exists c'. split.
    + rewrite E. f_equal. f_equal.
      rewrite uintmax_add_r, uintmax_add_l.
      cbn [stream flat_map]. fold (stream rs). rewrite length_app.
      f_equal. lia.
    + rewrite O. cbn [stream flat_map]. fold (stream rs).
      rewrite fold_left_app. f_equal.
      apply (all_block_C L HL). apply Nat.le_refl.
Qed.

Lemma words_reads_clean (L : locale) (HL : c_locale L) (rs : list read_ret) :
  forall (c : cursor L),
    forallb delivers rs = true ->
    exists c',
      words_reads L c rs = (c', []) /\
      (c_li c', c_have_space c')
      = fold_left (byte_step false) (stream rs) (c_li c, c_have_space c).
Proof.
  induction rs as [|r rs IH]; intros c Hd.
  - exists c. split; reflexivity.
  - cbn [forallb] in Hd. apply andb_prop in Hd. destruct Hd as [Hr Hrs].
    destruct r as [[|b t]|]; try discriminate Hr.
    cbn [words_reads].
    destruct (IH (words_block L (List.length (b :: t)) c (b :: t)) Hrs)
      as [c' [E O]].
    exists c'. split; [exact E|].
    rewrite O. cbn [stream flat_map]. fold (stream rs).
    rewrite fold_left_app. f_equal.
    apply (words_block_C L HL). apply Nat.le_refl.
Qed.

Lemma bytes_reads_clean (rs : list read_ret) :
  forall n,
    forallb delivers rs = true ->
    wrapped n ->
    bytes_reads n rs = (uintmax (n + Z.of_nat (List.length (stream rs))), []).
Proof.
  induction rs as [|r rs IH]; intros n Hd Hw.
  - cbn. rewrite Z.add_0_r, uintmax_id by exact Hw. reflexivity.
  - cbn [forallb] in Hd. apply andb_prop in Hd. destruct Hd as [Hr Hrs].
    destruct r as [[|b t]|]; try discriminate Hr.
    cbn [bytes_reads ret_value].
    rewrite IH by (exact Hrs || apply uintmax_wrapped).
    rewrite uintmax_add_r, uintmax_add_l.
    cbn [stream flat_map]. fold (stream rs). rewrite length_app.
    f_equal. f_equal. lia.
Qed.

(** ** The sentinel search against the bytewise loop *)

Lemma bytewise_app (a b : list byte) :
  forall li, bytewise (a ++ b) li = bytewise b (bytewise a li).
Proof. induction a as [|x a IH]; intros li; [reflexivity|]. apply IH. Qed.

Lemma bytewise_lines (l : list byte) :
  forall li,
    bytewise l li = set_num_lines li (bump (newlines l) (num_lines li)).
Proof.
  induction l as [|b t IH]; intros li.
  - destruct li; reflexivity.
  - cbn [bytewise]. rewrite IH, schar_nl. unfold newlines. cbn [filter].
    destruct (is_nl b); cbn [List.length]; [|reflexivity].
    rewrite bump_S. destruct li; reflexivity.
Qed.

Lemma poke_app (l r : list byte) (v : byte) :
  poke (l ++ r) (List.length l) v = l ++ poke r 0 v.
Proof.
  induction l as [|x l IH]; [destruct r; reflexivity|].
  cbn [app List.length poke]. rewrite IH. reflexivity.
Qed.

Lemma fill_length (buf l : list byte) :
  (List.length l <= List.length buf)%nat ->
  List.length (fill buf l) = List.length buf.
Proof.
  intros H. unfold fill. rewrite length_app, length_skipn. lia.
Qed.

(** The store of the sentinel after a read: it lands in the cell after the
    bytes delivered when the read left one free, and has no cell to go to
    when the read filled the block. *)
Lemma store_fill (buf l : list byte) :
  store_nl (fill buf l) (Z.of_nat (List.length l))
  = if (List.length l <? List.length buf)%nat
    then Some (l ++ NL :: skipn (S (List.length l)) buf)
    else None.
Proof.
  unfold store_nl, fill. rewrite length_app, length_skipn.
  destruct (Nat.ltb_spec (List.length l) (List.length buf)) as [H|H].
  - destruct (Z.leb_spec 0 (Z.of_nat (List.length l))); [|lia].
    destruct (Z.ltb_spec (Z.of_nat (List.length l))
                (Z.of_nat (List.length l + (List.length buf - List.length l))));
      [|lia].
    cbn [andb]. rewrite Nat2Z.id, poke_app. f_equal. f_equal.
    change (S (List.length l)) with (1 + List.length l)%nat.
    rewrite <- skipn_skipn.
    destruct (skipn (List.length l) buf) as [|x t] eqn:E; [|reflexivity].
    apply (f_equal (@List.length byte)) in E.
    rewrite length_skipn in E. simpl in E. lia.
  - destruct (Z.ltb_spec (Z.of_nat (List.length l))
                (Z.of_nat (List.length l + (List.length buf - List.length l))));
      [lia|].
    rewrite andb_false_r. reflexivity.
Qed.

Lemma room_length (buf l : list byte) :
  (List.length l < List.length buf)%nat ->
  List.length (l ++ NL :: skipn (S (List.length l)) buf) = List.length buf.
Proof.
  intros H. rewrite length_app. cbn [List.length]. rewrite length_skipn. lia.
Qed.

(** A cell that is not a newline is passed over by the search. *)
Lemma long_scan_skip (fuel : nat) (a : list byte) (x : byte) (r : list byte)
    (last : Z) (li : lc_info) :
  is_nl x = false ->
  long_scan fuel (a ++ x :: r) (Z.of_nat (List.length a)) last li
  = long_scan fuel (a ++ x :: r) (Z.of_nat (List.length a) + 1) last li.
Proof.
  intros Hx. destruct fuel as [|k]; [reflexivity|].
  cbn [long_scan].
  replace (Z.to_nat (Z.of_nat (List.length a) + 1)) with (S (List.length a))
    by lia.
  rewrite Nat2Z.id.
  replace (skipn (S (List.length a)) (a ++ x :: r)) with r.
  2:{ change (x :: r) with ([x] ++ r). rewrite app_assoc.
      replace (S (List.length a)) with (List.length (a ++ [x]))
        by (rewrite length_app; simpl; lia).
      rewrite skipn_app, skipn_all, Nat.sub_diag. reflexivity. }
  rewrite skipn_app, skipn_all, Nat.sub_diag. cbn [app skipn memchr].
  unfold is_nl in Hx. rewrite Hx.
  destruct (memchr r 10) as [d|]; cbn [option_map]; [|reflexivity].
  replace (Z.of_nat (List.length a) + Z.of_nat (S d))
    with (Z.of_nat (List.length a) + 1 + Z.of_nat d) by lia.
  reflexivity.
Qed.

(** From any offset inside the delivered bytes the search, stopped by the
    sentinel behind them, counts what the bytewise loop counts on the bytes
    from that offset on. *)
Lemma long_scan_from (l2 : list byte) :
  forall (l1 rest : list byte) (fuel : nat) (li : lc_info),
    (List.length l2 < fuel)%nat ->
    long_scan fuel (l1 ++ l2 ++ NL :: rest) (Z.of_nat (List.length l1))
              (Z.of_nat (List.length l1 + List.length l2)) li
    = Some (bytewise l2 li).
Proof.
  induction l2 as [|x t IH]; intros l1 rest fuel li Hf.
  - destruct fuel as [|k]; [inversion Hf|].
    cbn [long_scan bytewise app]. rewrite Nat2Z.id.
    rewrite skipn_app, skipn_all, Nat.sub_diag. cbn [app skipn memchr].
    change (uchar NL =? 10) with true. cbv iota.
    destruct (Z.ltb_spec (Z.of_nat (List.length l1) + Z.of_nat 0)
                         (Z.of_nat (List.length l1 + List.length (@nil byte))));
      [simpl in *; lia|reflexivity].
  - cbn [bytewise]. rewrite schar_nl. cbn [app].
    destruct (is_nl x) eqn:Hx.
    + destruct fuel as [|k]; [inversion Hf|].
      cbn [long_scan]. rewrite Nat2Z.id.
      rewrite skipn_app, skipn_all, Nat.sub_diag. cbn [app skipn memchr].
      unfold is_nl in Hx. rewrite Hx.
      destruct (Z.ltb_spec (Z.of_nat (List.length l1) + Z.of_nat 0)
                  (Z.of_nat (List.length l1 + List.length (x :: t))));
        [|simpl in *; lia].
      specialize (IH (l1 ++ [x]) rest k (incr_lines li)).
      rewrite <- app_assoc in IH. cbn [app] in IH.
      rewrite length_app in IH. cbn [List.length] in IH.
      replace (Z.of_nat (List.length l1) + Z.of_nat 0 + 1)
        with (Z.of_nat (List.length l1 + 1)) by lia.
      cbn [List.length].
      replace (List.length l1 + S (List.length t))%nat
        with (List.length l1 + 1 + List.length t)%nat by lia.
      apply IH. simpl in Hf. lia.
    + rewrite long_scan_skip by exact Hx.
      specialize (IH (l1 ++ [x]) rest fuel li).
      rewrite <- app_assoc in IH. cbn [app] in IH.
      rewrite length_app in IH. cbn [List.length] in IH.
      replace (Z.of_nat (List.length l1) + 1)
        with (Z.of_nat (List.length l1 + 1)) by lia.
      cbn [List.length].
      replace (List.length l1 + S (List.length t))%nat
        with (List.length l1 + 1 + List.length t)%nat by lia.
      apply IH. simpl in Hf. lia.
Qed.

(** The fuel of the search: more than [last - p] turns are never used. *)
Lemma long_scan_fuel (fuel : nat) :
  forall (fuel' : nat) (buf : list byte) (p last : Z) (li : lc_info),
    0 <= p ->
    (Z.to_nat (last - p) < fuel)%nat ->
    (Z.to_nat (last - p) < fuel')%nat ->
    long_scan fuel buf p last li = long_scan fuel' buf p last li.
Proof.
  induction fuel as [|k IH]; intros fuel' buf p last li Hp Hf Hf';
    [inversion Hf|].
  destruct fuel' as [|k']; [inversion Hf'|].
  cbn [long_scan].
  destruct (memchr (skipn (Z.to_nat p) buf) 10) as [d|]; [|reflexivity].
  destruct (Z.ltb_spec (p + Z.of_nat d) last); [|reflexivity].
  apply IH; lia.
Qed.

(** One block: the promoted branch counts what the bytewise loop counts
    when the read left a cell for the sentinel, and leaves the block when
    it did not. *)
Lemma sentinel_scan_fill (buf l : list byte) (li : lc_info) :
  sentinel_scan (fill buf l) (Z.of_nat (List.length l)) li
  = if (List.length l <? List.length buf)%nat
    then Some (bytewise l li, l ++ NL :: skipn (S (List.length l)) buf)
    else None.
Proof.
  unfold sentinel_scan. rewrite store_fill.
  destruct (List.length l <? List.length buf)%nat; [|reflexivity].
  rewrite Nat2Z.id.
  pose proof (long_scan_from l [] (skipn (S (List.length l)) buf)
                (S (List.length l)) li (Nat.lt_succ_diag_r _)) as H.
  cbn [app List.length Nat.add] in H. change (Z.of_nat 0) with 0 in H.
  rewrite H. reflexivity.
Qed.

(** After a read that returned -1 the sentinel has no cell to go to. *)
Lemma sentinel_scan_fail (buf : list byte) (li : lc_info) :
  sentinel_scan buf (-1) li = None.
Proof. reflexivity. Qed.

(** One turn of the read loop. *)
Lemma lb_reads_bytes (li : lc_info) (sum : Z) (el : bool) (buf : list byte)
    (marks : list Z) (b : byte) (t : list byte) (rs : list read_ret) :
  lb_reads (mk_lb li sum el buf marks) (Bytes (b :: t) :: rs)
  = if el then
      match sentinel_scan (fill buf (b :: t))
                          (Z.of_nat (List.length (b :: t))) li with
      | Some (li', buf') =>
          lb_reads
            (mk_lb li'
                   (uintmax (sum + uintmax (Z.of_nat (List.length (b :: t)))))
                   true buf' (Z.of_nat (List.length (b :: t)) :: marks))
            rs
      | None => Wild
      end
    else
      lb_reads
        (mk_lb (bytewise (b :: t) li)
               (uintmax (sum + uintmax (Z.of_nat (List.length (b :: t)))))
               (uintmax (Z.of_nat (List.length (b :: t)) * 6) <=? num_lines li)
               (fill buf (b :: t)) marks)
        rs.
Proof. reflexivity. Qed.

Lemma lb_reads_fail (s : lb_state) (rs : list read_ret) :
  lb_reads s (Fail :: rs) = Wild.
Proof.
  cbn [lb_reads ret_value]. rewrite sentinel_scan_fail.
  destruct (lb_expect_long s); reflexivity.
Qed.

Lemma short_delivers (rs : list read_ret) :
  forallb short rs = true -> forallb delivers rs = true.
Proof.
  induction rs as [|r rs IH]; [reflexivity|].
  cbn [forallb]. intros H. apply andb_prop in H. destruct H as [Hr Hrs].
  rewrite (IH Hrs). destruct r as [[|b t]|]; try discriminate Hr. reflexivity.
Qed.

(** On reads that all deliver the loop either leaves the block or runs to
    the end of the reads with the lines of the bytewise scan of the whole
    stream. *)
Lemma lb_reads_sound (rs : list read_ret) :
  forall s,
    forallb delivers rs = true ->
    wrapped (lb_sum s) ->
    lb_reads s rs = Wild \/
    exists s',
      lb_reads s rs = Done (s', []) /\
      lb_li s' = bytewise (stream rs) (lb_li s) /\
      lb_sum s' = uintmax (lb_sum s + Z.of_nat (List.length (stream rs))).
Proof.
  induction rs as [|r rs IH]; intros [li sum el buf marks] Hd Hw;
    cbn [lb_li lb_sum] in *.
  - right. eexists. split; [reflexivity|]. cbn [lb_li lb_sum stream flat_map].
    rewrite Z.add_0_r, uintmax_id by exact Hw. split; reflexivity.
  - cbn [forallb] in Hd. apply andb_prop in Hd. destruct Hd as [Hr Hrs].
    destruct r as [[|b t]|]; try discriminate Hr.
    rewrite lb_reads_bytes.
    cbn [stream flat_map]. fold (stream rs).
    rewrite bytewise_app, length_app.
    assert (S' : forall x,
               uintmax (uintmax (sum + uintmax (Z.of_nat (List.length (b :: t))))
                        + Z.of_nat x)
               = uintmax (sum + Z.of_nat (List.length (b :: t) + x))).
    { intros x. rewrite uintmax_add_r, uintmax_add_l. f_equal. lia. }
    destruct el.
    + rewrite sentinel_scan_fill.
      destruct (List.length (b :: t) <? List.length buf)%nat; [|left; reflexivity].
      match goal with
      | |- context [lb_reads ?s1 rs] =>
          destruct (IH s1 Hrs (uintmax_wrapped _)) as [E|[s' [E [A B]]]]
      end; [left; exact E|].
      right. exists s'. split; [exact E|]. split; [exact A|].
      rewrite B. cbn [lb_sum]. apply S'.
    + match goal with
      | |- context [lb_reads ?s1 rs] =>
          destruct (IH s1 Hrs (uintmax_wrapped _)) as [E|[s' [E [A B]]]]
      end; [left; exact E|].
      right. exists s'. split; [exact E|]. split; [exact A|].
      rewrite B. cbn [lb_sum]. apply S'.
Qed.

(** On reads that each leave a cell of a [MAXSIZE] block free the loop
    runs to the end of the reads, and every sentinel is stored in the
    block. *)
Lemma lb_reads_room (rs : list read_ret) :
  forall s : lb_state,
    forallb short rs = true ->
    List.length (lb_buf s) = MAXSIZE ->
    exists t,
      lb_reads s rs = Done (t, []) /\
      List.length (lb_buf t) = MAXSIZE /\
      (Forall inside (lb_marks s) -> Forall inside (lb_marks t)).
Proof.
  induction rs as [|r rs IH]; intros [li sum el buf marks] Hs Hb;
    cbn [lb_buf lb_marks] in *.
  - eexists. split; [reflexivity|]. split; [exact Hb|]. intros H; exact H.
  - cbn [forallb] in Hs. apply andb_prop in Hs. destruct Hs as [Hr Hrs].
    destruct r as [[|b t]|]; try discriminate Hr.
    cbn [short] in Hr.
    rewrite lb_reads_bytes.
    assert (Hlt : (List.length (b :: t) < List.length buf)%nat).
    { rewrite Hb. apply Nat.ltb_lt. exact Hr. }
    destruct el.
    + rewrite sentinel_scan_fill.
      rewrite (proj2 (Nat.ltb_lt _ _) Hlt).
      match goal with
      | |- context [lb_reads ?s1 rs] =>
          destruct (IH s1 Hrs) as [t' [E [B M]]]
      end.
      { cbn [lb_buf]. rewrite room_length by exact Hlt. exact Hb. }
      exists t'. split; [exact E|]. split; [exact B|].
      intros Hm. apply M. cbn [lb_marks].
      constructor; [|exact Hm]. unfold inside.
      split; [apply Nat2Z.is_nonneg|].
      apply Nat2Z.inj_lt. apply Nat.ltb_lt. exact Hr.
    + match goal with
      | |- context [lb_reads ?s1 rs] =>
          destruct (IH s1 Hrs) as [t' [E [B M]]]
      end.
      { cbn [lb_buf]. rewrite fill_length; [exact Hb|].
        apply Nat.lt_le_incl. exact Hlt. }
      exists t'. split; [exact E|]. split; [exact B|exact M].
Qed.

Lemma lb_reads_clean (rs : list read_ret) :
  forall s,
    forallb short rs = true ->
    List.length (lb_buf s) = MAXSIZE ->
    wrapped (lb_sum s) ->
    exists s',
      lb_reads s rs = Done (s', []) /\
      lb_li s' = bytewise (stream rs) (lb_li s) /\
      lb_sum s' = uintmax (lb_sum s + Z.of_nat (List.length (stream rs))).
Proof.
  intros s Hs Hb Hw.
  destruct (lb_reads_room rs s Hs Hb) as [t [E _]].
  destruct (lb_reads_sound rs s (short_delivers rs Hs) Hw)
    as [W|[s' [E' [A B]]]].
  - rewrite W in E. discriminate E.
  - exists s'. repeat split; assumption.
Qed.

(** ** The four routines on reads that all deliver *)

Lemma wrapped_0 : wrapped 0.
Proof. unfold wrapped. lia. Qed.

Lemma count_all_clean (L : locale) (HL : c_locale L) (li : lc_info)
    (st : stat_t) (cells : list byte) (rs : list read_ret) (k : nat) :
  forallb delivers rs = true ->
  count_all L li (mk_fd (Some st) (Some cells) rs k)
  = Done (all_result li st (stream rs), mk_fd (Some st) (Some cells) [] k).
Proof.
  intros Hd. unfold count_all, all_result. cbn [fd_stat fd_malloc fd_reads].
  match goal with
  | |- context [all_reads L ?c 0 rs] =>
      destruct (all_reads_clean L HL rs c 0 Hd wrapped_0) as [c' [E O]];
      rewrite E
  end.
  cbn [c_li c_have_space] in O. rewrite <- O. reflexivity.
Qed.

Lemma count_words_clean (L : locale) (HL : c_locale L) (li : lc_info)
    (st : option stat_t) (cells : list byte) (rs : list read_ret) (k : nat) :
  forallb delivers rs = true ->
  count_words L li (mk_fd st (Some cells) rs k)
  = Done (words_result li (stream rs), mk_fd st (Some cells) [] (S k)).
Proof.
  intros Hd. unfold count_words, words_result. cbn [fd_malloc fd_reads].
  match goal with
  | |- context [words_reads L ?c rs] =>
      destruct (words_reads_clean L HL rs c Hd) as [c' [E O]]; rewrite E
  end.
  cbn [c_li c_have_space] in O. rewrite <- O. reflexivity.
Qed.

Lemma count_bytes_clean (li : lc_info) (st : stat_t) (cells : list byte)
    (rs : list read_ret) (k : nat) :
  forallb delivers rs = true ->
  count_bytes li (mk_fd (Some st) (Some cells) rs k)
  = Done (bytes_result li st (stream rs),
          mk_fd (Some st) (Some cells)
                (if st_isreg st && (0 <? st_size st) then rs else []) (S k)).
Proof.
  intros Hd. unfold count_bytes, bytes_result. cbn [fd_stat fd_malloc fd_reads].
  destruct (st_isreg st && (0 <? st_size st)); [reflexivity|].
  cbn [set_num_bytes num_bytes].
  rewrite (bytes_reads_clean rs 0 Hd wrapped_0). reflexivity.
Qed.

Lemma count_lines_and_bytes_clean (li : lc_info) (st : stat_t)
    (cells : list byte) (rs : list read_ret) (k : nat) :
  List.length cells = MAXSIZE ->
  forallb short rs = true ->
  count_lines_and_bytes li (mk_fd (Some st) (Some cells) rs k)
  = Done (lb_result li st (stream rs), mk_fd (Some st) (Some cells) [] (S k)).
Proof.
  intros Hc Hs. unfold count_lines_and_bytes, lb_result.
  cbn [fd_stat fd_malloc fd_reads].
  destruct (lb_reads_clean rs (lb_init li st cells) Hs Hc) as [s' [E [A B]]].
  { unfold lb_init. cbn [lb_sum]. apply wrapped_0. }
  rewrite E, A, B. reflexivity.
Qed.

(** Without room for the sentinel [count_lines_and_bytes] may leave its
    block; when it does not, it returns what the bytewise scan gives. *)
Lemma count_lines_and_bytes_sound (li : lc_info) (st : stat_t)
    (cells : list byte) (rs : list read_ret) (k : nat) :
  forallb delivers rs = true ->
  count_lines_and_bytes li (mk_fd (Some st) (Some cells) rs k) = Wild \/
  count_lines_and_bytes li (mk_fd (Some st) (Some cells) rs k)
  = Done (lb_result li st (stream rs), mk_fd (Some st) (Some cells) [] (S k)).
Proof.
  intros Hd. unfold count_lines_and_bytes, lb_result.
  cbn [fd_stat fd_malloc fd_reads].
  destruct (lb_reads_sound rs (lb_init li st cells) Hd)
    as [W|[s' [E [A B]]]].
  { unfold lb_init. cbn [lb_sum]. apply wrapped_0. }
  - left. rewrite W. reflexivity.
  - right. rewrite E, A, B. reflexivity.
Qed.

(** What the results hold. *)

Lemma declared_nonzero (st : stat_t) :
  st_size st < 2 ^ 64 ->
  st_isreg st && (0 <? st_size st) = true ->
  uintmax (st_size st) = st_size st /\ (st_size st =? 0) = false.
Proof.
  intros Hs H. apply andb_prop in H. destruct H as [_ H].
  apply Z.ltb_lt in H. split.
  - apply uintmax_id. unfold wrapped. lia.
  - apply Z.eqb_neq. lia.
Qed.

Lemma all_result_lines (li : lc_info) (st : stat_t) (s : list byte) :
  num_lines (all_result li st s) = bump (newlines s) 0.
Proof.
  unfold all_result.
  match goal with
  | |- context [fold_left (byte_step true) s ?i] =>
      pose proof (fold_lines s i) as H; set (r := fold_left (byte_step true) s i) in *
  end.
  assert (E : num_lines (fst r) = bump (newlines s) 0).
  { rewrite H. destruct (st_isreg st && (0 <? st_size st)); reflexivity. }
  destruct (num_bytes (fst r) =? 0); [|exact E].
  rewrite <- E. destruct (fst r); reflexivity.
Qed.

Lemma all_result_words (li : lc_info) (st : stat_t) (s : list byte) :
  num_words (all_result li st s) = bump (word_starts true s) 0.
Proof.
  unfold all_result.
  match goal with
  | |- context [fold_left (byte_step true) s ?i] =>
      pose proof (fold_words true s i) as H;
      set (r := fold_left (byte_step true) s i) in *
  end.
  assert (E : num_words (fst r) = bump (word_starts true s) 0).
  { rewrite H. destruct (st_isreg st && (0 <? st_size st)); reflexivity. }
  destruct (num_bytes (fst r) =? 0); [|exact E].
  rewrite <- E. destruct (fst r); reflexivity.
Qed.

Lemma all_result_bytes (li : lc_info) (st : stat_t) (s : list byte) :
  num_bytes (all_result li st s)
  = if st_isreg st && (0 <? st_size st)
    then (if uintmax (st_size st) =? 0
          then uintmax (Z.of_nat (List.length s)) else uintmax (st_size st))
    else uintmax (Z.of_nat (List.length s)).
Proof.
  unfold all_result.
  match goal with
  | |- context [fold_left (byte_step true) s ?i] =>
      destruct (fold_frame true s i) as [H _];
      set (r := fold_left (byte_step true) s i) in *
  end.
  cbn [fst] in H.
  destruct (st_isreg st && (0 <? st_size st)); cbn in H.
  - rewrite <- H. destruct (num_bytes (fst r) =? 0) eqn:E; [|reflexivity].
    destruct (fst r); reflexivity.
  - rewrite H. cbn. destruct (fst r); reflexivity.
Qed.

Lemma words_result_words (li : lc_info) (s : list byte) :
  num_words (words_result li s) = bump (word_starts true s) 0.
Proof. unfold words_result. rewrite fold_words. reflexivity. Qed.

Lemma lb_result_lines (li : lc_info) (st : stat_t) (s : list byte) :
  num_lines (lb_result li st s) = bump (newlines s) 0.
Proof.
  unfold lb_result. rewrite bytewise_lines.
  match goal with
  | |- context [if ?c then _ else _] => destruct c
  end; unfold lb_init; cbn;
    destruct (st_isreg st && (0 <? st_size st)); reflexivity.
Qed.

Lemma lb_result_bytes (li : lc_info) (st : stat_t) (s : list byte) :
  num_bytes (lb_result li st s)
  = if st_isreg st && (0 <? st_size st)
    then (if uintmax (st_size st) =? 0
          then uintmax (Z.of_nat (List.length s)) else uintmax (st_size st))
    else uintmax (Z.of_nat (List.length s)).
Proof.
  unfold lb_result. rewrite bytewise_lines. unfold lb_init.
  destruct (st_isreg st && (0 <? st_size st)); cbn.
  - destruct (uintmax (st_size st) =? 0); reflexivity.
  - reflexivity.
Qed.

Lemma bytes_result_bytes (li : lc_info) (st : stat_t) (s : list byte) :
  num_bytes (bytes_result li st s)
  = if st_isreg st && (0 <? st_size st)
    then uintmax (st_size st) else uintmax (Z.of_nat (List.length s)).
Proof.
  unfold bytes_result.
  destruct (st_isreg st && (0 <? st_size st)); reflexivity.
Qed.

Lemma add_totals_counts (l w b : bool) (li : lc_info) :
  num_lines (add_totals l w b li) = num_lines li /\
  num_words (add_totals l w b li) = num_words li /\
  num_bytes (add_totals l w b li) = num_bytes li.
Proof. repeat split. Qed.

(** ** Two C locales *)

Lemma byte_locale_C : c_locale byte_locale.
Proof.
  constructor.
  - intros st b tl H. cbn. destruct (Z.eqb_spec (uchar b) 0); [lia|reflexivity].
  - intros st b tl H. cbn. rewrite H. reflexivity.
  - intros st b tl H. right. exists (uchar b). cbn.
    destruct (Z.eqb_spec (uchar b) 0); [lia|].
    repeat split; [|lia].
    change (white b = false). apply white_high. exact H.
  - intros x H. reflexivity.
Qed.

Lemma ascii_locale_C : c_locale ascii_locale.
Proof.
  constructor.
  - intros st b tl H. cbn. destruct (Z.eqb_spec (uchar b) 0); [lia|].
    destruct (Z.ltb_spec (uchar b) 128); [reflexivity|lia].
  - intros st b tl H. cbn. rewrite H. reflexivity.
  - intros st b tl H. left. cbn.
    destruct (Z.eqb_spec (uchar b) 0); [lia|].
    destruct (Z.ltb_spec (uchar b) 128); [lia|reflexivity].
  - intros x H. reflexivity.
Qed.

(** ** Lines *)

(** C1. In the C locale, for a scan whose reads all deliver and whose
    stream is shorter than 2^64 bytes, the line count [count_all] leaves,
    and with it that of [use_opts] in every mode with lines and words, is
    the number of 0x0A bytes of the stream: a newline never takes the
    printable-ASCII branch, whose test on ['\n'] is dead, and is counted
    after [mbrtowc].  [count_lines_and_bytes] either leaves its block or
    returns with that number; when the block has its [MAXSIZE] cells and
    every read is shorter than that, so that the sentinel always has a cell
    to go to, it returns with that number, and so does [use_opts] in every
    mode that asks for lines. *)
Theorem lines_are_newlines (L : locale) (HL : c_locale L) (li : lc_info)
    (f : fdesc) (st : stat_t) (cells : list byte) :
  fd_stat f = Some st ->
  fd_malloc f = Some cells ->
  forallb delivers (fd_reads f) = true ->
  Z.of_nat (List.length (stream (fd_reads f))) < 2 ^ 64 ->
  let n := Z.of_nat (newlines (stream (fd_reads f))) in
  (exists li' f', count_all L li f = Done (li', f') /\ num_lines li' = n) /\
  (forall lc, opt_lines lc = true -> opt_words lc = true ->
     exists li' lc' text f',
       use_opts L li lc f = Done (li', lc', text, f') /\ num_lines li' = n) /\
  (count_lines_and_bytes li f = Wild \/
   exists li' f',
     count_lines_and_bytes li f = Done (li', f') /\ num_lines li' = n) /\
  (List.length cells = MAXSIZE ->
   forallb short (fd_reads f) = true ->
   (exists li' f',
       count_lines_and_bytes li f = Done (li', f') /\ num_lines li' = n) /\
   (forall lc, opt_lines lc = true ->
      exists li' lc' text f',
        use_opts L li lc f = Done (li', lc', text, f') /\ num_lines li' = n)).
Proof.
  destruct f as [s m rs k]. cbn [fd_stat fd_malloc fd_reads].
  intros -> -> Hd Hlen. cbv zeta.
  assert (B : bump (newlines (stream rs)) 0 = Z.of_nat (newlines (stream rs))).
  { pose proof (newlines_le (stream rs)).
    rewrite bump_small; lia. }
  assert (A : forall lc, opt_lines lc = true -> opt_words lc = true ->
              exists li' lc' text f',
                use_opts L li lc (mk_fd (Some st) (Some cells) rs k)
                = Done (li', lc', text, f') /\
                num_lines li' = Z.of_nat (newlines (stream rs))).
  { intros [ob ol ow]. cbn [opt_lines opt_words]. intros -> ->.
    unfold use_opts. cbn [opt_bytes opt_lines opt_words].
    destruct ob; cbn [negb andb opt_bytes opt_lines opt_words];
      rewrite (count_all_clean L HL) by exact Hd;
      unfold report; do 4 eexists; (split; [reflexivity|]);
      cbn [add_totals num_lines]; rewrite all_result_lines; exact B. }
  split; [|split; [exact A|split]].
  - eexists. eexists. split; [apply (count_all_clean L HL); exact Hd|].
    rewrite all_result_lines. exact B.
  - destruct (count_lines_and_bytes_sound li st cells rs k Hd) as [W|E];
      [left; exact W|right].
    rewrite E. eexists. eexists. split; [reflexivity|].
    rewrite lb_result_lines. exact B.
  - intros Hc Hs. split.
    + eexists. eexists.
      split; [apply count_lines_and_bytes_clean; assumption|].
      rewrite lb_result_lines. exact B.
    + intros [ob ol ow]. cbn [opt_lines]. intros ->.
      destruct ow; [apply A; reflexivity|].
      unfold use_opts. cbn [opt_bytes opt_lines opt_words].
      destruct ob; cbn [negb andb opt_bytes opt_lines opt_words];
        rewrite count_lines_and_bytes_clean by assumption;
        unfold report; do 4 eexists; (split; [reflexivity|]);
        cbn [add_totals num_lines]; rewrite lb_result_lines; exact B.
Qed.

(** The hypotheses of [lines_are_newlines] hold in the byte locale for a
    pipe whose reads deliver six newlines, "a", and "a\nb\n\n", the last of
    them scanned through the sentinel search. *)
Lemma lines_are_newlines_witness :
  let f := pipe [Bytes (repeat NL 6); Bytes (bytes_of "a");
                 Bytes (bytes_of ("a" ++ nl ++ "b" ++ nl ++ nl))] in
  (exists li' f',
      count_all byte_locale li0 f = Done (li', f') /\ num_lines li' = 9) /\
  (exists li' f',
      count_lines_and_bytes li0 f = Done (li', f') /\ num_lines li' = 9) /\
  (forall lc, opt_lines lc = true ->
     exists li' lc' text f',
       use_opts byte_locale li0 lc f = Done (li', lc', text, f')
       /\ num_lines li' = 9).
Proof.
  cbv zeta.
  destruct (lines_are_newlines byte_locale byte_locale_C li0
              (pipe [Bytes (repeat NL 6); Bytes (bytes_of "a");
                     Bytes (bytes_of ("a" ++ nl ++ "b" ++ nl ++ nl))])
              (mk_stat false 0) (repeat "000"%byte MAXSIZE)
              eq_refl eq_refl eq_refl) as [A [_ [_ B]]].
  { vm_compute. reflexivity. }
  destruct B as [C D].
  { apply repeat_length. }
  { vm_compute. reflexivity. }
  split; [exact A|]. split; [exact C|exact D].
Defined.

(** ** Words *)

(** C2 (the code departs from it). [lc.c] never calls [setlocale]: its
    word loops decode with the [mbrtowc] and [iswspace] of the C locale,
    whatever the encoding of the input, and the words they count are the
    maximal runs of bytes other than the six ASCII white-space bytes, not
    runs of code points.  The five bytes "a", e3 80 80, "b", where e3 80 80
    is U+3000 IDEOGRAPHIC SPACE in UTF-8, hold two maximal runs of
    non-white-space code points; [count_words] and [count_all] count one
    word in them, and [main] with [-w] prints 1.  Given the decoder and the
    classifier of a UTF-8 locale the same loops count two, there and with
    U+3000 once more at the end. *)
Theorem words_are_byte_runs (L : locale) (HL : c_locale L) (li : lc_info) :
  let s := ["a"; "227"; "128"; "128"; "b"]%byte in
  code_points s = [97; 12288; 98] /\
  iswspace_unicode 12288 = true /\
  List.length (point_runs s) = 2%nat /\
  List.length (words_of s) = 1%nat /\
  (exists li' f',
      count_words L li (pipe [Bytes s]) = Done (li', f') /\ num_words li' = 1) /\
  (exists li' f',
      count_all L li (pipe [Bytes s]) = Done (li', f') /\ num_words li' = 1) /\
  p_stdout (main L (one_file "p" (pipe [Bytes s])) (mk_conf false false true)
                 ["p"%string])
  = ("           1 p" ++ nl)%string /\
  match count_words utf8_locale li0 (pipe [Bytes s]) with
  | Done (li', _) => num_words li' = 2
  | _ => False
  end /\
  match count_all utf8_locale li0 (pipe [Bytes s]) with
  | Done (li', _) => num_words li' = 2
  | _ => False
  end /\
  match count_words utf8_locale li0
          (pipe [Bytes (s ++ ["227"; "128"; "128"]%byte)]) with
  | Done (li', _) => num_words li' = 2
  | _ => False
  end /\
  (forall f st cells,
      fd_stat f = Some st ->
      fd_malloc f = Some cells ->
      forallb delivers (fd_reads f) = true ->
      Z.of_nat (List.length (stream (fd_reads f))) < 2 ^ 64 ->
      let t := stream (fd_reads f) in
      let n := Z.of_nat (List.length (words_of t)) in
      List.length (words_of t) = transitions t /\
      (forall tail, forallb white tail = true ->
         List.length (words_of (t ++ tail)) = List.length (words_of t)) /\
      (exists li' f', count_words L li f = Done (li', f') /\ num_words li' = n) /\
      (exists li' f', count_all L li f = Done (li', f') /\ num_words li' = n) /\
      (forall lc, opt_words lc = true ->
         exists li' lc' text f',
           use_opts L li lc f = Done (li', lc', text, f') /\ num_words li' = n)).
Proof.
  cbv zeta.
  assert (G : forall f st cells,
      fd_stat f = Some st ->
      fd_malloc f = Some cells ->
      forallb delivers (fd_reads f) = true ->
      Z.of_nat (List.length (stream (fd_reads f))) < 2 ^ 64 ->
      List.length (words_of (stream (fd_reads f)))
      = transitions (stream (fd_reads f)) /\
      (forall tail, forallb white tail = true ->
         List.length (words_of (stream (fd_reads f) ++ tail))
         = List.length (words_of (stream (fd_reads f)))) /\
      (exists li' f',
          count_words L li f = Done (li', f') /\
          num_words li' = Z.of_nat (List.length (words_of (stream (fd_reads f))))) /\
      (exists li' f',
          count_all L li f = Done (li', f') /\
          num_words li' = Z.of_nat (List.length (words_of (stream (fd_reads f))))) /\
      (forall lc, opt_words lc = true ->
         exists li' lc' text f',
           use_opts L li lc f = Done (li', lc', text, f') /\
           num_words li'
           = Z.of_nat (List.length (words_of (stream (fd_reads f)))))).
  { intros f st cells. destruct f as [s m rs k].
    cbn [fd_stat fd_malloc fd_reads]. intros -> -> Hd Hlen.
    assert (B : bump (word_starts true (stream rs)) 0
                = Z.of_nat (List.length (words_of (stream rs)))).
    { rewrite words_of_starts.
      pose proof (word_starts_le (stream rs) true).
      rewrite bump_small; lia. }
    split; [|split; [|split; [|split]]].
    - rewrite words_of_starts, transitions_starts. reflexivity.
    - intros tail Ht. rewrite !words_of_starts. apply word_starts_tail. exact Ht.
    - eexists. eexists. split; [apply (count_words_clean L HL); exact Hd|].
      rewrite words_result_words. exact B.
    - eexists. eexists. split; [apply (count_all_clean L HL); exact Hd|].
      rewrite all_result_words. exact B.
    - intros [ob ol ow]. cbn [opt_words]. intros ->.
      unfold use_opts. cbn [opt_bytes opt_lines opt_words].
      destruct ob, ol; cbn [negb andb opt_bytes opt_lines opt_words];
        rewrite ?(count_all_clean L HL) by exact Hd;
        rewrite ?(count_words_clean L HL) by exact Hd;
        unfold report; do 4 eexists; (split; [reflexivity|]);
        cbn [add_totals num_words];
        rewrite ?all_result_words, ?words_result_words; exact B. }
  split; [vm_compute; reflexivity|].
  split; [reflexivity|].
  split; [vm_compute; reflexivity|].
  split; [vm_compute; reflexivity|].
  split; [|split; [|split; [|split; [|split; [|split; [|exact G]]]]]].
  - eexists. eexists.
    split; [apply (count_words_clean L HL); reflexivity|].
    rewrite words_result_words. vm_compute. reflexivity.
  - eexists. eexists.
    split; [apply (count_all_clean L HL); reflexivity|].
    rewrite all_result_words. vm_compute. reflexivity.
  - unfold main. cbn [file_loop].
    change (bare_dash "p") with false. cbv iota.
    unfold one_file. change (String.eqb "p" "p") with true. cbv iota.
    unfold use_opts. cbn [opt_bytes opt_lines opt_words negb andb r_lc r_li].
    unfold pipe. rewrite (count_words_clean L HL) by reflexivity.
    unfold report. cbn [file_loop]. unfold finish.
    cbn [p_stdout r_out List.length]. rewrite words_result_words.
    vm_compute. reflexivity.
  - vm_compute. reflexivity.
  - vm_compute. reflexivity.
  - vm_compute. reflexivity.
Qed.

(** The hypothesis of [words_are_byte_runs] holds in the seven-bit locale,
    where each byte of U+3000 is an invalid sequence. *)
Lemma words_are_byte_runs_witness :
  let s := ["a"; "227"; "128"; "128"; "b"]%byte in
  List.length (point_runs s) = 2%nat /\
  exists li' f',
    count_words ascii_locale li0 (pipe [Bytes s]) = Done (li', f') /\
    num_words li' = 1.
Proof.
  cbv zeta.
  destruct (words_are_byte_runs ascii_locale ascii_locale_C li0)
    as [_ [_ [A [_ [B _]]]]].
  split; [exact A|exact B].
Defined.

(** ** Bytes *)

(** In any locale the word loop of [count_all] leaves [num_bytes] alone. *)
Lemma all_step_bytes (L : locale) (c : cursor L) (b : byte) (tl : list byte) :
  num_bytes (c_li (fst (all_step L c b tl))) = num_bytes (c_li c).
Proof.
  unfold all_step.
  destruct (is_ascii (schar b) && is_print (schar b)).
  - destruct (is_space (schar b)); [reflexivity|].
    destruct (c_have_space c); [reflexivity|].
    destruct (schar b =? 10); reflexivity.
  - destruct (mbrtowc L (c_mst c) (b :: tl)) as [r mst'].
    destruct (pwc_of r (uchar b) =? 10), (iswspace L (pwc_of r (uchar b))),
      (c_have_space c); reflexivity.
Qed.

Lemma all_block_bytes (L : locale) (fuel : nat) :
  forall (c : cursor L) (l : list byte),
    num_bytes (c_li (all_block L fuel c l)) = num_bytes (c_li c).
Proof.
  induction fuel as [|k IH]; intros c l; [reflexivity|].
  destruct l as [|b tl]; [reflexivity|].
  cbn [all_block].
  pose proof (all_step_bytes L c b tl) as H.
  destruct (all_step L c b tl) as [c1 rest]. cbn [fst] in H.
  rewrite IH. exact H.
Qed.

Lemma all_reads_bytes (L : locale) (rs : list read_ret) :
  forall (c : cursor L) (sum : Z),
    forallb delivers rs = true ->
    wrapped sum ->
    exists c',
      all_reads L c sum rs
      = (c', uintmax (sum + Z.of_nat (List.length (stream rs))), []) /\
      num_bytes (c_li c') = num_bytes (c_li c).
Proof.
  induction rs as [|r rs IH]; intros c sum Hd Hw.
  - exists c. cbn. rewrite Z.add_0_r, uintmax_id by exact Hw. split; reflexivity.
  - cbn [forallb] in Hd. apply andb_prop in Hd. destruct Hd as [Hr Hrs].
    destruct r as [[|b t]|]; try discriminate Hr.
    cbn [all_reads ret_value].
    destruct (IH (all_block L (List.length (b :: t)) c (b :: t))
                 (uintmax (sum + uintmax (Z.of_nat (List.length (b :: t)))))
                 Hrs (uintmax_wrapped _)) as [c' [E O]].
    exists c'. split.
    + rewrite E. f_equal. f_equal.
      rewrite uintmax_add_r, uintmax_add_l.
      cbn [stream flat_map]. fold (stream rs). rewrite length_app.
      f_equal. lia.
    + rewrite O. apply all_block_bytes.
Qed.

Lemma count_all_bytes (L : locale) (li : lc_info) (st : stat_t)
    (cells : list byte) (rs : list read_ret) (k : nat) :
  forallb delivers rs = true ->
  exists li',
    count_all L li (mk_fd (Some st) (Some cells) rs k)
    = Done (li', mk_fd (Some st) (Some cells) [] k) /\
    num_bytes li'
    = if st_isreg st && (0 <? st_size st)
      then (if uintmax (st_size st) =? 0
            then uintmax (Z.of_nat (List.length (stream rs)))
            else uintmax (st_size st))
      else uintmax (Z.of_nat (List.length (stream rs))).
Proof.
  intros Hd. unfold count_all. cbn [fd_stat fd_malloc fd_reads].
  match goal with
  | |- context [all_reads L ?c 0 rs] =>
      destruct (all_reads_bytes L rs c 0 Hd wrapped_0) as [c' [E O]];
      rewrite E
  end.
  eexists. split; [reflexivity|].
  cbn [c_li] in O.
  destruct (st_isreg st && (0 <? st_size st)); cbn in O.
  - rewrite O. destruct (uintmax (st_size st) =? 0); [|exact O].
    destruct (c_li c'); reflexivity.
  - rewrite O. cbn. destruct (c_li c'); reflexivity.
Qed.

(** C3. Whatever the locale, in every mode that includes bytes, when
    [fstat] and [malloc] succeed and the reads all deliver: for a regular
    file of positive size the byte count reported is that size, whatever
    the reads deliver; in the mode of bytes alone the reads are then left
    untouched; and for a source that is not a regular file the byte count
    is the sum of the counts the reads delivered.  In the mode of lines and
    bytes, which scans through [count_lines_and_bytes], this is for a block
    of [MAXSIZE] cells and reads that are each shorter than that, so that
    the sentinel always has a cell to go to. *)
Theorem bytes_reported (L : locale) (li : lc_info) (lc : lc_conf)
    (f : fdesc) (st : stat_t) (cells : list byte) :
  opt_bytes lc = true ->
  fd_stat f = Some st ->
  fd_malloc f = Some cells ->
  forallb delivers (fd_reads f) = true ->
  (opt_lines lc = true -> opt_words lc = false ->
   List.length cells = MAXSIZE /\ forallb short (fd_reads f) = true) ->
  st_size st < 2 ^ 63 ->
  sum_reads (fd_reads f) < 2 ^ 64 ->
  exists li' lc' text f',
    use_opts L li lc f = Done (li', lc', text, f') /\
    (st_isreg st = true -> 0 < st_size st -> num_bytes li' = st_size st) /\
    (st_isreg st = true -> 0 < st_size st ->
     opt_lines lc = false -> opt_words lc = false ->
     fd_reads f' = fd_reads f) /\
    (st_isreg st = false -> num_bytes li' = sum_reads (fd_reads f)).
Proof.
  destruct f as [s m rs k]. cbn [fd_stat fd_malloc fd_reads].
  intros Hb -> -> Hd Hroom Hs Hsum.
  rewrite sum_reads_stream in *.
  assert (U : uintmax (Z.of_nat (List.length (stream rs)))
              = Z.of_nat (List.length (stream rs))).
  { apply uintmax_id. unfold wrapped. lia. }
  assert (R : st_isreg st = true -> 0 < st_size st ->
              st_isreg st && (0 <? st_size st) = true
              /\ uintmax (st_size st) = st_size st
              /\ (uintmax (st_size st) =? 0) = false).
  { intros Hr Hp.
    assert (E : st_isreg st && (0 <? st_size st) = true).
    { rewrite Hr. apply Z.ltb_lt in Hp. rewrite Hp. reflexivity. }
    destruct (declared_nonzero st) as [A B]; [lia|exact E|].
    rewrite A. auto. }
  destruct lc as [ob ol ow]. cbn [opt_bytes] in Hb. subst ob.
  cbn [opt_lines opt_words] in *.
  destruct (count_all_bytes L li st cells rs k Hd) as [la [Ea Ba]].
  unfold use_opts. cbn [opt_bytes opt_lines opt_words].
  destruct ol, ow; cbn [negb andb opt_bytes opt_lines opt_words];
    try (destruct (Hroom eq_refl eq_refl) as [Hc Hsh];
         rewrite (count_lines_and_bytes_clean li st cells rs k Hc Hsh));
    rewrite ?Ea;
    rewrite ?count_bytes_clean by exact Hd;
    unfold report; do 4 eexists; (split; [reflexivity|]);
    cbn [add_totals num_bytes fd_reads];
    rewrite ?lb_result_bytes, ?bytes_result_bytes, ?Ba.
  all: split; [|split].
  all: try (intros _ _ H1 H2; congruence).
  all: try (intros Hr Hp; destruct (R Hr Hp) as [E1 [E2 E3]];
            rewrite E1, ?E3; first [exact E2 | intros; reflexivity]).
  all: intros Hr; rewrite Hr; cbn [andb]; exact U.
Qed.

(** The hypotheses of [bytes_reported] hold for a regular file of declared
    size 7 whose single read delivers the three bytes "abc", in the mode
    of bytes alone and in the mode of lines and bytes. *)
Lemma bytes_reported_witness :
  (exists li' lc' text f',
      use_opts byte_locale li0 (mk_conf true false false)
               (regular 7 [Bytes (bytes_of "abc")])
      = Done (li', lc', text, f') /\
      num_bytes li' = 7 /\ fd_reads f' = [Bytes (bytes_of "abc")]) /\
  (exists li' lc' text f',
      use_opts byte_locale li0 (mk_conf true true false)
               (regular 7 [Bytes (bytes_of "abc")])
      = Done (li', lc', text, f') /\
      num_bytes li' = 7).
Proof.
  split.
  - destruct (bytes_reported byte_locale li0 (mk_conf true false false)
                (regular 7 [Bytes (bytes_of "abc")]) (mk_stat true 7)
                (repeat "000"%byte MAXSIZE)
                eq_refl eq_refl eq_refl eq_refl
                (fun H _ => False_ind _ (Bool.diff_false_true H))
                eq_refl eq_refl)
      as [li' [lc' [text [f' [E [A [B _]]]]]]].
    exists li', lc', text, f'.
    split; [exact E|].
    split; [apply A; reflexivity|apply B; reflexivity].
  - destruct (bytes_reported byte_locale li0 (mk_conf true true false)
                (regular 7 [Bytes (bytes_of "abc")]) (mk_stat true 7)
                (repeat "000"%byte MAXSIZE)
                eq_refl eq_refl eq_refl eq_refl)
      as [li' [lc' [text [f' [E [A _]]]]]].
    + intros _ _. split; [apply repeat_length|vm_compute; reflexivity].
    + reflexivity.
    + reflexivity.
    + exists li', lc', text, f'.
      split; [exact E|apply A; reflexivity].
Defined.

(** ** A read that fails *)

(** C4 (the code departs from it). No routine tests the return of [read]
    for -1.  In [count_bytes] and [count_all] a failed read is added to the
    byte sum as 2^64 - 1 and the loop goes on to the next read; when [fstat]
    and [malloc] succeed [count_bytes] returns, whatever the reads return.
    On a pipe whose first read fails and whose second delivers "a b", both
    routines return, with 2 bytes counted, and [main] with [-b] prints
    that count, reports nothing and ends with status 0. *)
Theorem failed_read_goes_on :
  (forall n rs,
      bytes_reads n (Fail :: rs) = bytes_reads (uintmax (n + (2 ^ 64 - 1))) rs) /\
  (forall L (c : cursor L) sum rs,
      all_reads L c sum (Fail :: rs)
      = all_reads L c (uintmax (sum + (2 ^ 64 - 1))) rs) /\
  (forall li st cells rs k,
      exists r, count_bytes li (mk_fd (Some st) (Some cells) rs k) = Done r) /\
  match count_bytes li0 (pipe [Fail; Bytes (bytes_of "a b")]) with
  | Done (li, f) => num_bytes li = 2 /\ fd_reads f = []
  | _ => False
  end /\
  match count_all byte_locale li0 (pipe [Fail; Bytes (bytes_of "a b")]) with
  | Done (li, f) => num_bytes li = 2 /\ num_words li = 2 /\ fd_reads f = []
  | _ => False
  end /\
  (let p := main byte_locale
              (one_file "p" (pipe [Fail; Bytes (bytes_of "a b")]))
              (mk_conf true false false) ["p"%string] in
   p_stdout p = ("           2 p" ++ nl)%string /\ p_stderr p = []
   /\ p_end p = Status 0).
Proof.
  split; [|split; [|split; [|split; [|split]]]].
  - intros n rs. reflexivity.
  - intros L c sum rs. reflexivity.
  - intros li st cells rs k. unfold count_bytes. cbn [fd_stat fd_malloc fd_reads].
    destruct (st_isreg st && (0 <? st_size st)); [eexists; reflexivity|].
    destruct (bytes_reads (num_bytes (set_num_bytes li 0)) rs) as [n rest].
    eexists. reflexivity.
  - vm_compute. split; reflexivity.
  - vm_compute. repeat split; reflexivity.
  - vm_compute. repeat split; reflexivity.
Qed.

(** ** The sentinel *)

(** C5 (the code departs from it). The block has [MAXSIZE] cells and a
    read may fill them all; the promoted branch then stores the sentinel at
    offset [MAXSIZE], one cell past the allocation.  On
    [full_block_reads], whose reads all deliver between 1 and [MAXSIZE]
    bytes, the first two reads promote the scan without a store, and the
    third returns 65205 = [MAXSIZE] and fills the block: the store at offset
    65205 has no cell of the block to go to, and the block as read holds no
    newline that would stop the search inside it.  The read loop leaves the
    block there, [count_lines_and_bytes] does not return, and [main] with
    [-l] does not reach its end.  Whatever the block, the offset equal to
    its length is outside it, and a promoted scan leaves a block of
    [MAXSIZE] cells at any read that returns [MAXSIZE]. *)
Theorem sentinel_past_block :
  let init := lb_init li0 (mk_stat false 0) (repeat "000"%byte MAXSIZE) in
  let promoted := lb_final (lb_reads init (firstn 2 full_block_reads)) in
  let full := repeat "a"%byte MAXSIZE in
  forallb delivers full_block_reads = true /\
  forallb fits full_block_reads = true /\
  Z.of_nat MAXSIZE = 65205 /\
  nth_error full_block_reads 2 = Some (Bytes full) /\
  option_map ret_value (nth_error full_block_reads 2) = Some (Z.of_nat MAXSIZE) /\
  option_map lb_expect_long promoted = Some true /\
  option_map lb_marks promoted = Some [] /\
  option_map (fun s => Z.of_nat (List.length (fill (lb_buf s) full))) promoted
  = Some 65205 /\
  option_map (fun s => store_nl (fill (lb_buf s) full) (Z.of_nat MAXSIZE))
             promoted
  = Some None /\
  option_map (fun s => memchr (fill (lb_buf s) full) 10) promoted = Some None /\
  lb_reads init full_block_reads = Wild /\
  count_lines_and_bytes li0 (pipe full_block_reads) = Wild /\
  p_end (main byte_locale (one_file "p" (pipe full_block_reads))
              (mk_conf false true false) ["p"%string])
  = Crash /\
  (forall buf, store_nl buf (Z.of_nat (List.length buf)) = None) /\
  (forall li sum buf marks b t rs,
      List.length buf = MAXSIZE ->
      List.length (b :: t) = MAXSIZE ->
      lb_reads (mk_lb li sum true buf marks) (Bytes (b :: t) :: rs) = Wild).
Proof.
  cbv zeta.
  split; [vm_compute; reflexivity|].
  split; [vm_compute; reflexivity|].
  split; [vm_compute; reflexivity|].
  split; [reflexivity|].
  split; [vm_compute; reflexivity|].
  split; [vm_compute; reflexivity|].
  split; [vm_compute; reflexivity|].
  split; [vm_compute; reflexivity|].
  split; [vm_compute; reflexivity|].
  split; [vm_compute; reflexivity|].
  split; [vm_compute; reflexivity|].
  split; [vm_compute; reflexivity|].
  split; [vm_compute; reflexivity|].
  split.
  - intros buf. unfold store_nl. rewrite Z.ltb_irrefl, andb_false_r.
    reflexivity.
  - intros li sum buf marks b t rs Hb Hl.
    rewrite lb_reads_bytes, sentinel_scan_fill, Hb, Hl, Nat.ltb_irrefl.
    reflexivity.
Qed.

(** ** Who closes the descriptor *)

(** C9 (the code departs from it). [count_bytes], [count_lines_and_bytes]
    and [count_words] each end with [close(fd)]; only [count_all] leaves the
    descriptor to its caller.  [main] closes it again: with [-b] on one
    file the descriptor receives two [close] calls, the first from the scan
    routine. *)
Theorem scanners_close_fd :
  (forall li f,
      match count_bytes li f with
      | Done (_, f') => fd_closes f' = S (fd_closes f)
      | _ => True
      end) /\
  (forall li f,
      match count_lines_and_bytes li f with
      | Done (_, f') => fd_closes f' = S (fd_closes f)
      | _ => True
      end) /\
  (forall L li f,
      match count_words L li f with
      | Done (_, f') => fd_closes f' = S (fd_closes f)
      | _ => True
      end) /\
  (forall L li f,
      match count_all L li f with
      | Done (_, f') => fd_closes f' = fd_closes f
      | _ => True
      end) /\
  map fd_closes
    (p_fds (main byte_locale
              (one_file "f" (regular 4 [Bytes (bytes_of "a b" ++ [NL])]))
              (mk_conf true false false) ["f"%string]))
  = [2%nat].
Proof.
  split; [|split; [|split; [|split]]].
  - intros li f. unfold count_bytes.
    destruct (fd_stat f) as [st|]; [|exact I].
    destruct (st_isreg st && (0 <? st_size st)); [reflexivity|].
    destruct (fd_malloc f); [|exact I].
    destruct (bytes_reads _ _). reflexivity.
  - intros li f. unfold count_lines_and_bytes.
    destruct (fd_malloc f); [|exact I].
    destruct (fd_stat f) as [st|]; [|exact I].
    destruct (lb_reads _ _) as [[s rs]| |]; try exact I. reflexivity.
  - intros L li f. unfold count_words.
    destruct (fd_malloc f); [|exact I].
    destruct (words_reads _ _ _). reflexivity.
  - intros L li f. unfold count_all.
    destruct (fd_stat f) as [st|]; [|exact I].
    destruct (fd_malloc f); [|exact I].
    destruct (all_reads _ _ _ _) as [[c sum] rs]. reflexivity.
  - vm_compute. reflexivity.
Qed.

(** ** Where the reads cut the stream *)

Section Splitting.

Variable L : locale.
Hypothesis HL : c_locale L.
Variables rs1 rs2 : list read_ret.
Hypothesis clean1 : forallb delivers rs1 = true.
Hypothesis clean2 : forallb delivers rs2 = true.
Hypothesis same : stream rs1 = stream rs2.




End Splitting.

Lemma counts_of_report (o : outcome (lc_info * fdesc)) (lc : lc_conf)
    (l w b : bool) (text : lc_info -> string) :
  counts_of (report o lc l w b text)
  = match counts_of o with
    | Done li => Done (add_totals l w b li, lc, text li)
    | Exit label => Exit label
    | Wild => Wild
    end.
Proof. destruct o as [[li f]| |]; reflexivity. Qed.







(** Room for the sentinel is what [split_invariance] rests on in the modes
    of lines without words.  The 65212 bytes of [full_block_reads] cut as
    six newlines, one byte and a full block make [count_lines_and_bytes]
    leave its block at the third read; cut as a full block and seven bytes
    they never promote the scan, which returns. *)
Remark cut_matters_at_a_full_block :
  let s := stream full_block_reads in
  let counts rs :=
    match count_lines_and_bytes li0 (pipe rs) with
    | Done (li, _) => Some (num_lines li, num_bytes li)
    | _ => None
    end in
  let other := [Bytes (firstn MAXSIZE s); Bytes (skipn MAXSIZE s)] in
  forallb delivers other && forallb fits other = true /\
  Z.of_nat (List.length (stream other)) = Z.of_nat (List.length s) /\
  counts full_block_reads = None /\
  counts other = Some (6, 65212).
Proof.
  cbv zeta. split; [vm_compute; reflexivity|].
  split; [vm_compute; reflexivity|].
  split; vm_compute; reflexivity.
Qed.

(** ** Bytes the decoder does not accept *)

Lemma rejected_byte (L : locale) (HL : c_locale L) (st : mbstate_t L)
    (b : byte) (tl : list byte) :
  let r := fst (mbrtowc L st (b :: tl)) in
  r = MbNul \/ r = MbIlseq \/ r = MbShort ->
  white b = false /\ is_nl b = false.
Proof.
  cbv zeta. intros H. pose proof (uchar_range b) as Hb.
  destruct (Z.eq_dec (uchar b) 0) as [H0|H0].
  - unfold white, is_nl. rewrite H0. split; reflexivity.
  - destruct (Z_lt_le_dec (uchar b) 128) as [Hlo|Hhi].
    + rewrite (cl_low L HL st b tl) in H by lia.
      destruct H as [H|[H|H]]; discriminate H.
    + split; [apply white_high|apply is_nl_high]; exact Hhi.
Qed.

(** C7, as amended. Where [mbrtowc] returns 0, -1 or -2 the step consumes
    exactly one byte and the scan goes on, in any locale.  In the C locale
    the byte is then taken as not white space: [have_space] is cleared, the
    word count grows by one when [have_space] was set (the byte starts a
    word) and stays otherwise, and the line and byte counts stay. *)
Theorem rejected_byte_step (L : locale) (c : cursor L) (b : byte)
    (tl : list byte) :
  let r := fst (mbrtowc L (c_mst c) (b :: tl)) in
  is_ascii (schar b) && is_print (schar b) = false ->
  r = MbNul \/ r = MbIlseq \/ r = MbShort ->
  let w := words_step L c b tl in
  let a := all_step L c b tl in
  snd w = tl /\ snd a = tl /\
  (c_locale L ->
   c_have_space (fst w) = false /\ c_have_space (fst a) = false /\
   num_words (c_li (fst w))
   = (if c_have_space c then uintmax (num_words (c_li c) + 1)
      else num_words (c_li c)) /\
   num_words (c_li (fst a))
   = (if c_have_space c then uintmax (num_words (c_li c) + 1)
      else num_words (c_li c)) /\
   num_lines (c_li (fst w)) = num_lines (c_li c) /\
   num_lines (c_li (fst a)) = num_lines (c_li c) /\
   num_bytes (c_li (fst w)) = num_bytes (c_li c) /\
   num_bytes (c_li (fst a)) = num_bytes (c_li c)).
Proof.
  cbv zeta. intros Hslow Hr.
  split; [|split].
  - unfold words_step. rewrite Hslow.
    destruct (mbrtowc L (c_mst c) (b :: tl)) as [r mst']. cbn [fst] in Hr.
    destruct Hr as [->|[->| ->]]; reflexivity.
  - unfold all_step. rewrite Hslow.
    destruct (mbrtowc L (c_mst c) (b :: tl)) as [r mst']. cbn [fst] in Hr.
    destruct Hr as [->|[->| ->]]; reflexivity.
  - intros HL.
    destruct (rejected_byte L HL (c_mst c) b tl Hr) as [Hw Hn].
    destruct (words_step_C L HL c b tl) as [_ W].
    destruct (all_step_C L HL c b tl) as [_ A].
    unfold byte_step in W, A. cbn [fst snd andb] in W, A.
    rewrite Hw in W, A. rewrite Hn in A.
    destruct (c_have_space c);
      injection W as W1 W2; injection A as A1 A2;
      rewrite W1, A1, W2, A2; repeat split.
Qed.

(** The hypotheses of [rejected_byte_step] hold at a NUL byte met with
    [have_space] set: the word count goes from 0 to 1. *)
Lemma rejected_byte_step_witness :
  snd (words_step byte_locale (scan_start byte_locale li0) "000"%byte []) = [] /\
  num_words (c_li (fst (words_step byte_locale (scan_start byte_locale li0)
                          "000"%byte []))) = 1.
Proof.
  destruct (rejected_byte_step byte_locale (scan_start byte_locale li0) "000"%byte []
              eq_refl (or_introl eq_refl)) as [A [_ B]].
  destruct (B byte_locale_C) as [_ [_ [C _]]].
  split; [exact A|exact C].
Defined.

(** C7, as stated, fails: a NUL byte, on which [mbrtowc] returns 0, met
    with [have_space] set increments the word count. *)
Lemma rejected_byte_counts_a_word :
  ~ (forall (c : cursor byte_locale) (b : byte) (tl : list byte),
        is_ascii (schar b) && is_print (schar b) = false ->
        (let r := fst (mbrtowc byte_locale (c_mst c) (b :: tl)) in
         r = MbNul \/ r = MbIlseq \/ r = MbShort) ->
        let w := words_step byte_locale c b tl in
        snd w = tl /\ c_have_space (fst w) = false /\
        num_words (c_li (fst w)) = num_words (c_li c) /\
        num_lines (c_li (fst w)) = num_lines (c_li c)).
Proof.
  intros H.
  destruct (H (scan_start byte_locale li0) "000"%byte [] eq_refl (or_introl eq_refl))
    as [_ [_ [W _]]].
  vm_compute in W. discriminate W.
Qed.

(** ** The promotion *)

Lemma spec_block_lines (l : list byte) :
  forall v,
    fold_left (fun lines b => if is_nl b then uintmax (lines + 1) else lines) l v
    = bump (newlines l) v.
Proof.
  induction l as [|b t IH]; intros v; [reflexivity|].
  cbn [fold_left]. rewrite IH. unfold newlines. cbn [filter].
  destruct (is_nl b); [cbn [List.length]; rewrite bump_S|]; reflexivity.
Qed.

Lemma spec_reads (rs : list read_ret) :
  forall lines sum,
    wrapped sum ->
    fold_left spec_block rs (lines, sum)
    = (bump (newlines (stream rs)) lines,
       uintmax (sum + Z.of_nat (List.length (stream rs)))).
Proof.
  induction rs as [|r rs IH]; intros lines sum Hw.
  - cbn. rewrite Z.add_0_r, uintmax_id by exact Hw. reflexivity.
  - cbn [fold_left]. unfold spec_block at 2. cbn [fst snd].
    rewrite IH by apply uintmax_wrapped.
    cbn [stream flat_map]. fold (stream rs).
    rewrite spec_block_lines, newlines_app, bump_add, length_app.
    rewrite uintmax_add_l. f_equal. f_equal. lia.
Qed.

(** C8. On a block the promoted branch counts exactly the newlines the
    bytewise loop counts when the read left a cell for the sentinel, and
    leaves the block when it did not.  So when [fstat] and [malloc] succeed
    and the reads all deliver, [count_lines_and_bytes] either leaves its
    block or returns the lines and bytes of the scan that never promotes;
    and when the block has its [MAXSIZE] cells and every read is shorter
    than that, it returns them, whatever blocks it scanned through the
    sentinel search. *)
Theorem promotion_keeps_result (li : lc_info) (f : fdesc) (st : stat_t)
    (cells : list byte) :
  fd_stat f = Some st ->
  fd_malloc f = Some cells ->
  forallb delivers (fd_reads f) = true ->
  st_size st < 2 ^ 63 ->
  (forall buf l c,
      sentinel_scan (fill buf l) (Z.of_nat (List.length l)) c
      = if (List.length l <? List.length buf)%nat
        then Some (bytewise l c, l ++ NL :: skipn (S (List.length l)) buf)
        else None) /\
  (count_lines_and_bytes li f = Wild \/
   exists li' f',
     count_lines_and_bytes li f = Done (li', f') /\
     (num_lines li', num_bytes li') = lines_and_bytes_spec st (fd_reads f)) /\
  (List.length cells = MAXSIZE ->
   forallb short (fd_reads f) = true ->
   exists li' f',
     count_lines_and_bytes li f = Done (li', f') /\
     (num_lines li', num_bytes li') = lines_and_bytes_spec st (fd_reads f)).
Proof.
  destruct f as [s m rs k]. cbn [fd_stat fd_malloc fd_reads].
  intros -> -> Hd Hs.
  assert (R : (num_lines (lb_result li st (stream rs)),
               num_bytes (lb_result li st (stream rs)))
              = lines_and_bytes_spec st rs).
  { rewrite lb_result_lines, lb_result_bytes.
    unfold lines_and_bytes_spec, declared_size.
    rewrite (spec_reads rs 0 0 wrapped_0). cbn [Z.add].
    destruct (st_isreg st && (0 <? st_size st)) eqn:E; [|reflexivity].
    destruct (declared_nonzero st) as [A B]; [lia|exact E|].
    rewrite A, B. reflexivity. }
  split; [exact sentinel_scan_fill|]. split.
  - destruct (count_lines_and_bytes_sound li st cells rs k Hd) as [W|E];
      [left; exact W|right].
    rewrite E. eexists. eexists. split; [reflexivity|exact R].
  - intros Hc Hsh. eexists. eexists.
    split; [apply count_lines_and_bytes_clean; assumption|exact R].
Qed.

(** The hypotheses of [promotion_keeps_result] hold on a pipe whose third
    block is scanned through the sentinel search, with the sentinel stored
    at offset 5. *)
Lemma promotion_keeps_result_witness :
  let rs := [Bytes (repeat NL 6); Bytes (bytes_of "a");
             Bytes (bytes_of ("a" ++ nl ++ "b" ++ nl ++ nl))] in
  option_map lb_marks
    (lb_final (lb_reads (lb_init li0 (mk_stat false 0) (repeat "000"%byte MAXSIZE))
                        rs))
  = Some [5] /\
  exists li' f',
    count_lines_and_bytes li0 (pipe rs) = Done (li', f') /\
    (num_lines li', num_bytes li') = (9, 12).
Proof.
  cbv zeta. split; [vm_compute; reflexivity|].
  destruct (promotion_keeps_result li0
              (pipe [Bytes (repeat NL 6); Bytes (bytes_of "a");
                     Bytes (bytes_of ("a" ++ nl ++ "b" ++ nl ++ nl))])
              (mk_stat false 0) (repeat "000"%byte MAXSIZE)
              eq_refl eq_refl eq_refl eq_refl) as [_ [_ H]].
  apply H; [apply repeat_length|vm_compute; reflexivity].
Defined.

(** ** The file loop of main *)

Lemma str_app_assoc (a b c : string) :
  ((a ++ b) ++ c)%string = (a ++ (b ++ c))%string.
Proof.
  induction a as [|x a IH]; [reflexivity|].
  cbn [String.append]. rewrite IH. reflexivity.
Qed.

Lemma str_app_nil_r (a : string) : (a ++ "")%string = a.
Proof.
  induction a as [|x a IH]; [reflexivity|].
  cbn [String.append]. rewrite IH. reflexivity.
Qed.

Section FileLoop.

Variable L : locale.
Variable open : string -> option fdesc.

Lemma file_loop_app (argv1 : list string) :
  forall (r : run) (argv2 : list string),
    file_loop L open r (argv1 ++ argv2)
    = match file_loop L open r argv1 with
      | inl r' => file_loop L open r' argv2
      | inr p => inr p
      end.
Proof.
  induction argv1 as [|arg argv1 IH]; intros r argv2; [reflexivity|].
  cbn [app file_loop].
  destruct (bare_dash arg); [reflexivity|].
  destruct (open arg) as [f|]; [|reflexivity].
  destruct (use_opts L (r_li r) (r_lc r) f) as [[[[li lc] text] f']| |];
    try reflexivity.
  apply IH.
Qed.

(** A loop that runs through prints one line per argument, in order. *)
Lemma file_loop_listing (argv : list string) :
  forall (r r' : run),
    file_loop L open r argv = inl r' ->
    exists texts,
      Forall2 (printed_for L open) argv texts /\
      r_out r' = (r_out r ++ listing (combine texts argv))%string.
Proof.
  induction argv as [|arg argv IH]; intros r r' H.
  - injection H as <-. exists []. split; [constructor|].
    cbn. rewrite str_app_nil_r. reflexivity.
  - cbn [file_loop] in H.
    destruct (bare_dash arg) eqn:Hd; [discriminate H|].
    destruct (open arg) as [f|] eqn:Ho; [|discriminate H].
    destruct (use_opts L (r_li r) (r_lc r) f) as [[[[li lc] text] f']| |] eqn:Hu;
      try discriminate H.
    destruct (IH _ _ H) as [texts [F E]].
    exists (text :: texts). split.
    + constructor; [|exact F]. split; [exact Hd|].
      exists f, (r_li r), (r_lc r), li, lc, f'. split; [exact Ho|exact Hu].
    + rewrite E. cbn [r_out combine listing].
      fold (file_line text arg). apply str_app_assoc.
Qed.

(** A loop that meets a bare "-" or a name that does not open stops there. *)
Lemma file_loop_stops (r : run) (bad : string) (post : list string) :
  bare_dash bad = true \/ open bad = None ->
  exists msg,
    file_loop L open r (bad :: post)
    = inr (mk_process (r_out r) [msg] (Status EXIT_FAILURE) (r_fds r)).
Proof.
  intros H. cbn [file_loop]. unfold die. rewrite app_nil_r.
  destruct (bare_dash bad) eqn:Hd; [eexists; reflexivity|].
  destruct H as [H|H]; [discriminate H|].
  rewrite H. eexists. reflexivity.
Qed.

End FileLoop.

(** C10. When the arguments before the k-th are not a bare "-", open, and
    are scanned to the end, and the k-th is a bare "-" or does not open,
    the process exits with [EXIT_FAILURE], which is not 0, and its standard
    output is the listing of the count lines of the arguments before the
    k-th, one per argument in order, and nothing else: the run on those
    arguments alone prints the same listing, followed by the total line
    when they are two or more. *)
Theorem listing_before_failure (L : locale) (open : string -> option fdesc)
    (lc : lc_conf) (pre : list string) (bad : string) (post : list string)
    (r : run) :
  pre <> [] ->
  file_loop L open (mk_run li0 lc EmptyString []) pre = inl r ->
  bare_dash bad = true \/ open bad = None ->
  let p := main L open lc (pre ++ bad :: post) in
  p_stdout p = r_out r /\
  (exists texts,
      Forall2 (printed_for L open) pre texts /\
      r_out r = listing (combine texts pre)) /\
  p_end p = Status EXIT_FAILURE /\ EXIT_FAILURE <> 0 /\
  p_stdout (main L open lc pre)
  = String.append (r_out r)
      (if 1 <? Z.of_nat (List.length pre)
       then total_line (r_lc r) (r_li r) else EmptyString).
Proof.
  intros Hne Hpre Hbad. cbv zeta.
  destruct (file_loop_stops L open r bad post Hbad) as [msg Hstop].
  assert (M : main L open lc (pre ++ bad :: post)
              = mk_process (r_out r) [msg] (Status EXIT_FAILURE) (r_fds r)).
  { unfold main. destruct pre as [|a pre']; [contradiction|].
    cbn [app]. change (a :: pre' ++ bad :: post) with ((a :: pre') ++ bad :: post).
    rewrite file_loop_app. fold li0. rewrite Hpre, Hstop. reflexivity. }
  rewrite M. cbn [p_stdout p_end].
  split; [reflexivity|]. split; [|split; [reflexivity|split; [discriminate|]]].
  - destruct (file_loop_listing L open pre _ r Hpre) as [texts [F E]].
    exists texts. split; [exact F|]. exact E.
  - unfold main. destruct pre as [|a pre']; [contradiction|].
    fold li0. rewrite Hpre. unfold finish. cbn [p_stdout].
    destruct (1 <? Z.of_nat (List.length (a :: pre'))); [reflexivity|].
    symmetry. apply str_app_nil_r.
Qed.

(** The hypotheses of [listing_before_failure] hold for [-lw f1 - f2]
    and for [-lw f1 f2 f3] where f3 does not exist. *)
Lemma listing_before_failure_witness :
  p_stdout (main byte_locale two_files (mk_conf false true true)
              ["f1"; "-"; "f2"]%string)
  = ("           1           1 f1" ++ nl)%string /\
  p_stdout (main byte_locale two_files (mk_conf false true true)
              ["f1"; "f2"; "f3"]%string)
  = ("           1           1 f1" ++ nl ++
     "           1           2 f2" ++ nl)%string.
Proof.
  split.
  - destruct (listing_before_failure byte_locale two_files
                (mk_conf false true true) ["f1"%string] "-"%string
                ["f2"%string]
                (match file_loop byte_locale two_files
                         (mk_run li0 (mk_conf false true true) EmptyString [])
                         ["f1"%string]
                 with
                 | inl r => r
                 | inr _ => mk_run li0 (mk_conf false true true) EmptyString []
                 end))
      as [A _].
    + discriminate.
    + reflexivity.
    + left. reflexivity.
    + cbn [app] in A. rewrite A. vm_compute. reflexivity.
  - destruct (listing_before_failure byte_locale two_files
                (mk_conf false true true) ["f1"; "f2"]%string "f3"%string []
                (match file_loop byte_locale two_files
                         (mk_run li0 (mk_conf false true true) EmptyString [])
                         ["f1"; "f2"]%string
                 with
                 | inl r => r
                 | inr _ => mk_run li0 (mk_conf false true true) EmptyString []
                 end))
      as [A _].
    + discriminate.
    + reflexivity.
    + right. reflexivity.
    + cbn [app] in A. rewrite A. vm_compute. reflexivity.
Defined.

(** * Further properties *)

(** ** The word loops, in any locale *)

Lemma cursor_eta (L : locale) (c : cursor L) :
  mk_cursor (c_li c) (c_mst c) (c_have_space c) = c.
Proof. destruct c; reflexivity. Qed.

Lemma all_step_judge (L : locale) (c : cursor L) (b : byte) (tl : list byte) :
  all_step L c b tl
  = let '(ln, wd, hs', mst', rest) :=
      judge L (c_mst c) (c_have_space c) b tl in
    (mk_cursor (tick ln wd (c_li c)) mst' hs', rest).
Proof.
  unfold all_step, judge, tick.
  destruct (is_ascii (schar b) && is_print (schar b)).
  - destruct (is_space (schar b)); [reflexivity|].
    destruct (c_have_space c) eqn:Hs; [reflexivity|].
    destruct (schar b =? 10); [reflexivity|].
    rewrite <- Hs. rewrite cursor_eta. reflexivity.
  - destruct (mbrtowc L (c_mst c) (b :: tl)) as [r mst'].
    destruct (iswspace L (pwc_of r (uchar b))); [reflexivity|].
    destruct (c_have_space c) eqn:Hs; reflexivity.
Qed.

Lemma words_step_judge (L : locale) (c : cursor L) (b : byte)
    (tl : list byte) :
  words_step L c b tl
  = let '(ln, wd, hs', mst', rest) :=
      judge L (c_mst c) (c_have_space c) b tl in
    (mk_cursor (tick false wd (c_li c)) mst' hs', rest).
Proof.
  unfold words_step, judge, tick.
  destruct (is_ascii (schar b) && is_print (schar b)).
  - destruct (is_space (schar b)); [reflexivity|].
    destruct (c_have_space c) eqn:Hs; [reflexivity|].
    rewrite <- Hs. rewrite cursor_eta. reflexivity.
  - destruct (mbrtowc L (c_mst c) (b :: tl)) as [r mst'].
    destruct (iswspace L (pwc_of r (uchar b))); [reflexivity|].
    destruct (c_have_space c) eqn:Hs; reflexivity.
Qed.

Lemma credit_0 (li : lc_info) : credit 0 0 li = li.
Proof. destruct li; reflexivity. Qed.

Lemma credit_tick (ln wd : bool) (nl nw : nat) (li : lc_info) :
  credit nl nw (tick ln wd li)
  = credit (if ln then S nl else nl) (if wd then S nw else nw) li.
Proof.
  unfold credit, tick. destruct ln, wd; rewrite ?bump_S; destruct li;
    reflexivity.
Qed.

Lemma credit_credit (a b a' b' : nat) (li : lc_info) :
  credit a' b' (credit a b li) = credit (a + a') (b + b') li.
Proof. unfold credit. rewrite !bump_add. destruct li; reflexivity. Qed.

Lemma all_block_tally (L : locale) (fuel : nat) :
  forall (c : cursor L) (l : list byte),
    all_block L fuel c l
    = let '(nl, nw, m, h) := tally L fuel (c_mst c) (c_have_space c) l in
      mk_cursor (credit nl nw (c_li c)) m h.
Proof.
  induction fuel as [|k IH]; intros c l.
  - cbn. rewrite credit_0. symmetry. apply cursor_eta.
  - destruct l as [|b tl].
    + cbn. rewrite credit_0. symmetry. apply cursor_eta.
    + cbn [all_block tally]. rewrite all_step_judge.
      destruct (judge L (c_mst c) (c_have_space c) b tl)
        as [[[[ln wd] hs'] mst'] rest].
      rewrite IH. cbn [c_li c_mst c_have_space].
      destruct (tally L k mst' hs' rest) as [[[nl nw] m] h].
      rewrite credit_tick. reflexivity.
Qed.

Lemma words_block_tally (L : locale) (fuel : nat) :
  forall (c : cursor L) (l : list byte),
    words_block L fuel c l
    = let '(nl, nw, m, h) := tally L fuel (c_mst c) (c_have_space c) l in
      mk_cursor (credit 0 nw (c_li c)) m h.
Proof.
  induction fuel as [|k IH]; intros c l.
  - cbn. rewrite credit_0. symmetry. apply cursor_eta.
  - destruct l as [|b tl].
    + cbn. rewrite credit_0. symmetry. apply cursor_eta.
    + cbn [words_block tally]. rewrite words_step_judge.
      destruct (judge L (c_mst c) (c_have_space c) b tl)
        as [[[[ln wd] hs'] mst'] rest].
      rewrite IH. cbn [c_li c_mst c_have_space].
      destruct (tally L k mst' hs' rest) as [[[nl nw] m] h].
      rewrite (credit_tick false wd 0 nw). reflexivity.
Qed.

(** The read loop of [count_all] sums and stops as that of [count_bytes],
    and credits [li] with the lines and words of the script. *)
Lemma all_reads_tally (L : locale) (rs : list read_ret) :
  forall (c : cursor L) (sum : Z),
    let '(c', sum', rest) := all_reads L c sum rs in
    (sum', rest) = bytes_reads sum rs /\
    c_li c'
    = let '(nl, nw) := tally_reads L (c_mst c) (c_have_space c) rs in
      credit nl nw (c_li c).
Proof.
  induction rs as [|r rs IH]; intros c sum.
  - cbn. rewrite credit_0. split; reflexivity.
  - destruct r as [[|b t]|].
    + cbn. rewrite credit_0. split; reflexivity.
    + cbn [all_reads bytes_reads tally_reads ret_value].
      specialize (IH (all_block L (List.length (b :: t)) c (b :: t))
                     (uintmax (sum + uintmax (Z.of_nat (List.length (b :: t)))))).
      destruct (all_reads L _ _ rs) as [[c' sum'] rest].
      destruct IH as [E1 E2]. split; [exact E1|].
      rewrite E2, all_block_tally.
      destruct (tally L (List.length (b :: t)) (c_mst c) (c_have_space c)
                      (b :: t)) as [[[nl nw] m] h].
      cbn [c_li c_mst c_have_space].
      destruct (tally_reads L m h rs) as [nl' nw'].
      apply credit_credit.
    + cbn [all_reads bytes_reads tally_reads ret_value].
      specialize (IH c (uintmax (sum + uintmax (-1)))).
      destruct (all_reads L _ _ rs) as [[c' sum'] rest]. exact IH.
Qed.

Lemma words_reads_tally (L : locale) (rs : list read_ret) :
  forall (c : cursor L) (n : Z),
    let '(c', rest) := words_reads L c rs in
    rest = snd (bytes_reads n rs) /\
    c_li c'
    = let '(nl, nw) := tally_reads L (c_mst c) (c_have_space c) rs in
      credit 0 nw (c_li c).
Proof.
  induction rs as [|r rs IH]; intros c n.
  - cbn. rewrite credit_0. split; reflexivity.
  - destruct r as [[|b t]|].
    + cbn. rewrite credit_0. split; reflexivity.
    + cbn [words_reads bytes_reads tally_reads ret_value].
      specialize (IH (words_block L (List.length (b :: t)) c (b :: t))
                     (uintmax (n + uintmax (Z.of_nat (List.length (b :: t)))))).
      destruct (words_reads L _ rs) as [c' rest].
      destruct IH as [E1 E2]. split; [exact E1|].
      rewrite E2, words_block_tally.
      destruct (tally L (List.length (b :: t)) (c_mst c) (c_have_space c)
                      (b :: t)) as [[[nl nw] m] h].
      cbn [c_li c_mst c_have_space].
      destruct (tally_reads L m h rs) as [nl' nw'].
      apply (credit_credit 0 nw 0 nw').
    + cbn [words_reads bytes_reads tally_reads ret_value].
      specialize (IH c (uintmax (n + uintmax (-1)))).
      destruct (words_reads L _ rs) as [c' rest]. exact IH.
Qed.

Lemma count_all_any (L : locale) (li : lc_info) (st : stat_t)
    (cells : list byte) (rs : list read_ret) (k : nat) :
  count_all L li (mk_fd (Some st) (Some cells) rs k)
  = let '(nl, nw) := tally_reads L (mbstate_zero L) true rs in
    let '(sum, rest) := bytes_reads 0 rs in
    let d := if st_isreg st && (0 <? st_size st)
             then uintmax (st_size st) else 0 in
    Done (mk_info (if d =? 0 then sum else d) (bump nl 0) (bump nw 0)
                  (lines_total li) (words_total li) (bytes_total li),
          mk_fd (Some st) (Some cells) rest k).
Proof.
  unfold count_all. cbn [fd_stat fd_malloc fd_reads].
  match goal with
  | |- context [all_reads L ?c 0 rs] =>
      pose proof (all_reads_tally L rs c 0) as H;
      destruct (all_reads L c 0 rs) as [[c' sum'] rest']
  end.
  cbn [c_li c_mst c_have_space] in H. destruct H as [E1 E2].
  rewrite <- E1.
  destruct (tally_reads L (mbstate_zero L) true rs) as [nl nw].
  rewrite E2. unfold with_reads. cbn [fd_stat fd_malloc fd_closes].
  destruct (st_isreg st && (0 <? st_size st)); cbn;
    [destruct (uintmax (st_size st) =? 0)|]; reflexivity.
Qed.

Lemma count_words_any (L : locale) (li : lc_info) (st : option stat_t)
    (cells : list byte) (rs : list read_ret) (k : nat) :
  count_words L li (mk_fd st (Some cells) rs k)
  = let '(nl, nw) := tally_reads L (mbstate_zero L) true rs in
    Done (set_num_words li (bump nw 0),
          mk_fd st (Some cells) (snd (bytes_reads 0 rs)) (S k)).
Proof.
  unfold count_words. cbn [fd_malloc fd_reads].
  match goal with
  | |- context [words_reads L ?c rs] =>
      pose proof (words_reads_tally L rs c 0) as H;
      destruct (words_reads L c rs) as [c' rest']
  end.
  cbn [c_li c_mst c_have_space] in H. destruct H as [E1 E2].
  rewrite <- E1.
  destruct (tally_reads L (mbstate_zero L) true rs) as [nl nw].
  rewrite E2. destruct li; reflexivity.
Qed.

(** ** The lines-and-bytes loop and [li] *)

Lemma long_scan_graft (fuel : nat) (buf : list byte) (last : Z) :
  forall (p : Z) (li li' : lc_info),
    num_lines li = num_lines li' ->
    long_scan fuel buf p last li
    = option_map (fun a => set_num_lines li (num_lines a))
                 (long_scan fuel buf p last li').
Proof.
  induction fuel as [|k IH]; intros p li li' E; [reflexivity|].
  cbn [long_scan].
  destruct (memchr (skipn (Z.to_nat p) buf) 10) as [d|]; [|reflexivity].
  destruct (p + Z.of_nat d <? last).
  - rewrite (IH _ (incr_lines li) (incr_lines li')).
    + destruct (long_scan k buf (p + Z.of_nat d + 1) last (incr_lines li'));
        [|reflexivity].
      cbn [option_map]. destruct li; reflexivity.
    + unfold incr_lines. cbn. rewrite E. reflexivity.
  - cbn [option_map]. rewrite <- E. destruct li; reflexivity.
Qed.

Lemma sentinel_scan_graft (buf : list byte) (n : Z) (li li' : lc_info) :
  num_lines li = num_lines li' ->
  sentinel_scan buf n li
  = match sentinel_scan buf n li' with
    | Some (a, buf') => Some (set_num_lines li (num_lines a), buf')
    | None => None
    end.
Proof.
  intros E. unfold sentinel_scan.
  destruct (store_nl buf n) as [buf'|]; [|reflexivity].
  rewrite (long_scan_graft _ buf' n 0 li li' E).
  destruct (long_scan _ buf' 0 n li'); reflexivity.
Qed.

Lemma bytewise_graft (l : list byte) (li li' : lc_info) :
  num_lines li = num_lines li' ->
  bytewise l li = set_num_lines li (num_lines (bytewise l li')).
Proof.
  intros E. rewrite (bytewise_lines l li), (bytewise_lines l li'), E.
  destruct li'; reflexivity.
Qed.

Lemma num_lines_set (li : lc_info) (v : Z) : num_lines (set_num_lines li v) = v.
Proof. reflexivity. Qed.

(** The loop state with another [li]. *)
Lemma lb_reads_graft (rs : list read_ret) :
  forall (s : lb_state) (li : lc_info),
    num_lines li = num_lines (lb_li s) ->
    lb_reads (mk_lb li (lb_sum s) (lb_expect_long s) (lb_buf s) (lb_marks s)) rs
    = match lb_reads s rs with
      | Done (t, rest) =>
          Done (mk_lb (set_num_lines li (num_lines (lb_li t)))
                      (lb_sum t) (lb_expect_long t) (lb_buf t) (lb_marks t),
                rest)
      | Exit label => Exit label
      | Wild => Wild
      end.
Proof.
  induction rs as [|r rs IH]; intros [li_s sum el buf marks] li E;
    cbn [lb_li lb_sum lb_expect_long lb_buf lb_marks] in *.
  - cbn. rewrite <- E. destruct li; reflexivity.
  - destruct r as [[|b t]|].
    + cbn. rewrite <- E. destruct li; reflexivity.
    + rewrite !lb_reads_bytes. rewrite E.
      rewrite (sentinel_scan_graft _ _ li li_s E).
      generalize (uintmax (Z.of_nat (List.length (b :: t)) * 6) <=? num_lines li_s).
      generalize (uintmax (sum + uintmax (Z.of_nat (List.length (b :: t))))).
      generalize (sentinel_scan (fill buf (b :: t))
                    (Z.of_nat (List.length (b :: t))) li_s).
      generalize (fill buf (b :: t)).
      generalize (Z.of_nat (List.length (b :: t))).
      intros n bf sc sm el'.
      destruct el.
      * destruct sc as [[a bs]|]; [|reflexivity].
        pose proof (IH (mk_lb a sm true bs (n :: marks))
                       (set_num_lines li (num_lines a))
                       (num_lines_set _ _)) as H'.
        cbn [lb_li lb_sum lb_expect_long lb_buf lb_marks] in H'.
        rewrite H'.
        destruct (lb_reads _ rs) as [[t' rest]| |]; reflexivity.
      * rewrite (bytewise_graft (b :: t) li li_s E).
        pose proof (IH (mk_lb (bytewise (b :: t) li_s) sm el' bf marks)
                       (set_num_lines li (num_lines (bytewise (b :: t) li_s)))
                       (num_lines_set _ _)) as H'.
        cbn [lb_li lb_sum lb_expect_long lb_buf lb_marks] in H'.
        rewrite H'.
        destruct (lb_reads _ rs) as [[t' rest]| |]; reflexivity.
    + rewrite !lb_reads_fail. reflexivity.
Qed.

(** The loop never touches a field of [li] but [num_lines], and sums and
    stops as the loop of [count_bytes]. *)
Lemma lb_reads_sum (rs : list read_ret) :
  forall (s t : lb_state) (rest : list read_ret),
    lb_reads s rs = Done (t, rest) ->
    (lb_sum t, rest) = bytes_reads (lb_sum s) rs /\
    lb_li t = set_num_lines (lb_li s) (num_lines (lb_li t)).
Proof.
  induction rs as [|r rs IH]; intros [li sum el buf marks] t rest H;
    cbn [lb_li lb_sum] in *.
  - cbn in H. injection H as <- <-. split; [reflexivity|].
    destruct li; reflexivity.
  - destruct r as [[|b l]|].
    + cbn in H. injection H as <- <-. split; [reflexivity|].
      destruct li; reflexivity.
    + rewrite lb_reads_bytes in H. cbn [bytes_reads ret_value].
      destruct el.
      * rewrite (sentinel_scan_graft _ _ li li eq_refl) in H.
        destruct (sentinel_scan (fill buf (b :: l))
                    (Z.of_nat (List.length (b :: l))) li) as [[a bs]|];
          [|discriminate H].
        apply IH in H. cbn [lb_sum lb_li] in H. destruct H as [A B].
        split; [exact A|]. rewrite B. destruct li; reflexivity.
      * apply IH in H. cbn [lb_sum lb_li] in H. destruct H as [A B].
        split; [exact A|]. rewrite B, bytewise_lines.
        destruct li; reflexivity.
    + rewrite lb_reads_fail in H. discriminate H.
Qed.

(** ** What a scan writes in [li] *)

Lemma count_all_frame (L : locale) (li : lc_info) (f : fdesc) :
  count_all L li f
  = match count_all L li0 f with
    | Done (a, f') => Done (graft li a, f')
    | Exit label => Exit label
    | Wild => Wild
    end.
Proof.
  destruct f as [[st|] [cells|] rs k]; try reflexivity.
  rewrite !count_all_any.
  destruct (tally_reads L (mbstate_zero L) true rs) as [nl nw].
  destruct (bytes_reads 0 rs) as [sum rest]. reflexivity.
Qed.

Lemma count_words_frame (L : locale) (li : lc_info) (f : fdesc) :
  count_words L li f
  = match count_words L li0 f with
    | Done (a, f') => Done (set_num_words li (num_words a), f')
    | Exit label => Exit label
    | Wild => Wild
    end.
Proof.
  destruct f as [st [cells|] rs k]; try reflexivity.
  rewrite !count_words_any.
  destruct (tally_reads L (mbstate_zero L) true rs) as [nl nw]. reflexivity.
Qed.

Lemma count_bytes_frame (li : lc_info) (f : fdesc) :
  count_bytes li f
  = match count_bytes li0 f with
    | Done (a, f') => Done (set_num_bytes li (num_bytes a), f')
    | Exit label => Exit label
    | Wild => Wild
    end.
Proof.
  unfold count_bytes. destruct (fd_stat f) as [st|]; [|reflexivity].
  destruct (st_isreg st && (0 <? st_size st)); [reflexivity|].
  destruct (fd_malloc f); [|reflexivity].
  cbn [set_num_bytes num_bytes].
  destruct (bytes_reads 0 (fd_reads f)) as [n rest]. reflexivity.
Qed.

Lemma count_lines_and_bytes_frame (li : lc_info) (f : fdesc) :
  count_lines_and_bytes li f
  = match count_lines_and_bytes li0 f with
    | Done (a, f') =>
        Done (set_num_lines (set_num_bytes li (num_bytes a)) (num_lines a), f')
    | Exit label => Exit label
    | Wild => Wild
    end.
Proof.
  unfold count_lines_and_bytes.
  destruct (fd_malloc f) as [cells|]; [|reflexivity].
  destruct (fd_stat f) as [st|]; [|reflexivity].
  pose proof (lb_reads_graft (fd_reads f) (lb_init li0 st cells)
                (lb_li (lb_init li st cells))) as G.
  change (mk_lb (lb_li (lb_init li st cells))
                (lb_sum (lb_init li0 st cells))
                (lb_expect_long (lb_init li0 st cells))
                (lb_buf (lb_init li0 st cells))
                (lb_marks (lb_init li0 st cells)))
    with (lb_init li st cells) in G.
  rewrite G by reflexivity. clear G.
  destruct (lb_reads (lb_init li0 st cells) (fd_reads f))
    as [[t rest]| |] eqn:R; try reflexivity.
  destruct (lb_reads_sum _ _ _ _ R) as [_ B].
  cbn [lb_li lb_sum]. rewrite B. unfold lb_init. cbn.
  destruct (st_isreg st && (0 <? st_size st)); cbn;
    [destruct (uintmax (st_size st) =? 0)|]; destruct li; reflexivity.
Qed.

(** X1. What each scan routine leaves in [li] does not depend on what [li]
    held: [count_all] writes the three counts, [count_words] only
    [num_words], [count_bytes] only [num_bytes], [count_lines_and_bytes]
    only [num_bytes] and [num_lines], all with the values the scan of a
    zeroed [li] gives; no routine touches a total.  This holds in any
    locale and whatever the reads return. *)
Theorem scan_frame :
  (forall L li f,
      count_all L li f
      = match count_all L li0 f with
        | Done (a, f') => Done (graft li a, f')
        | Exit label => Exit label
        | Wild => Wild
        end) /\
  (forall L li f,
      count_words L li f
      = match count_words L li0 f with
        | Done (a, f') => Done (set_num_words li (num_words a), f')
        | Exit label => Exit label
        | Wild => Wild
        end) /\
  (forall li f,
      count_bytes li f
      = match count_bytes li0 f with
        | Done (a, f') => Done (set_num_bytes li (num_bytes a), f')
        | Exit label => Exit label
        | Wild => Wild
        end) /\
  (forall li f,
      count_lines_and_bytes li f
      = match count_lines_and_bytes li0 f with
        | Done (a, f') =>
            Done (set_num_lines (set_num_bytes li (num_bytes a)) (num_lines a),
                  f')
        | Exit label => Exit label
        | Wild => Wild
        end).
Proof.
  split; [|split; [|split]].
  - apply count_all_frame.
  - apply count_words_frame.
  - apply count_bytes_frame.
  - apply count_lines_and_bytes_frame.
Qed.

(** X2. The text [use_opts] prints for a file, the mode it hands back and
    the state it leaves the descriptor in do not depend on the [li] it is
    given, so not on the files scanned before, in any locale and whatever
    the reads return: the counters a mode prints are those its routine
    computes afresh. *)
Theorem text_forgets_li (L : locale) (lc : lc_conf) (f : fdesc)
    (li1 li2 : lc_info) :
  match use_opts L li1 lc f, use_opts L li2 lc f with
  | Done (_, lc1, t1, f1), Done (_, lc2, t2, f2) =>
      lc1 = lc2 /\ t1 = t2 /\ f1 = f2
  | Exit a, Exit b => a = b
  | Wild, Wild => True
  | _, _ => False
  end.
Proof.
  unfold use_opts.
  rewrite (count_all_frame L li1), (count_all_frame L li2).
  rewrite (count_words_frame L li1), (count_words_frame L li2).
  rewrite (count_bytes_frame li1), (count_bytes_frame li2).
  rewrite (count_lines_and_bytes_frame li1), (count_lines_and_bytes_frame li2).
  destruct (count_all L li0 f) as [[a1 f1]| |];
    destruct (count_words L li0 f) as [[a2 f2]| |];
    destruct (count_bytes li0 f) as [[a3 f3]| |];
    destruct (count_lines_and_bytes li0 f) as [[a4 f4]| |];
    destruct lc as [[|] [|] [|]];
    cbn [opt_bytes opt_lines opt_words negb andb]; unfold report;
    cbv beta iota;
    first [exact I | reflexivity | repeat split; reflexivity].
Qed.

(** ** The combined scan against the single scans *)

(** X3. In any locale and whatever the reads return, when [fstat] and
    [malloc] succeed, [count_all] leaves the word count of [count_words] and
    the byte count of [count_bytes], and stops at the same read as
    [count_words]; when [count_lines_and_bytes] returns it leaves that byte
    count too. *)
Theorem single_scans_agree (L : locale) (l1 l2 l3 l4 : lc_info) (f : fdesc)
    (st : stat_t) (cells : list byte) :
  fd_stat f = Some st ->
  fd_malloc f = Some cells ->
  st_size st < 2 ^ 63 ->
  exists la fa lw fw lb fb,
    count_all L l1 f = Done (la, fa) /\
    count_words L l2 f = Done (lw, fw) /\
    count_bytes l3 f = Done (lb, fb) /\
    num_words la = num_words lw /\
    num_bytes la = num_bytes lb /\
    fd_reads fa = fd_reads fw /\
    (forall ll fl,
        count_lines_and_bytes l4 f = Done (ll, fl) ->
        num_bytes ll = num_bytes lb).
Proof.
  destruct f as [s m rs k]. cbn [fd_stat fd_malloc].
  intros -> -> Hs.
  rewrite count_all_any, count_words_any.
  unfold count_bytes, count_lines_and_bytes.
  cbn [fd_stat fd_malloc fd_reads set_num_bytes num_bytes].
  destruct (tally_reads L (mbstate_zero L) true rs) as [nl nw].
  destruct (bytes_reads 0 rs) as [sum rest] eqn:B.
  assert (D : st_isreg st && (0 <? st_size st) = true ->
              (uintmax (st_size st) =? 0) = false).
  { intros E. destruct (declared_nonzero st) as [A C]; [lia|exact E|].
    rewrite A. exact C. }
  destruct (st_isreg st && (0 <? st_size st)) eqn:E.
  - rewrite (D eq_refl).
    do 6 eexists. repeat split.
    intros ll fl H.
    destruct (lb_reads (lb_init l4 st cells) rs) as [[t r']| |] eqn:R;
      try discriminate H.
    destruct (lb_reads_sum _ _ _ _ R) as [_ Hli].
    injection H as <- _. rewrite Hli. unfold lb_init. rewrite E. cbn.
    rewrite (D eq_refl). reflexivity.
  - do 6 eexists. repeat split.
    intros ll fl H.
    destruct (lb_reads (lb_init l4 st cells) rs) as [[t r']| |] eqn:R;
      try discriminate H.
    destruct (lb_reads_sum _ _ _ _ R) as [Hs' Hli].
    injection H as <- _. rewrite Hli. unfold lb_init in *. rewrite E in *.
    cbn in *. rewrite B in Hs'. injection Hs' as -> _. reflexivity.
Qed.

(** The hypotheses of [single_scans_agree] hold on a pipe whose first read
    fails, in the UTF-8 locale. *)
Lemma single_scans_agree_witness :
  exists la fa lw fw lb fb,
    count_all utf8_locale li0 (pipe [Fail; Bytes (bytes_of "a b")])
    = Done (la, fa) /\
    count_words utf8_locale li0 (pipe [Fail; Bytes (bytes_of "a b")])
    = Done (lw, fw) /\
    count_bytes li0 (pipe [Fail; Bytes (bytes_of "a b")]) = Done (lb, fb) /\
    num_words la = num_words lw /\
    num_bytes la = num_bytes lb.
Proof.
  destruct (single_scans_agree utf8_locale li0 li0 li0 li0
              (pipe [Fail; Bytes (bytes_of "a b")]) (mk_stat false 0)
              (repeat "000"%byte MAXSIZE) eq_refl eq_refl eq_refl)
    as [la [fa [lw [fw [lb [fb [A [B [C [D [E _]]]]]]]]]]].
  exists la, fa, lw, fw, lb, fb. repeat split; assumption.
Defined.

(** ** The columns of use_opts and of the total line *)

Lemma effective_idem (lc : lc_conf) : effective (effective lc) = effective lc.
Proof. destruct lc as [[|] [|] [|]]; reflexivity. Qed.

Lemma use_opts_effective (L : locale) (li : lc_info) (lc : lc_conf)
    (f : fdesc) :
  use_opts L li (effective lc) f = use_opts L li lc f.
Proof. destruct lc as [[|] [|] [|]]; reflexivity. Qed.

(** What [use_opts] returns, against the scan of the same file from a
    zeroed [li]. *)
Lemma use_opts_alone (L : locale) (li : lc_info) (lc : lc_conf) (f : fdesc)
    (li' : lc_info) (lc' : lc_conf) (text : string) (f' : fdesc) :
  use_opts L li lc f = Done (li', lc', text, f') ->
  let m := effective lc in
  exists c,
    use_opts L li0 lc f = Done (c, lc', text, f') /\
    lc' = m /\
    text = count_line m c /\
    text = count_line m li' /\
    lines_total li'
    = (if opt_lines m then uintmax (lines_total li + num_lines c)
       else lines_total li) /\
    words_total li'
    = (if opt_words m then uintmax (words_total li + num_words c)
       else words_total li) /\
    bytes_total li'
    = (if opt_bytes m then uintmax (bytes_total li + num_bytes c)
       else bytes_total li).
Proof.
  cbv zeta. unfold use_opts.
  rewrite (count_all_frame L li), (count_words_frame L li).
  rewrite (count_bytes_frame li), (count_lines_and_bytes_frame li).
  destruct lc as [[|] [|] [|]];
    cbn [opt_bytes opt_lines opt_words negb andb effective]; unfold report;
    try (destruct (count_all L li0 f) as [[a fa]| |]; [|discriminate..]);
    try (destruct (count_words L li0 f) as [[a fa]| |]; [|discriminate..]);
    try (destruct (count_bytes li0 f) as [[a fa]| |]; [|discriminate..]);
    try (destruct (count_lines_and_bytes li0 f) as [[a fa]| |];
         [|discriminate..]);
    intros H; injection H as <- <- <- <-;
    eexists; (split; [reflexivity|]);
    unfold count_line, columns;
    cbn [opt_bytes opt_lines opt_words add_totals graft set_num_bytes
         set_num_lines set_num_words num_bytes num_lines num_words
         lines_total words_total bytes_total li0 String.append];
    rewrite ?str_app_nil_r; repeat split; reflexivity.
Qed.

Lemma total_line_columns (lc : lc_conf) (li : lc_info) :
  total_line lc li
  = (columns (effective lc) (lines_total li) (words_total li) (bytes_total li)
     ++ " total" ++ nl)%string.
Proof.
  destruct lc as [[|] [|] [|]]; unfold total_line, columns;
    cbn [opt_bytes opt_lines opt_words negb andb effective String.append];
    rewrite ?str_app_nil_r, ?str_app_assoc; reflexivity.
Qed.

(** X4. When [use_opts] returns, the mode it hands back is the mode it was
    given, the empty mode made the full one; the text is the counters of
    that mode in the order lines, words, bytes, each as [%12ju], whatever
    branch computed them; and exactly the totals of that mode have grown,
    each by its counter, modulo 2^64. *)
Theorem use_opts_columns (L : locale) (li : lc_info) (lc : lc_conf)
    (f : fdesc) (li' : lc_info) (lc' : lc_conf) (text : string) (f' : fdesc) :
  use_opts L li lc f = Done (li', lc', text, f') ->
  lc' = effective lc /\
  text = columns lc' (num_lines li') (num_words li') (num_bytes li') /\
  lines_total li'
  = (if opt_lines lc' then uintmax (lines_total li + num_lines li')
     else lines_total li) /\
  words_total li'
  = (if opt_words lc' then uintmax (words_total li + num_words li')
     else words_total li) /\
  bytes_total li'
  = (if opt_bytes lc' then uintmax (bytes_total li + num_bytes li')
     else bytes_total li).
Proof.
  unfold use_opts.
  rewrite (count_all_frame L li), (count_words_frame L li).
  rewrite (count_bytes_frame li), (count_lines_and_bytes_frame li).
  destruct lc as [[|] [|] [|]];
    cbn [opt_bytes opt_lines opt_words negb andb effective]; unfold report;
    try (destruct (count_all L li0 f) as [[a fa]| |]; [|discriminate..]);
    try (destruct (count_words L li0 f) as [[a fa]| |]; [|discriminate..]);
    try (destruct (count_bytes li0 f) as [[a fa]| |]; [|discriminate..]);
    try (destruct (count_lines_and_bytes li0 f) as [[a fa]| |];
         [|discriminate..]);
    intros H; injection H as <- <- <- <-;
    unfold columns;
    cbn [opt_bytes opt_lines opt_words add_totals graft set_num_bytes
         set_num_lines set_num_words num_bytes num_lines num_words
         lines_total words_total bytes_total String.append];
    rewrite ?str_app_nil_r; repeat split; reflexivity.
Qed.

(** The hypothesis of [use_opts_columns] holds for the file "d e\n" in the
    mode of lines and words. *)
Lemma use_opts_columns_witness :
  let lc := mk_conf false true true in
  let r := result_of (use_opts byte_locale li0 lc
                        (regular 4 [Bytes (bytes_of ("d e" ++ nl))])) in
  let li' := fst (fst (fst r)) in
  let lc' := snd (fst (fst r)) in
  lc' = effective lc /\
  snd (fst r) = columns lc' (num_lines li') (num_words li') (num_bytes li') /\
  lines_total li'
  = (if opt_lines lc' then uintmax (lines_total li0 + num_lines li')
     else lines_total li0) /\
  words_total li'
  = (if opt_words lc' then uintmax (words_total li0 + num_words li')
     else words_total li0) /\
  bytes_total li'
  = (if opt_bytes lc' then uintmax (bytes_total li0 + num_bytes li')
     else bytes_total li0).
Proof.
  cbv zeta.
  set (r := result_of (use_opts byte_locale li0 (mk_conf false true true)
                         (regular 4 [Bytes (bytes_of ("d e" ++ nl))]))).
  exact (use_opts_columns byte_locale li0 (mk_conf false true true)
           (regular 4 [Bytes (bytes_of ("d e" ++ nl))])
           (fst (fst (fst r))) (snd (fst (fst r))) (snd (fst r)) (snd r)
           eq_refl).
Defined.

(** ** The totals of main *)

Lemma alone_effective (L : locale) (open : string -> option fdesc)
    (lc : lc_conf) (arg : string) (c : lc_info) :
  alone L open (effective lc) arg c -> alone L open lc arg c.
Proof.
  intros [Hd [f [lc' [text [f' [Ho Hu]]]]]]. split; [exact Hd|].
  exists f, lc', text, f'. split; [exact Ho|].
  rewrite <- use_opts_effective. exact Hu.
Qed.

Lemma columns_enabled (m : lc_conf) (l w b l' w' b' : Z) :
  (opt_lines m = true -> l = l') ->
  (opt_words m = true -> w = w') ->
  (opt_bytes m = true -> b = b') ->
  columns m l w b = columns m l' w' b'.
Proof.
  intros Hl Hw Hb. unfold columns.
  destruct (opt_lines m), (opt_words m), (opt_bytes m);
    rewrite ?(Hl eq_refl), ?(Hw eq_refl), ?(Hb eq_refl); reflexivity.
Qed.

Section Totals.

Variable L : locale.
Variable open : string -> option fdesc.

Lemma file_loop_sums (argv : list string) :
  forall (r r' : run),
    wrapped (lines_total (r_li r)) ->
    wrapped (words_total (r_li r)) ->
    wrapped (bytes_total (r_li r)) ->
    file_loop L open r argv = inl r' ->
    let m := effective (r_lc r) in
    exists cs,
      Forall2 (alone L open (r_lc r)) argv cs /\
      r_out r'
      = (r_out r ++ listing (combine (map (count_line m) cs) argv))%string /\
      r_lc r' = (match argv with [] => r_lc r | _ => m end) /\
      lines_total (r_li r')
      = (if opt_lines m
         then uintmax (lines_total (r_li r) + sum_of num_lines cs)
         else lines_total (r_li r)) /\
      words_total (r_li r')
      = (if opt_words m
         then uintmax (words_total (r_li r) + sum_of num_words cs)
         else words_total (r_li r)) /\
      bytes_total (r_li r')
      = (if opt_bytes m
         then uintmax (bytes_total (r_li r) + sum_of num_bytes cs)
         else bytes_total (r_li r)).
Proof.
  induction argv as [|arg argv IH]; intros r r' Wl Ww Wb H; cbv zeta.
  - injection H as <-. exists []. cbn [sum_of fold_right map combine listing].
    rewrite str_app_nil_r, !Z.add_0_r, !uintmax_id by assumption.
    split; [constructor|]. split; [reflexivity|]. split; [reflexivity|].
    destruct (opt_lines _), (opt_words _), (opt_bytes _); repeat split.
  - cbn [file_loop] in H.
    destruct (bare_dash arg) eqn:Hd; [discriminate H|].
    destruct (open arg) as [f|] eqn:Ho; [|discriminate H].
    destruct (use_opts L (r_li r) (r_lc r) f) as [[[[li1 lc1] text] f1]| |] eqn:Hu;
      try discriminate H.
    destruct (use_opts_alone _ _ _ _ _ _ _ _ Hu) as [c [Hc [Hm [Ht [_ [Tl [Tw Tb]]]]]]].
    set (m := effective (r_lc r)) in *.
    apply IH in H; cbn [r_li r_lc r_out] in *.
    2:{ rewrite Tl. destruct (opt_lines m); [apply uintmax_wrapped|exact Wl]. }
    2:{ rewrite Tw. destruct (opt_words m); [apply uintmax_wrapped|exact Ww]. }
    2:{ rewrite Tb. destruct (opt_bytes m); [apply uintmax_wrapped|exact Wb]. }
    destruct H as [cs [F [O [M [Sl [Sw Sb]]]]]].
    assert (Em : effective lc1 = m) by (rewrite Hm; apply effective_idem).
    rewrite Em in *.
    exists (c :: cs). split; [|split; [|split; [|split; [|split]]]].
    + constructor.
      * split; [exact Hd|]. exists f, lc1, text, f1. split; assumption.
      * rewrite Hm in F.
        eapply Forall2_impl; [|exact F]. intros a b. apply alone_effective.
    + rewrite O. cbn [map combine listing]. rewrite <- Ht.
      fold (file_line text arg). apply str_app_assoc.
    + rewrite M. destruct argv; [exact Hm|reflexivity].
    + rewrite Sl, Tl. cbn [sum_of fold_right]. fold (sum_of num_lines cs).
      destruct (opt_lines m); [|reflexivity].
      rewrite uintmax_add_l. f_equal. lia.
    + rewrite Sw, Tw. cbn [sum_of fold_right]. fold (sum_of num_words cs).
      destruct (opt_words m); [|reflexivity].
      rewrite uintmax_add_l. f_equal. lia.
    + rewrite Sb, Tb. cbn [sum_of fold_right]. fold (sum_of num_bytes cs).
      destruct (opt_bytes m); [|reflexivity].
      rewrite uintmax_add_l. f_equal. lia.
Qed.

End Totals.

(** X5. When every argument opens and is scanned to the end, [main] ends
    with status 0 and nothing on standard error; standard output is, for
    each argument in order, the count line that file gives when scanned on
    its own, followed by its name, and, when there are two arguments or
    more, one total line whose columns are those of the count lines and
    whose numbers are the sums of the files' counters modulo 2^64. *)
Theorem totals_are_sums (L : locale) (open : string -> option fdesc)
    (lc : lc_conf) (argv : list string) (r : run) :
  argv <> [] ->
  file_loop L open (mk_run li0 lc EmptyString []) argv = inl r ->
  let m := effective lc in
  exists cs,
    Forall2 (alone L open lc) argv cs /\
    main L open lc argv
    = mk_process
        (String.append
           (listing (combine (map (count_line m) cs) argv))
           (if 1 <? Z.of_nat (List.length argv)
            then (columns m (uintmax (sum_of num_lines cs))
                            (uintmax (sum_of num_words cs))
                            (uintmax (sum_of num_bytes cs))
                  ++ " total" ++ nl)%string
            else EmptyString))
        [] (Status 0) (r_fds r).
Proof.
  intros Hne H. cbv zeta.
  destruct (file_loop_sums L open argv (mk_run li0 lc EmptyString []) r
              wrapped_0 wrapped_0 wrapped_0 H)
    as [cs [F [O [M [Sl [Sw Sb]]]]]].
  cbn [r_li r_lc r_out lines_total words_total bytes_total li0] in *.
  exists cs. split; [exact F|].
  unfold main. destruct argv as [|a argv']; [contradiction|].
  fold li0. rewrite H. unfold finish. f_equal.
  rewrite O. cbn [String.append].
  destruct (1 <? Z.of_nat (List.length (a :: argv')));
    [|symmetry; apply str_app_nil_r].
  f_equal. rewrite total_line_columns, M, effective_idem. f_equal.
  apply columns_enabled; intros E.
  - rewrite Sl, E. reflexivity.
  - rewrite Sw, E. reflexivity.
  - rewrite Sb, E. reflexivity.
Qed.

(** The hypotheses of [totals_are_sums] hold for [-lw f1 f2]. *)
Lemma totals_are_sums_witness :
  exists cs,
    Forall2 (alone byte_locale two_files (mk_conf false true true))
            ["f1"; "f2"]%string cs /\
    p_stdout (main byte_locale two_files (mk_conf false true true)
                ["f1"; "f2"]%string)
    = (listing (combine (map (count_line (mk_conf false true true)) cs)
                        ["f1"; "f2"]%string)
       ++ columns (mk_conf false true true)
            (uintmax (sum_of num_lines cs)) (uintmax (sum_of num_words cs))
            (uintmax (sum_of num_bytes cs))
       ++ " total" ++ nl)%string.
Proof.
  destruct (totals_are_sums byte_locale two_files (mk_conf false true true)
              ["f1"; "f2"]%string
              (match file_loop byte_locale two_files
                       (mk_run li0 (mk_conf false true true) EmptyString [])
                       ["f1"; "f2"]%string
               with
               | inl r => r
               | inr _ => mk_run li0 (mk_conf false true true) EmptyString []
               end))
    as [cs [F E]].
  - discriminate.
  - reflexivity.
  - exists cs. split; [exact F|]. rewrite E. reflexivity.
Defined.

(** X6. Without file arguments [main] scans "/dev/stdin" once: when it
    opens and the scan returns, standard output is the count line of the
    effective mode followed by a newline, with no name and no total line,
    the descriptor is closed by [main] and the status is 0; when it does
    not open, nothing is printed and the process exits with
    [EXIT_FAILURE]. *)
Theorem stdin_run (L : locale) (open : string -> option fdesc) (lc : lc_conf) :
  (open "/dev/stdin"%string = None ->
   main L open lc []
   = mk_process EmptyString ["open()"%string] (Status EXIT_FAILURE) []) /\
  (forall f li' lc' text f',
      open "/dev/stdin"%string = Some f ->
      use_opts L li0 lc f = Done (li', lc', text, f') ->
      main L open lc []
      = mk_process (count_line (effective lc) li' ++ nl)%string [] (Status 0)
                   [close f']).
Proof.
  split.
  - intros H. unfold main. rewrite H. reflexivity.
  - intros f li' lc' text f' Ho Hu. unfold main. rewrite Ho.
    cbn [r_li]. fold li0. rewrite Hu.
    destruct (use_opts_alone _ _ _ _ _ _ _ _ Hu) as [c [_ [_ [_ [T _]]]]].
    rewrite T. reflexivity.
Qed.

(** The hypotheses of [stdin_run] hold both ways: with no "/dev/stdin",
    and with the pipe "a b\n" behind it in the mode of words. *)
Lemma stdin_run_witness :
  p_end (main byte_locale (fun _ => None) (mk_conf false false true) [])
  = Status EXIT_FAILURE /\
  p_stdout (main byte_locale
              (one_file "/dev/stdin" (pipe [Bytes (bytes_of ("a b" ++ nl))]))
              (mk_conf false false true) [])
  = ("           2" ++ nl)%string.
Proof.
  split.
  - rewrite (proj1 (stdin_run byte_locale (fun _ => None)
                      (mk_conf false false true)) eq_refl).
    reflexivity.
  - set (fs := one_file "/dev/stdin" (pipe [Bytes (bytes_of ("a b" ++ nl))])).
    set (r := result_of (use_opts byte_locale li0 (mk_conf false false true)
                           (pipe [Bytes (bytes_of ("a b" ++ nl))]))).
    rewrite (proj2 (stdin_run byte_locale fs (mk_conf false false true))
               (pipe [Bytes (bytes_of ("a b" ++ nl))])
               (fst (fst (fst r))) (snd (fst (fst r))) (snd (fst r)) (snd r)
               eq_refl eq_refl).
    vm_compute. reflexivity.
Defined.

(** ** The option loop *)

Lemma getopt_loop_counters (opts : list ascii) :
  forall lc,
    forallb counter_opt opts = true ->
    getopt_loop lc opts
    = inl (mk_conf (opt_bytes lc || existsb (Ascii.eqb "b") opts)
                   (opt_lines lc || existsb (Ascii.eqb "l") opts)
                   (opt_words lc || existsb (Ascii.eqb "w") opts)).
Proof.
  induction opts as [|a opts IH]; intros lc H.
  - cbn. rewrite !orb_false_r. destruct lc; reflexivity.
  - cbn [forallb] in H. apply andb_prop in H. destruct H as [Ha Ho].
    cbn [getopt_loop existsb]. unfold counter_opt in Ha.
    rewrite !(Ascii.eqb_sym _ a).
    destruct (Ascii.eqb_spec a "b") as [->|Nb].
    + rewrite (IH _ Ho). cbn. rewrite !orb_true_r. reflexivity.
    + destruct (Ascii.eqb_spec a "l") as [->|Nl].
      * rewrite (IH _ Ho). cbn. rewrite !orb_true_r. reflexivity.
      * destruct (Ascii.eqb_spec a "w") as [->|Nw]; [|discriminate Ha].
        rewrite (IH _ Ho). cbn. rewrite !orb_true_r. reflexivity.
Qed.

(** X7. When [getopt] returns only 'b', 'l' and 'w', the option loop ends
    with exactly the flags whose letter occurred: the order of the options
    and their repetition do not matter. *)
Theorem flags_accumulate (opts : list ascii) :
  forallb counter_opt opts = true ->
  getopt_loop (mk_conf false false false) opts
  = inl (mk_conf (existsb (Ascii.eqb "b") opts)
                 (existsb (Ascii.eqb "l") opts)
                 (existsb (Ascii.eqb "w") opts)) /\
  (forall opts',
      forallb counter_opt opts' = true ->
      (forall a, In a opts <-> In a opts') ->
      getopt_loop (mk_conf false false false) opts'
      = getopt_loop (mk_conf false false false) opts).
Proof.
  intros H.
  split; [exact (getopt_loop_counters opts (mk_conf false false false) H)|].
  intros opts' H' Hin.
  rewrite (getopt_loop_counters opts (mk_conf false false false) H),
          (getopt_loop_counters opts' (mk_conf false false false) H').
  cbn [opt_bytes opt_lines opt_words orb].
  assert (E : forall c, existsb (Ascii.eqb c) opts' = existsb (Ascii.eqb c) opts).
  { intros c. apply eq_true_iff_eq. rewrite !existsb_exists.
    split; intros [x [Hx Hc]]; exists x; (split; [apply Hin; exact Hx|exact Hc]). }
  rewrite !E. reflexivity.
Qed.

(** The hypothesis of [flags_accumulate] holds for [-w -l -w], which gives
    the flags of [-lw]. *)
Lemma flags_accumulate_witness :
  getopt_loop (mk_conf false false false) ["w"; "l"; "w"]%char
  = inl (mk_conf false true true) /\
  getopt_loop (mk_conf false false false) ["l"; "w"]%char
  = getopt_loop (mk_conf false false false) ["w"; "l"; "w"]%char.
Proof.
  destruct (flags_accumulate ["w"; "l"; "w"]%char eq_refl) as [A B].
  split; [exact A|].
  apply B; [reflexivity|].
  intros a. cbn [In]. tauto.
Defined.

(** X8. The first option that is not 'b', 'l' or 'w' ends the process
    before any file is opened, whatever follows it: 'h' prints the usage
    text on standard output and exits with 0; any other value prints it on
    standard error and exits with [EXIT_FAILURE]; no count is printed. *)
Theorem usage_stops (L : locale) (open : string -> option fdesc)
    (pre : list ascii) (x : ascii) (post : list ascii) (argv : list string) :
  forallb counter_opt pre = true ->
  counter_opt x = false ->
  main_argv L open (pre ++ x :: post) argv
  = if Ascii.eqb x "h"
    then mk_process usage_text [] (Status 0) []
    else mk_process EmptyString [usage_text] (Status EXIT_FAILURE) [].
Proof.
  intros Hpre Hx. unfold main_argv.
  assert (G : forall lc,
             getopt_loop lc (pre ++ x :: post)
             = inr (if Ascii.eqb x "h" then usage 0 else usage EXIT_FAILURE)).
  { induction pre as [|a pre IH]; intros lc.
    - cbn [app getopt_loop]. unfold counter_opt in Hx.
      apply orb_false_elim in Hx. destruct Hx as [Hx Hw].
      apply orb_false_elim in Hx. destruct Hx as [Hb Hl].
      rewrite Hb, Hl, Hw. destruct (Ascii.eqb x "h"); reflexivity.
    - cbn [forallb] in Hpre. apply andb_prop in Hpre. destruct Hpre as [Ha Hp].
      cbn [app getopt_loop]. unfold counter_opt in Ha.
      destruct (Ascii.eqb a "b"); [apply IH; exact Hp|].
      destruct (Ascii.eqb a "l"); [apply IH; exact Hp|].
      destruct (Ascii.eqb a "w"); [apply IH; exact Hp|discriminate Ha]. }
  rewrite G. destruct (Ascii.eqb x "h"); reflexivity.
Qed.

(** The hypotheses of [usage_stops] hold for [-l -h -x f1] and for
    [-l -x -h f1]. *)
Lemma usage_stops_witness :
  main_argv byte_locale two_files ["l"; "h"; "x"]%char ["f1"%string]
  = mk_process usage_text [] (Status 0) [] /\
  main_argv byte_locale two_files ["l"; "x"; "h"]%char ["f1"%string]
  = mk_process EmptyString [usage_text] (Status EXIT_FAILURE) [].
Proof.
  split.
  - exact (usage_stops byte_locale two_files ["l"%char] "h"%char ["x"%char]
             ["f1"%string] eq_refl eq_refl).
  - exact (usage_stops byte_locale two_files ["l"%char] "x"%char ["h"%char]
             ["f1"%string] eq_refl eq_refl).
Defined.

(** ** The block of count_lines_and_bytes *)

(** X9. When the block has its [MAXSIZE] cells and every read delivers at
    least one byte and fewer than [MAXSIZE], the read loop of
    [count_lines_and_bytes] runs to the end of the reads, the block keeps
    its length, and every sentinel store it makes is at an offset inside
    the block. *)
Theorem sentinel_inside_block (li : lc_info) (st : stat_t)
    (cells : list byte) (rs : list read_ret) :
  List.length cells = MAXSIZE ->
  forallb short rs = true ->
  exists t,
    lb_reads (lb_init li st cells) rs = Done (t, []) /\
    List.length (lb_buf t) = MAXSIZE /\
    Forall (fun m => 0 <= m < Z.of_nat MAXSIZE) (lb_marks t).
Proof.
  intros Hc Hs.
  destruct (lb_reads_room rs (lb_init li st cells) Hs Hc) as [t [A [B C]]].
  exists t. split; [exact A|]. split; [exact B|].
  apply C. constructor.
Qed.

(** The hypotheses of [sentinel_inside_block] hold on reads that promote
    the scan and then deliver five bytes. *)
Lemma sentinel_inside_block_witness :
  exists t,
    lb_reads (lb_init li0 (mk_stat false 0) (repeat "000"%byte MAXSIZE))
             [Bytes (repeat NL 6); Bytes (bytes_of "a");
              Bytes (bytes_of ("a" ++ nl ++ "b" ++ nl ++ nl))]
    = Done (t, []) /\
    List.length (lb_buf t) = MAXSIZE /\
    Forall (fun m => 0 <= m < Z.of_nat MAXSIZE) (lb_marks t).
Proof.
  apply sentinel_inside_block.
  - apply repeat_length.
  - vm_compute. reflexivity.
Defined.

Lemma lb_reads_sparse (rs : list read_ret) :
  forall s : lb_state,
    forallb delivers rs = true ->
    forallb fits rs = true ->
    lb_expect_long s = false ->
    0 <= num_lines (lb_li s) ->
    num_lines (lb_li s) + Z.of_nat (newlines (stream rs)) < 6 ->
    exists t,
      lb_reads s rs = Done (t, []) /\
      lb_expect_long t = false /\
      lb_marks t = lb_marks s.
Proof.
  induction rs as [|r rs IH]; intros [li sum el buf marks] Hd Hf He H0 Hn;
    cbn [lb_li lb_expect_long lb_marks] in *.
  - eexists. split; [reflexivity|]. split; [exact He|reflexivity].
  - cbn [forallb] in Hd, Hf.
    apply andb_prop in Hd. destruct Hd as [Hr Hrs].
    apply andb_prop in Hf. destruct Hf as [Hfr Hfs].
    destruct r as [[|b t]|]; try discriminate Hr.
    cbn [fits] in Hfr. apply Nat.leb_le in Hfr.
    cbn [stream flat_map] in Hn. fold (stream rs) in Hn.
    rewrite newlines_app in Hn.
    rewrite lb_reads_bytes. subst el.
    assert (Hk : Z.of_nat MAXSIZE = 65205) by reflexivity.
    assert (Hl : 1 <= Z.of_nat (List.length (b :: t)) <= 65205).
    { cbn [List.length] in *. lia. }
    assert (El : (uintmax (Z.of_nat (List.length (b :: t)) * 6)
                  <=? num_lines li) = false).
    { apply Z.leb_gt. rewrite uintmax_id; [lia|]. unfold wrapped. lia. }
    rewrite El.
    destruct (IH (mk_lb (bytewise (b :: t) li)
                        (uintmax (sum + uintmax (Z.of_nat (List.length (b :: t)))))
                        false (fill buf (b :: t)) marks))
      as [t' [A [B C]]]; cbn [lb_li lb_expect_long lb_marks];
      try assumption; try reflexivity.
    + rewrite bytewise_lines. cbn [num_lines set_num_lines].
      rewrite bump_small; lia.
    + rewrite bytewise_lines. cbn [num_lines set_num_lines].
      rewrite bump_small; lia.
    + exists t'. repeat split; assumption.
Qed.

(** X10. A scan by [count_lines_and_bytes] whose reads all deliver, none
    more than [MAXSIZE] bytes, and whose stream holds fewer than six
    newlines is never promoted: every block is scanned bytewise and no
    sentinel is stored. *)
Theorem sparse_stays_bytewise (li : lc_info) (st : stat_t)
    (cells : list byte) (rs : list read_ret) :
  forallb delivers rs = true ->
  forallb fits rs = true ->
  (newlines (stream rs) < 6)%nat ->
  exists t,
    lb_reads (lb_init li st cells) rs = Done (t, []) /\
    lb_expect_long t = false /\
    lb_marks t = [].
Proof.
  intros Hd Hf Hn.
  destruct (lb_reads_sparse rs (lb_init li st cells) Hd Hf eq_refl)
    as [t [A [B C]]].
  - unfold lb_init. cbn. lia.
  - unfold lb_init. cbn. lia.
  - exists t. repeat split; assumption.
Qed.

(** The hypotheses of [sparse_stays_bytewise] hold for five newlines
    followed by a one-byte read. *)
Lemma sparse_stays_bytewise_witness :
  exists t,
    lb_reads (lb_init li0 (mk_stat false 0) (repeat "000"%byte MAXSIZE))
             [Bytes (repeat NL 5); Bytes (bytes_of "a"); Bytes (bytes_of "b")]
    = Done (t, []) /\
    lb_expect_long t = false /\
    lb_marks t = [].
Proof.
  apply sparse_stays_bytewise.
  - reflexivity.
  - vm_compute. reflexivity.
  - vm_compute. lia.
Defined.

(** ** A read that returns 0 *)

Lemma bytes_reads_stop (rs1 rs2 : list read_ret) :
  forallb nonzero rs1 = true ->
  forall n,
    bytes_reads n (rs1 ++ Bytes [] :: rs2) = (fst (bytes_reads n rs1), rs2).
Proof.
  induction rs1 as [|r rs1 IH]; intros H n; [reflexivity|].
  cbn [forallb] in H. apply andb_prop in H. destruct H as [Hr Hrs].
  destruct r as [[|b t]|]; try discriminate Hr; cbn [app bytes_reads];
    apply IH; exact Hrs.
Qed.

Lemma tally_reads_stop (L : locale) (rs1 rs2 : list read_ret) :
  forallb nonzero rs1 = true ->
  forall mst hs,
    tally_reads L mst hs (rs1 ++ Bytes [] :: rs2) = tally_reads L mst hs rs1.
Proof.
  induction rs1 as [|r rs1 IH]; intros H mst hs; [reflexivity|].
  cbn [forallb] in H. apply andb_prop in H. destruct H as [Hr Hrs].
  destruct r as [[|b t]|]; try discriminate Hr; cbn [app tally_reads].
  - destruct (tally L (List.length (b :: t)) mst hs (b :: t)) as [[[nl nw] m] h].
    rewrite (IH Hrs). reflexivity.
  - apply IH. exact Hrs.
Qed.

Lemma lb_reads_stop (rs1 rs2 : list read_ret) :
  forallb nonzero rs1 = true ->
  forall s,
    lb_reads s (rs1 ++ Bytes [] :: rs2)
    = match lb_reads s rs1 with
      | Done (t, _) => Done (t, rs2)
      | Exit label => Exit label
      | Wild => Wild
      end.
Proof.
  induction rs1 as [|r rs1 IH]; intros H [li sum el buf marks]; [reflexivity|].
  cbn [forallb] in H. apply andb_prop in H. destruct H as [Hr Hrs].
  destruct r as [[|b t]|]; try discriminate Hr; cbn [app].
  - rewrite !lb_reads_bytes.
    destruct el; [|apply (IH Hrs)].
    destruct (sentinel_scan _ _ li) as [[a bs]|]; [apply (IH Hrs)|reflexivity].
  - rewrite !lb_reads_fail. reflexivity.
Qed.

Section ZeroRead.

Variable L : locale.
Variables rs1 rs2 : list read_ret.
Hypothesis Hnz : forallb nonzero rs1 = true.

Lemma count_all_stop (li : lc_info) (f : fdesc) :
  match count_all L li (with_reads f (rs1 ++ Bytes [] :: rs2)),
        count_all L li (with_reads f rs1) with
  | Done (a, fa), Done (b, fb) => a = b /\ fd_reads fa = rs2
  | Exit x, Exit y => x = y
  | _, _ => False
  end.
Proof.
  destruct f as [[st|] [cells|] rs k]; unfold with_reads;
    cbn [fd_stat fd_malloc fd_closes]; try reflexivity.
  rewrite !count_all_any.
  rewrite (tally_reads_stop L rs1 rs2 Hnz), (bytes_reads_stop rs1 rs2 Hnz).
  destruct (tally_reads L (mbstate_zero L) true rs1) as [nl nw].
  destruct (bytes_reads 0 rs1) as [sum rest]. split; reflexivity.
Qed.

Lemma count_words_stop (li : lc_info) (f : fdesc) :
  match count_words L li (with_reads f (rs1 ++ Bytes [] :: rs2)),
        count_words L li (with_reads f rs1) with
  | Done (a, fa), Done (b, fb) => a = b /\ fd_reads fa = rs2
  | Exit x, Exit y => x = y
  | _, _ => False
  end.
Proof.
  destruct f as [st [cells|] rs k]; unfold with_reads;
    cbn [fd_stat fd_malloc fd_closes]; try reflexivity.
  rewrite !count_words_any.
  rewrite (tally_reads_stop L rs1 rs2 Hnz), (bytes_reads_stop rs1 rs2 Hnz).
  destruct (tally_reads L (mbstate_zero L) true rs1) as [nl nw].
  split; reflexivity.
Qed.

Lemma count_lines_and_bytes_stop (li : lc_info) (f : fdesc) :
  match count_lines_and_bytes li (with_reads f (rs1 ++ Bytes [] :: rs2)),
        count_lines_and_bytes li (with_reads f rs1) with
  | Done (a, fa), Done (b, fb) => a = b /\ fd_reads fa = rs2
  | Exit x, Exit y => x = y
  | Wild, Wild => True
  | _, _ => False
  end.
Proof.
  destruct f as [[st|] [cells|] rs k]; unfold with_reads, count_lines_and_bytes;
    cbn [fd_stat fd_malloc fd_closes fd_reads]; try reflexivity.
  rewrite (lb_reads_stop rs1 rs2 Hnz).
  destruct (lb_reads (lb_init li st cells) rs1) as [[t rest]| |];
    [split; reflexivity|reflexivity|exact I].
Qed.

Lemma count_bytes_stop (li : lc_info) (f : fdesc) :
  counts_of (count_bytes li (with_reads f (rs1 ++ Bytes [] :: rs2)))
  = counts_of (count_bytes li (with_reads f rs1)).
Proof.
  destruct f as [[st|] m rs k]; unfold with_reads, count_bytes;
    cbn [fd_stat fd_malloc fd_closes fd_reads]; try reflexivity.
  destruct (st_isreg st && (0 <? st_size st)); [reflexivity|].
  destruct m; [|reflexivity].
  rewrite (bytes_reads_stop rs1 rs2 Hnz).
  destruct (bytes_reads _ rs1) as [n rest]. reflexivity.
Qed.

End ZeroRead.

(** X11. A read that returns 0 ends the scan, whatever the reads after it
    would return: in any locale and every mode the counts, totals and text
    of [use_opts] are those of the reads before it, and the three routines
    with a word or line loop leave the later reads unread. *)
Theorem zero_read_ends_scan (L : locale) (li : lc_info) (lc : lc_conf)
    (f : fdesc) (rs1 rs2 : list read_ret) :
  forallb nonzero rs1 = true ->
  counts_of (use_opts L li lc (with_reads f (rs1 ++ Bytes [] :: rs2)))
  = counts_of (use_opts L li lc (with_reads f rs1)) /\
  (forall a fa,
      count_all L li (with_reads f (rs1 ++ Bytes [] :: rs2)) = Done (a, fa) ->
      fd_reads fa = rs2) /\
  (forall a fa,
      count_words L li (with_reads f (rs1 ++ Bytes [] :: rs2)) = Done (a, fa) ->
      fd_reads fa = rs2) /\
  (forall a fa,
      count_lines_and_bytes li (with_reads f (rs1 ++ Bytes [] :: rs2))
      = Done (a, fa) ->
      fd_reads fa = rs2).
Proof.
  intros H.
  pose proof (count_all_stop L rs1 rs2 H li f) as A.
  pose proof (count_words_stop L rs1 rs2 H li f) as W.
  pose proof (count_lines_and_bytes_stop rs1 rs2 H li f) as B.
  pose proof (count_bytes_stop rs1 rs2 H li f) as C.
  split; [|split; [|split]].
  - unfold use_opts.
    destruct lc as [[|] [|] [|]];
      cbn [opt_bytes opt_lines opt_words negb andb];
      rewrite !counts_of_report; rewrite ?C;
      try reflexivity.
    all: try (destruct (count_all L li (with_reads f (rs1 ++ Bytes [] :: rs2)))
                as [[a fa]| |],
              (count_all L li (with_reads f rs1)) as [[b fb]| |];
              try contradiction; cbn [counts_of];
              first [rewrite A; reflexivity
                    | destruct A as [-> _]; reflexivity]).
    all: try (destruct (count_words L li (with_reads f (rs1 ++ Bytes [] :: rs2)))
                as [[a fa]| |],
              (count_words L li (with_reads f rs1)) as [[b fb]| |];
              try contradiction; cbn [counts_of];
              first [rewrite W; reflexivity
                    | destruct W as [-> _]; reflexivity]).
    all: destruct (count_lines_and_bytes li
                     (with_reads f (rs1 ++ Bytes [] :: rs2))) as [[a fa]| |],
           (count_lines_and_bytes li (with_reads f rs1)) as [[b fb]| |];
      try contradiction; cbn [counts_of];
      first [reflexivity | rewrite B; reflexivity
            | destruct B as [-> _]; reflexivity].
  - intros a fa E. rewrite E in A.
    destruct (count_all L li (with_reads f rs1)) as [[b fb]| |];
      try contradiction. apply A.
  - intros a fa E. rewrite E in W.
    destruct (count_words L li (with_reads f rs1)) as [[b fb]| |];
      try contradiction. apply W.
  - intros a fa E. rewrite E in B.
    destruct (count_lines_and_bytes li (with_reads f rs1)) as [[b fb]| |];
      try contradiction. apply B.
Qed.

(** The hypothesis of [zero_read_ends_scan] holds for "a b", a read of 0,
    then "c d". *)
Lemma zero_read_ends_scan_witness :
  counts_of (use_opts byte_locale li0 (mk_conf false false true)
               (pipe [Bytes (bytes_of "a b"); Bytes []; Bytes (bytes_of "c d")]))
  = counts_of (use_opts byte_locale li0 (mk_conf false false true)
                 (pipe [Bytes (bytes_of "a b")])).
Proof.
  exact (proj1 (zero_read_ends_scan byte_locale li0 (mk_conf false false true)
                  (pipe []) [Bytes (bytes_of "a b")] [Bytes (bytes_of "c d")]
                  eq_refl)).
Defined.

(** ** A file without a declared size *)

(** X12. The size [fstat] reports is used only when it is positive: for a
    regular file of size 0, as for any source whose size is not positive,
    every mode with bytes reads the source to the end and reports the sum
    of what the reads delivered, in any locale.  In the mode of lines and
    bytes, which scans through [count_lines_and_bytes], this is for a block
    of [MAXSIZE] cells and reads that are each shorter than that, so that
    the sentinel always has a cell to go to. *)
Theorem unsized_is_read (L : locale) (li : lc_info) (lc : lc_conf)
    (f : fdesc) (st : stat_t) (cells : list byte) :
  opt_bytes lc = true ->
  fd_stat f = Some st ->
  st_size st <= 0 ->
  fd_malloc f = Some cells ->
  forallb delivers (fd_reads f) = true ->
  (opt_lines lc = true -> opt_words lc = false ->
   List.length cells = MAXSIZE /\ forallb short (fd_reads f) = true) ->
  sum_reads (fd_reads f) < 2 ^ 64 ->
  exists li' lc' text f',
    use_opts L li lc f = Done (li', lc', text, f') /\
    num_bytes li' = sum_reads (fd_reads f) /\
    fd_reads f' = [].
Proof.
  destruct f as [s m rs k]. cbn [fd_stat fd_malloc fd_reads].
  intros Hb -> Hs -> Hd Hroom Hsum.
  rewrite sum_reads_stream in *.
  assert (U : uintmax (Z.of_nat (List.length (stream rs)))
              = Z.of_nat (List.length (stream rs))).
  { apply uintmax_id. unfold wrapped. lia. }
  assert (N : st_isreg st && (0 <? st_size st) = false).
  { destruct (Z.ltb_spec 0 (st_size st)); [lia|]. apply andb_false_r. }
  destruct lc as [ob ol ow]. cbn [opt_bytes] in Hb. subst ob.
  cbn [opt_lines opt_words] in Hroom.
  destruct (count_all_bytes L li st cells rs k Hd) as [la [Ea Ba]].
  rewrite N in Ba.
  unfold use_opts. cbn [opt_bytes opt_lines opt_words].
  destruct ol, ow; cbn [negb andb opt_bytes opt_lines opt_words];
    try (destruct (Hroom eq_refl eq_refl) as [Hc Hsh];
         rewrite (count_lines_and_bytes_clean li st cells rs k Hc Hsh));
    rewrite ?Ea;
    rewrite ?count_bytes_clean by exact Hd;
    unfold report; do 4 eexists; (split; [reflexivity|]);
    cbn [add_totals num_bytes fd_reads];
    rewrite ?lb_result_bytes, ?bytes_result_bytes, ?Ba, ?N;
    split; first [exact U | reflexivity].
Qed.

(** The hypotheses of [unsized_is_read] hold for a regular file of
    declared size 0 that delivers "abc", in the mode of bytes alone and in
    the mode of lines and bytes. *)
Lemma unsized_is_read_witness :
  (exists li' lc' text f',
      use_opts byte_locale li0 (mk_conf true false false)
               (regular 0 [Bytes (bytes_of "abc")])
      = Done (li', lc', text, f') /\
      num_bytes li' = 3 /\ fd_reads f' = []) /\
  (exists li' lc' text f',
      use_opts byte_locale li0 (mk_conf true true false)
               (regular 0 [Bytes (bytes_of "abc")])
      = Done (li', lc', text, f') /\
      num_bytes li' = 3 /\ fd_reads f' = []).
Proof.
  split.
  - exact (unsized_is_read byte_locale li0 (mk_conf true false false)
             (regular 0 [Bytes (bytes_of "abc")]) (mk_stat true 0)
             (repeat "000"%byte MAXSIZE)
             eq_refl eq_refl (Z.le_refl 0) eq_refl eq_refl
             (fun H _ => False_ind _ (Bool.diff_false_true H))
             eq_refl).
  - refine (unsized_is_read byte_locale li0 (mk_conf true true false)
              (regular 0 [Bytes (bytes_of "abc")]) (mk_stat true 0)
              (repeat "000"%byte MAXSIZE)
              eq_refl eq_refl (Z.le_refl 0) eq_refl eq_refl _ eq_refl).
    intros _ _. split; [apply repeat_length|vm_compute; reflexivity].
Defined.

(** ** Counts against one another *)

Lemma nl_is_white (b : byte) : is_nl b = true -> white b = true.
Proof.
  unfold is_nl, white. intros H. apply Z.eqb_eq in H. rewrite H. reflexivity.
Qed.

Lemma starts_and_newlines (l : list byte) :
  forall hs,
    (newlines l + word_starts hs l <= List.length l)%nat /\
    (2 * word_starts hs l <= List.length l + if hs then 1 else 0)%nat.
Proof.
  induction l as [|b t IH]; intros hs.
  - cbn. destruct hs; lia.
  - unfold newlines in *. cbn [filter word_starts List.length].
    destruct (is_nl b) eqn:Hn.
    + rewrite (nl_is_white b Hn). cbn [List.length].
      destruct (IH true) as [A B]. destruct hs; lia.
    + destruct (white b).
      * destruct (IH true) as [A B]. destruct hs; lia.
      * destruct (IH false) as [A B]. destruct hs; lia.
Qed.

(** X13. In the C locale, for a source without a declared size whose reads
    all deliver, the counts [count_all] leaves satisfy
    lines + words <= bytes and 2 * words <= bytes + 1: a newline starts no
    word, and two words need a byte between them. *)
Theorem counts_bounded (L : locale) (HL : c_locale L) (li : lc_info)
    (f : fdesc) (st : stat_t) (cells : list byte) :
  fd_stat f = Some st ->
  declared_size st = None ->
  fd_malloc f = Some cells ->
  forallb delivers (fd_reads f) = true ->
  Z.of_nat (List.length (stream (fd_reads f))) < 2 ^ 64 ->
  exists li' f',
    count_all L li f = Done (li', f') /\
    num_lines li' + num_words li' <= num_bytes li' /\
    2 * num_words li' <= num_bytes li' + 1.
Proof.
  destruct f as [s m rs k]. cbn [fd_stat fd_malloc fd_reads].
  intros -> Hu -> Hd Hlen.
  eexists. eexists. split; [apply (count_all_clean L HL); exact Hd|].
  rewrite all_result_lines, all_result_words, all_result_bytes.
  unfold declared_size in Hu.
  destruct (st_isreg st && (0 <? st_size st)); [discriminate Hu|].
  destruct (starts_and_newlines (stream rs) true) as [A B].
  pose proof (newlines_le (stream rs)).
  pose proof (word_starts_le (stream rs) true).
  rewrite !bump_small by lia.
  rewrite uintmax_id by (unfold wrapped; lia).
  lia.
Qed.

(** The hypotheses of [counts_bounded] hold for the pipe "a\nb". *)
Lemma counts_bounded_witness :
  exists li' f',
    count_all byte_locale li0 (pipe [Bytes (bytes_of ("a" ++ nl ++ "b"))])
    = Done (li', f') /\
    num_lines li' + num_words li' <= num_bytes li' /\
    2 * num_words li' <= num_bytes li' + 1.
Proof.
  exact (counts_bounded byte_locale byte_locale_C li0
           (pipe [Bytes (bytes_of ("a" ++ nl ++ "b"))]) (mk_stat false 0)
           (repeat "000"%byte MAXSIZE) eq_refl eq_refl eq_refl eq_refl eq_refl).
Defined.

(** ** The ASCII branch *)

(** X14. The test [is_ascii( *p) && is_print( *p)] sends exactly the bytes
    0x20 to 0x7e to the ASCII branch of the word loops.  There [is_space]
    holds for the blank alone and the byte is never a newline, so tab,
    newline, vertical tab, form feed and carriage return are classified by
    [iswspace] after [mbrtowc]; without that test [is_space] would hold for
    every byte above 0x7f, since [char] is signed. *)
Theorem ascii_branch_bytes (b : byte) :
  ascii_branch b = (32 <=? uchar b) && (uchar b <=? 126) /\
  ascii_branch b && is_space (schar b) = (uchar b =? 32) /\
  ascii_branch b && (schar b =? 10) = false /\
  ascii_branch b && isspace_C (uchar b) = (uchar b =? 32) /\
  ((128 <=? uchar b) && negb (is_space (schar b))) = false.
Proof. destruct b; vm_compute; repeat split. Qed.

(** ** How use_opts ends *)

Lemma lb_reads_ends (rs : list read_ret) :
  forall s,
    forallb room rs = true ->
    List.length (lb_buf s) = MAXSIZE ->
    exists t rest, lb_reads s rs = Done (t, rest).
Proof.
  induction rs as [|r rs IH]; intros [li sum el buf marks] H Hb;
    cbn [lb_buf] in *.
  - eexists. eexists. reflexivity.
  - cbn [forallb] in H. apply andb_prop in H. destruct H as [Hr Hrs].
    destruct r as [[|b t]|]; try discriminate Hr.
    + eexists. eexists. reflexivity.
    + cbn [room] in Hr. rewrite lb_reads_bytes.
      assert (Hlt : (List.length (b :: t) < List.length buf)%nat).
      { rewrite Hb. apply Nat.ltb_lt. exact Hr. }
      destruct el.
      * rewrite sentinel_scan_fill. rewrite (proj2 (Nat.ltb_lt _ _) Hlt).
        apply IH; [exact Hrs|]. cbn [lb_buf].
        rewrite room_length by exact Hlt. exact Hb.
      * apply IH; [exact Hrs|]. cbn [lb_buf].
        rewrite fill_length; [exact Hb|]. apply Nat.lt_le_incl. exact Hlt.
Qed.

(** X15. When no read fails and, in the modes of lines without words, the
    block has its [MAXSIZE] cells and every read returns fewer bytes than
    that, [use_opts] never leaves its objects, in any locale.  It needs
    [fstat] unless the mode is words alone, and [malloc] unless the mode is
    bytes alone on a file with a declared size; it returns when what it
    needs is there, and otherwise exits with the label of what is missing.
    When both are missing the label is "malloc()" in the modes of lines
    without words, which allocate first, and "fstat()" in the others. *)
Theorem use_opts_ends (L : locale) (li : lc_info) (lc : lc_conf) (f : fdesc) :
  forallb no_fail (fd_reads f) = true ->
  (lines_without_words (effective lc) = true ->
   block_sized f = true /\ forallb room (fd_reads f) = true) ->
  let m := effective lc in
  let needs_stat := negb (words_alone m) in
  let needs_block := negb (bytes_alone m && sized f) in
  match use_opts L li lc f with
  | Done _ =>
      (needs_stat = true -> fd_stat f <> None) /\
      (needs_block = true -> fd_malloc f <> None)
  | Exit label =>
      (label = "fstat()"%string /\ needs_stat = true /\ fd_stat f = None /\
       (lines_without_words m = true -> fd_malloc f <> None)) \/
      (label = "malloc()"%string /\ needs_block = true /\ fd_malloc f = None /\
       (lines_without_words m = false -> needs_stat = true ->
        fd_stat f <> None))
  | Wild => False
  end.
Proof.
  intros Hnf Hroom. cbv zeta.
  destruct f as [s mm rs k]. cbn [fd_reads] in Hnf, Hroom.
  unfold block_sized in Hroom. cbn [fd_malloc] in Hroom.
  unfold use_opts, sized, words_alone, bytes_alone, lines_without_words in *.
  destruct lc as [[|] [|] [|]];
    cbn [opt_bytes opt_lines opt_words negb andb effective fd_stat fd_malloc]
      in *;
    unfold report, count_all, count_words, count_bytes, count_lines_and_bytes;
    cbn [fd_stat fd_malloc fd_reads];
    destruct s as [st|]; destruct mm as [cells|];
    try (left; repeat split; congruence);
    try (right; repeat split; congruence);
    try (destruct (st_isreg st && (0 <? st_size st)));
    try (right; repeat split; congruence);
    try (destruct (all_reads L _ 0 rs) as [[c sum] rest]);
    try (destruct (words_reads L _ rs) as [c rest]);
    try (destruct (bytes_reads _ rs) as [n rest]);
    try (match goal with
         | |- context [lb_reads ?s0 rs] =>
             destruct (Hroom eq_refl) as [Hb Hr];
             apply Nat.eqb_eq in Hb;
             destruct (lb_reads_ends rs s0 Hr Hb) as [t [rest ->]]
         end);
    try (split; congruence);
    try (right; repeat split; congruence);
    try (cbn [negb andb]; split; congruence).
Qed.

(** The hypotheses of [use_opts_ends] hold for a source on which [fstat]
    fails, where the mode of words alone returns and the mode of lines
    alone exits with "fstat()", and for a pipe whose third block is scanned
    through the sentinel search in the mode of lines alone, which
    returns. *)
Lemma use_opts_ends_witness :
  let f := mk_fd None (Some (repeat "000"%byte MAXSIZE))
                 [Bytes (bytes_of "a b")] 0 in
  let g := pipe [Bytes (repeat NL 6); Bytes (bytes_of "a");
                 Bytes (bytes_of ("a" ++ nl ++ "b" ++ nl ++ nl))] in
  (exists r, use_opts byte_locale li0 (mk_conf false false true) f = Done r) /\
  use_opts byte_locale li0 (mk_conf false true false) f = Exit "fstat()" /\
  (exists r, use_opts byte_locale li0 (mk_conf false true false) g = Done r).
Proof.
  cbv zeta. split; [|split].
  - pose proof (use_opts_ends byte_locale li0 (mk_conf false false true)
                  (mk_fd None (Some (repeat "000"%byte MAXSIZE))
                         [Bytes (bytes_of "a b")] 0) eq_refl
                  (fun H => False_ind _ (Bool.diff_false_true H))) as H.
    cbv zeta in H.
    destruct (use_opts byte_locale li0 (mk_conf false false true) _)
      as [r|label|].
    + exists r. reflexivity.
    + exfalso. destruct H as [[_ [H _]]|[_ [_ [H _]]]]; discriminate H.
    + contradiction.
  - assert (R : block_sized (mk_fd None (Some (repeat "000"%byte MAXSIZE))
                               [Bytes (bytes_of "a b")] 0) = true /\
                forallb room [Bytes (bytes_of "a b")] = true).
    { split; vm_compute; reflexivity. }
    pose proof (use_opts_ends byte_locale li0 (mk_conf false true false)
                  (mk_fd None (Some (repeat "000"%byte MAXSIZE))
                         [Bytes (bytes_of "a b")] 0) eq_refl
                  (fun _ => R)) as H.
    cbv zeta in H.
    destruct (use_opts byte_locale li0 (mk_conf false true false) _)
      as [r|label|].
    + exfalso. destruct H as [H _]. apply H; reflexivity.
    + destruct H as [[H _]|[_ [_ [H _]]]]; [rewrite H; reflexivity|].
      discriminate H.
    + contradiction.
  - assert (R : block_sized
                  (pipe [Bytes (repeat NL 6); Bytes (bytes_of "a");
                         Bytes (bytes_of ("a" ++ nl ++ "b" ++ nl ++ nl))])
                = true /\
                forallb room
                  [Bytes (repeat NL 6); Bytes (bytes_of "a");
                   Bytes (bytes_of ("a" ++ nl ++ "b" ++ nl ++ nl))] = true).
    { split; vm_compute; reflexivity. }
    pose proof (use_opts_ends byte_locale li0 (mk_conf false true false)
                  (pipe [Bytes (repeat NL 6); Bytes (bytes_of "a");
                         Bytes (bytes_of ("a" ++ nl ++ "b" ++ nl ++ nl))])
                  eq_refl (fun _ => R)) as H.
    cbv zeta in H.
    destruct (use_opts byte_locale li0 (mk_conf false true false) _)
      as [r|label|].
    + exists r. reflexivity.
    + exfalso. destruct H as [[_ [_ [H _]]]|[_ [_ [H _]]]]; discriminate H.
    + contradiction.
Defined.

(** ** A scan that exits in the middle of the arguments *)

(** X16. When the arguments before the k-th pass the loop and the scan of
    the k-th exits through [err], the process ends there with
    [EXIT_FAILURE] and the label of the failed call on standard error:
    standard output holds the count lines of the arguments before it and
    no total line, the k-th descriptor is left open, and the arguments
    after it are not opened. *)
Theorem scan_exit_stops (L : locale) (open : string -> option fdesc)
    (lc : lc_conf) (pre : list string) (arg : string) (post : list string)
    (r : run) (f : fdesc) (label : string) :
  file_loop L open (mk_run li0 lc EmptyString []) pre = inl r ->
  bare_dash arg = false ->
  open arg = Some f ->
  use_opts L (r_li r) (r_lc r) f = Exit label ->
  main L open lc (pre ++ arg :: post)
  = mk_process (r_out r) [label] (Status EXIT_FAILURE) (r_fds r ++ [f]) /\
  exists texts,
    Forall2 (printed_for L open) pre texts /\
    r_out r = listing (combine texts pre).
Proof.
  intros Hpre Hd Ho Hu.
  split.
  - unfold main.
    assert (E : file_loop L open (mk_run li0 lc EmptyString [])
                          (pre ++ arg :: post)
                = inr (mk_process (r_out r) [label] (Status EXIT_FAILURE)
                                  (r_fds r ++ [f]))).
    { rewrite file_loop_app, Hpre. cbn [file_loop].
      rewrite Hd, Ho, Hu. reflexivity. }
    destruct (pre ++ arg :: post) as [|a l] eqn:El.
    + destruct pre; discriminate El.
    + fold li0. rewrite E. reflexivity.
  - destruct (file_loop_listing L open pre _ r Hpre) as [texts [F O]].
    exists texts. split; [exact F|exact O].
Qed.

(** The hypotheses of [scan_exit_stops] hold for [-l f1 f2] when [fstat]
    fails on f2. *)
Lemma scan_exit_stops_witness :
  let fs arg :=
    if String.eqb arg "f2"
    then Some (mk_fd None (Some (repeat "000"%byte MAXSIZE))
                     [Bytes (bytes_of "a b")] 0)
    else two_files arg in
  let p := main byte_locale fs (mk_conf false true false)
                ["f1"; "f2"; "f1"]%string in
  p_stdout p = ("           1 f1" ++ nl)%string /\
  p_stderr p = ["fstat()"%string] /\
  p_end p = Status EXIT_FAILURE /\
  List.length (p_fds p) = 2%nat.
Proof.
  cbv zeta.
  set (fs := fun arg : string =>
               if String.eqb arg "f2"
               then Some (mk_fd None (Some (repeat "000"%byte MAXSIZE))
                                [Bytes (bytes_of "a b")] 0)
               else two_files arg).
  set (r := match file_loop byte_locale fs
                    (mk_run li0 (mk_conf false true false) EmptyString [])
                    ["f1"%string]
            with
            | inl r => r
            | inr _ => mk_run li0 (mk_conf false true false) EmptyString []
            end).
  destruct (scan_exit_stops byte_locale fs (mk_conf false true false)
              ["f1"%string] "f2"%string ["f1"%string] r
              (mk_fd None (Some (repeat "000"%byte MAXSIZE))
                     [Bytes (bytes_of "a b")] 0)
              "fstat()"%string eq_refl eq_refl eq_refl eq_refl) as [E _].
  cbn [app] in E. rewrite E. cbn [p_stdout p_stderr p_end p_fds].
  repeat split; vm_compute; reflexivity.
Defined.
